(** * Mock-interview practice tool: prompt strategies, question generation,
      practice flow and setup page

    A shallow embedding of the Python sources [prompt_strategies.py],
    [llm_utils.py], [practice_app.py], [ui_components.py] and
    [streamlit_app.py], with the properties of the specification stated
    over it.

    Conventions.
    - Python [str] is a Rocq [string], one [ascii] per character; the
      character operations ([lower], [upper], [isspace]) follow Python on
      the code points U+0000..U+00FF.  The feedback lines of
      [practice_app.py], the only literals with characters beyond ASCII, are
      copied as they stand in the source file; no property reads inside
      them.
    - Clock readings are rationals; [int] rounds towards zero.
    - Python dictionaries are [gmap]s, or association lists where the
      iteration order is observable.
    - An exception is a value of [exn]; a function that may raise returns
      [exn + A]. *)

From Stdlib Require Import ZArith QArith Qround Ascii String List Bool Lia.
From stdpp Require Import base gmap strings list fin_maps pretty.

Local Open Scope string_scope.
Local Open Scope list_scope.

(** ** Python strings *)

Module PyStr.

Definition nl : string := String "010"%char EmptyString.
Definition dq : string := String "034"%char EmptyString.

(** [str.lower] on one character: A..Z and the Latin-1 capitals
    U+00C0..U+00DE (the multiplication sign U+00D7 apart) move up by 32. *)
Definition lower_char (c : ascii) : ascii :=
  let n := N_of_ascii c in
  if ((65 <=? n) && (n <=? 90)
      || (192 <=? n) && (n <=? 222) && negb (n =? 215))%N
  then ascii_of_N (n + 32) else c.

Fixpoint lower (s : string) : string :=
  match s with
  | EmptyString => EmptyString
  | String c s' => String (lower_char c) (lower s')
  end.

(** [str.upper] on one character.  The sharp s (U+00DF) becomes "SS"; the two
    letters whose capital lies beyond U+00FF (U+00B5, U+00FF) are kept. *)
Definition upper_char (c : ascii) : string :=
  let n := N_of_ascii c in
  if ((97 <=? n) && (n <=? 122)
      || (224 <=? n) && (n <=? 254) && negb (n =? 247))%N
  then String (ascii_of_N (n - 32)) EmptyString
  else if (n =? 223)%N then "SS"
  else String c EmptyString.

Fixpoint upper (s : string) : string :=
  match s with
  | EmptyString => EmptyString
  | String c s' => upper_char c +:+ upper s'
  end.

(** [str.isspace] on one character: TAB..CR, FS..US, space, NEL, NBSP. *)
Definition isspace (c : ascii) : bool :=
  let n := N_of_ascii c in
  ((9 <=? n) && (n <=? 13) || (28 <=? n) && (n <=? 32)
   || (n =? 133) || (n =? 160))%N.

Definition truthy (s : string) : bool := negb (String.eqb s EmptyString).

(** [a or b] on strings. *)
Definition py_or (a b : string) : string := if truthy a then a else b.

Fixpoint lstrip (s : string) : string :=
  match s with
  | EmptyString => EmptyString
  | String c s' => if isspace c then lstrip s' else s
  end.

Fixpoint rstrip (s : string) : string :=
  match s with
  | EmptyString => EmptyString
  | String c s' =>
      let r := rstrip s' in
      if isspace c && negb (truthy r) then EmptyString else String c r
  end.

Definition strip (s : string) : string := rstrip (lstrip s).

(** [s.startswith(p)] *)
Fixpoint startswith (s p : string) : bool :=
  match p, s with
  | EmptyString, _ => true
  | String _ _, EmptyString => false
  | String a p', String b s' => Ascii.eqb a b && startswith s' p'
  end.

(** [s.endswith(p)] *)
Fixpoint endswith (s p : string) : bool :=
  String.eqb s p ||
  match s with
  | EmptyString => false
  | String _ s' => endswith s' p
  end.

(** [sub in s] *)
Fixpoint str_in (sub s : string) : bool :=
  startswith s sub ||
  match s with
  | EmptyString => false
  | String _ s' => str_in sub s'
  end.

(** [s[n:]] *)
Fixpoint drop_prefix (n : nat) (s : string) : string :=
  match n, s with
  | O, _ => s
  | S _, EmptyString => EmptyString
  | S n', String _ s' => drop_prefix n' s'
  end.

(** [sep.join(l)] *)
Fixpoint join (sep : string) (l : list string) : string :=
  match l with
  | [] => EmptyString
  | [x] => x
  | x :: rest => x +:+ sep +:+ join sep rest
  end.

End PyStr.

Import PyStr.

(** ** Exceptions *)

Inductive exn : Type :=
| ValueError (msg : string)
| RuntimeError (msg : string)
| OtherError (msg : string).

(** [str(exc)] *)
Definition exn_message (e : exn) : string :=
  match e with
  | ValueError m | RuntimeError m | OtherError m => m
  end.

(** ** prompt_strategies.py *)

Module PromptStrategies.

(** ["\n".join(f"- {q}" for q in (previous_questions or [])) or "None"] *)
Definition render_prior_list (previous_questions : option (list string)) : string :=
  py_or (join nl (map (fun q => "- " +:+ q) (default [] previous_questions))) "None".

Definition zero_shot_prompt (role company round_type difficulty : string)
    (previous_questions : option (list string)) : string :=
  let prior_list := render_prior_list previous_questions in
  "Generate a single interview question for the following position:" +:+ nl +:+
  nl +:+
  "Role: " +:+ role +:+ nl +:+
  "Company: " +:+ py_or company "a company" +:+ nl +:+
  "Interview Round: " +:+ round_type +:+ nl +:+
  "Difficulty Level: " +:+ difficulty +:+ nl +:+
  nl +:+
  "Previously asked questions (avoid repetition):" +:+ nl +:+
  prior_list +:+ nl +:+
  nl +:+
  "Generate exactly ONE challenging and relevant interview question." +:+ nl +:+
  nl +:+
  "Question:".

Definition few_shot_examples_coding : string :=
  nl +:+
  "Example 1:" +:+ nl +:+
  "Role: Software Engineer" +:+ nl +:+
  "Question: " +:+ dq +:+ "Implement a function to find the longest palindromic substring in a given string. What's the time complexity of your solution?" +:+ dq +:+ nl +:+
  nl +:+
  "Example 2:" +:+ nl +:+
  "Role: Backend Developer" +:+ nl +:+
  "Question: " +:+ dq +:+ "Design a rate limiter for an API that handles 10,000 requests per second. Explain your approach and trade-offs." +:+ dq +:+ nl +:+
  nl +:+
  "Example 3:" +:+ nl +:+
  "Role: Full Stack Developer" +:+ nl +:+
  "Question: " +:+ dq +:+ "How would you optimize a slow database query that joins three tables with millions of rows each?" +:+ dq +:+ nl.

Definition few_shot_examples_behavioral : string :=
  nl +:+
  "Example 1:" +:+ nl +:+
  "Role: Product Manager" +:+ nl +:+
  "Question: " +:+ dq +:+ "Tell me about a time when you had to make a difficult decision with incomplete information. How did you approach it?" +:+ dq +:+ nl +:+
  nl +:+
  "Example 2:" +:+ nl +:+
  "Role: Team Lead" +:+ nl +:+
  "Question: " +:+ dq +:+ "Describe a situation where you had to give constructive feedback to a team member who wasn't meeting expectations." +:+ dq +:+ nl +:+
  nl +:+
  "Example 3:" +:+ nl +:+
  "Role: Software Engineer" +:+ nl +:+
  "Question: " +:+ dq +:+ "Can you share an example of when you disagreed with your manager's technical decision? How did you handle it?" +:+ dq +:+ nl.

Definition few_shot_examples_default : string :=
  nl +:+
  "Example 1:" +:+ nl +:+
  "Role: Data Scientist" +:+ nl +:+
  "Question: " +:+ dq +:+ "Explain the bias-variance tradeoff and how it impacts model selection in machine learning." +:+ dq +:+ nl +:+
  nl +:+
  "Example 2:" +:+ nl +:+
  "Role: DevOps Engineer" +:+ nl +:+
  "Question: " +:+ dq +:+ "How would you design a CI/CD pipeline for a microservices architecture with 20+ services?" +:+ dq +:+ nl +:+
  nl +:+
  "Example 3:" +:+ nl +:+
  "Role: Security Engineer" +:+ nl +:+
  "Question: " +:+ dq +:+ "What are the key differences between symmetric and asymmetric encryption, and when would you use each?" +:+ dq +:+ nl.

Definition few_shot_prompt (role company round_type difficulty : string)
    (previous_questions : option (list string)) : string :=
  let prior_list := render_prior_list previous_questions in
  let examples :=
    if lower round_type =? "coding" then few_shot_examples_coding
    else if lower round_type =? "behavioral" then few_shot_examples_behavioral
    else few_shot_examples_default in
  "Here are examples of high-quality interview questions:" +:+ nl +:+
  examples +:+ nl +:+
  nl +:+
  "Now generate a similar question for:" +:+ nl +:+
  "Role: " +:+ role +:+ nl +:+
  "Company: " +:+ py_or company "a company" +:+ nl +:+
  "Interview Round: " +:+ round_type +:+ nl +:+
  "Difficulty Level: " +:+ difficulty +:+ nl +:+
  nl +:+
  "Previously asked questions (avoid these):" +:+ nl +:+
  prior_list +:+ nl +:+
  nl +:+
  "Generate exactly ONE interview question following the style and quality of the examples above." +:+ nl +:+
  nl +:+
  "Question:".

Definition chain_of_thought_prompt (role company round_type difficulty : string)
    (previous_questions : option (list string)) : string :=
  let prior_list := render_prior_list previous_questions in
  "You need to generate an interview question. Let's think through this step by step:" +:+ nl +:+
  nl +:+
  "Step 1: Analyze the role and requirements" +:+ nl +:+
  "- Role: " +:+ role +:+ nl +:+
  "- Company: " +:+ py_or company "a company" +:+ nl +:+
  "- Interview Round: " +:+ round_type +:+ nl +:+
  "- Difficulty Level: " +:+ difficulty +:+ nl +:+
  nl +:+
  "Step 2: Consider what skills are most important for this role" +:+ nl +:+
  "Think about: What are the key competencies needed for a " +:+ role +:+ "?" +:+ nl +:+
  nl +:+
  "Step 3: Determine the appropriate question type" +:+ nl +:+
  "For " +:+ round_type +:+ " round at " +:+ difficulty +:+ " level, what type of question would best assess the candidate?" +:+ nl +:+
  nl +:+
  "Step 4: Review previously asked questions to avoid repetition" +:+ nl +:+
  prior_list +:+ nl +:+
  nl +:+
  "Step 5: Craft a question that:" +:+ nl +:+
  "- Tests relevant skills for the role" +:+ nl +:+
  "- Matches the difficulty level" +:+ nl +:+
  "- Is appropriate for the " +:+ round_type +:+ " round" +:+ nl +:+
  "- Doesn't repeat previous questions" +:+ nl +:+
  "- Encourages detailed, thoughtful responses" +:+ nl +:+
  nl +:+
  "Now, based on this reasoning, generate exactly ONE interview question:" +:+ nl +:+
  nl +:+
  "Question:".

Definition role_based_prompt (role company round_type difficulty : string)
    (previous_questions : option (list string)) : string :=
  let prior_list := render_prior_list previous_questions in
  "You are a senior technical recruiter with 15+ years of experience at top tech companies like Google, Meta, and Amazon. You've conducted over 5,000 interviews and have deep expertise in assessing candidates for technical roles." +:+ nl +:+
  nl +:+
  "Your task is to create an interview question that will effectively evaluate a candidate applying for:" +:+ nl +:+
  nl +:+
  "Position: " +:+ role +:+ nl +:+
  "Company: " +:+ py_or company "a company" +:+ nl +:+
  "Interview Stage: " +:+ round_type +:+ nl +:+
  "Candidate Level: " +:+ difficulty +:+ nl +:+
  nl +:+
  "As an expert interviewer, you know that great questions should:" +:+ nl +:+
  "- Reveal the candidate's depth of knowledge" +:+ nl +:+
  "- Allow for follow-up discussions" +:+ nl +:+
  "- Differentiate between good and exceptional candidates" +:+ nl +:+
  "- Be fair and unbiased" +:+ nl +:+
  "- Relate to real-world scenarios" +:+ nl +:+
  nl +:+
  "Questions already asked in this interview (avoid similar topics):" +:+ nl +:+
  prior_list +:+ nl +:+
  nl +:+
  "Drawing on your extensive experience, craft exactly ONE interview question that will help identify the best candidate for this role." +:+ nl +:+
  nl +:+
  "Question:".

Definition structured_output_prompt (role company round_type difficulty : string)
    (previous_questions : option (list string)) : string :=
  let prior_list := render_prior_list previous_questions in
  "Generate an interview question with the following specifications:" +:+ nl +:+
  nl +:+
  "TARGET ROLE: " +:+ role +:+ nl +:+
  "COMPANY: " +:+ py_or company "a company" +:+ nl +:+
  "INTERVIEW ROUND: " +:+ round_type +:+ nl +:+
  "DIFFICULTY: " +:+ difficulty +:+ nl +:+
  nl +:+
  "REQUIREMENTS:" +:+ nl +:+
  "1. The question must be relevant to the " +:+ role +:+ " position" +:+ nl +:+
  "2. It should match the " +:+ difficulty +:+ " difficulty level" +:+ nl +:+
  "3. It must be appropriate for the " +:+ round_type +:+ " interview round" +:+ nl +:+
  "4. It should encourage detailed responses (not yes/no questions)" +:+ nl +:+
  "5. It must be different from these previously asked questions:" +:+ nl +:+
  prior_list +:+ nl +:+
  nl +:+
  "QUALITY CRITERIA:" +:+ nl +:+
  "- Clarity: The question should be unambiguous" +:+ nl +:+
  "- Relevance: Directly related to job responsibilities" +:+ nl +:+
  "- Depth: Should assess understanding, not just memorization" +:+ nl +:+
  "- Practicality: Related to real-world scenarios when possible" +:+ nl +:+
  nl +:+
  "OUTPUT FORMAT:" +:+ nl +:+
  "Provide only the interview question, nothing else. The question should be:" +:+ nl +:+
  "- One clear, focused question (may include follow-up parts)" +:+ nl +:+
  "- Properly punctuated" +:+ nl +:+
  "- Professional in tone" +:+ nl +:+
  nl +:+
  "Question:".

Definition socratic_prompt (role company round_type difficulty : string)
    (previous_questions : option (list string)) : string :=
  let prior_list := render_prior_list previous_questions in
  "Let's create an excellent interview question by answering these guiding questions:" +:+ nl +:+
  nl +:+
  "Q1: What is the role we're interviewing for?" +:+ nl +:+
  "A1: " +:+ role +:+ nl +:+
  nl +:+
  "Q2: What are the core competencies required for a " +:+ role +:+ "?" +:+ nl +:+
  "A2: [Consider technical skills, soft skills, and domain knowledge]" +:+ nl +:+
  nl +:+
  "Q3: What interview round is this?" +:+ nl +:+
  "A3: " +:+ round_type +:+ nl +:+
  nl +:+
  "Q4: What specific skills should the " +:+ round_type +:+ " round assess?" +:+ nl +:+
  "A4: [Think about what this round uniquely evaluates]" +:+ nl +:+
  nl +:+
  "Q5: What difficulty level are we targeting?" +:+ nl +:+
  "A5: " +:+ difficulty +:+ nl +:+
  nl +:+
  "Q6: How should questions differ between difficulty levels?" +:+ nl +:+
  "A6: [Consider complexity, depth, and expected experience]" +:+ nl +:+
  nl +:+
  "Q7: What questions have already been asked?" +:+ nl +:+
  "A7: " +:+ prior_list +:+ nl +:+
  nl +:+
  "Q8: What topics or skills haven't been covered yet?" +:+ nl +:+
  "A8: [Identify gaps in the interview coverage]" +:+ nl +:+
  nl +:+
  "Q9: What real-world challenges does a " +:+ role +:+ " at " +:+ py_or company "a company" +:+ " face?" +:+ nl +:+
  "A9: [Think about practical, job-relevant scenarios]" +:+ nl +:+
  nl +:+
  "Q10: Based on all these considerations, what single question would best assess the candidate?" +:+ nl +:+
  nl +:+
  "Generate exactly ONE interview question:" +:+ nl +:+
  nl +:+
  "Question:".

Record strategy_info : Type := {
  name : string;
  description : string;
  function : string -> string -> string -> string -> option (list string) -> string
}.

(** The registry keeps the insertion order of the source dictionary. *)
Definition PROMPT_STRATEGIES : list (string * strategy_info) :=
  [ ("zero_shot",
     {| name := "Zero-Shot Prompting";
        description := "Direct instruction without examples - simple and straightforward";
        function := zero_shot_prompt |});
    ("few_shot",
     {| name := "Few-Shot Learning";
        description := "Provides examples to guide the model's output style and quality";
        function := few_shot_prompt |});
    ("chain_of_thought",
     {| name := "Chain-of-Thought (CoT)";
        description := "Encourages step-by-step reasoning for more thoughtful questions";
        function := chain_of_thought_prompt |});
    ("role_based",
     {| name := "Role-Based Prompting";
        description := "Assigns expert persona (senior recruiter) for specialized perspective";
        function := role_based_prompt |});
    ("structured_output",
     {| name := "Structured Output";
        description := "Requests specific format and quality criteria for consistency";
        function := structured_output_prompt |});
    ("socratic",
     {| name := "Socratic Method";
        description := "Uses guiding questions to lead the model to better outputs";
        function := socratic_prompt |}) ].

(** [PROMPT_STRATEGIES.keys()] *)
Definition strategy_keys : list string := map fst PROMPT_STRATEGIES.

(** [PROMPT_STRATEGIES[strategy]], [None] when the key is absent. *)
Fixpoint registry_lookup (strategy : string)
    (registry : list (string * strategy_info)) : option strategy_info :=
  match registry with
  | [] => None
  | (k, info) :: rest =>
      if String.eqb strategy k then Some info else registry_lookup strategy rest
  end.

Definition get_prompt_by_strategy (strategy role company round_type difficulty : string)
    (previous_questions : option (list string)) : exn + string :=
  match registry_lookup strategy PROMPT_STRATEGIES with
  | None =>
      inl (ValueError
             ("Unknown strategy '" +:+ strategy +:+ "'. " +:+
              "Available strategies: " +:+ join ", " strategy_keys))
  | Some info =>
      inr (function info role company round_type difficulty previous_questions)
  end.

Definition get_available_strategies : list (string * strategy_info) :=
  PROMPT_STRATEGIES.

End PromptStrategies.

(** ** llm_utils.py *)

Module LlmUtils.

Import PromptStrategies.

Inductive HarmCategory : Type :=
| HARM_CATEGORY_HARASSMENT
| HARM_CATEGORY_HATE_SPEECH
| HARM_CATEGORY_SEXUALLY_EXPLICIT
| HARM_CATEGORY_DANGEROUS_CONTENT.

Inductive HarmBlockThreshold : Type :=
| BLOCK_NONE
| BLOCK_ONLY_HIGH
| BLOCK_MEDIUM_AND_ABOVE
| BLOCK_LOW_AND_ABOVE.

#[export] Instance HarmCategory_eq_dec : EqDecision HarmCategory.
Proof. solve_decision. Defined.

Definition HarmCategory_code (c : HarmCategory) : nat :=
  match c with
  | HARM_CATEGORY_HARASSMENT => 0
  | HARM_CATEGORY_HATE_SPEECH => 1
  | HARM_CATEGORY_SEXUALLY_EXPLICIT => 2
  | HARM_CATEGORY_DANGEROUS_CONTENT => 3
  end.

Definition HarmCategory_of_code (n : nat) : option HarmCategory :=
  match n with
  | 0 => Some HARM_CATEGORY_HARASSMENT
  | 1 => Some HARM_CATEGORY_HATE_SPEECH
  | 2 => Some HARM_CATEGORY_SEXUALLY_EXPLICIT
  | 3 => Some HARM_CATEGORY_DANGEROUS_CONTENT
  | _ => None
  end.

Lemma HarmCategory_of_code_code (c : HarmCategory) :
  HarmCategory_of_code (HarmCategory_code c) = Some c.
Proof. by destruct c. Qed.

#[export] Instance HarmCategory_countable : Countable HarmCategory :=
  inj_countable HarmCategory_code HarmCategory_of_code HarmCategory_of_code_code.

#[export] Instance HarmBlockThreshold_eq_dec : EqDecision HarmBlockThreshold.
Proof. solve_decision. Defined.

Definition DEFAULT_GEMINI_MODEL : string := "gemini-2.5-pro".

(** [os.getenv("GEMINI_MODEL", DEFAULT_GEMINI_MODEL)], the environment
    variable being given as an option. *)
Definition GEMINI_MODEL (env_GEMINI_MODEL : option string) : string :=
  default DEFAULT_GEMINI_MODEL env_GEMINI_MODEL.

(** Generation parameters are numbers; 0.75 and 0.9 stand for themselves. *)
Definition DEFAULT_GENERATION_CONFIG : gmap string Q :=
  <["max_output_tokens" := 3000%Q]>
    (<["top_k" := 40%Q]>
       (<["top_p" := (9 # 10)%Q]>
          (<["temperature" := (3 # 4)%Q]> ∅))).

(** The value the module-level dictionary holds when the module is loaded. *)
Definition DEFAULT_SAFETY_SETTINGS : gmap HarmCategory HarmBlockThreshold :=
  <[HARM_CATEGORY_DANGEROUS_CONTENT := BLOCK_MEDIUM_AND_ABOVE]>
    (<[HARM_CATEGORY_SEXUALLY_EXPLICIT := BLOCK_MEDIUM_AND_ABOVE]>
       (<[HARM_CATEGORY_HATE_SPEECH := BLOCK_MEDIUM_AND_ABOVE]>
          (<[HARM_CATEGORY_HARASSMENT := BLOCK_MEDIUM_AND_ABOVE]> ∅))).

(** An override that is [None] is skipped, any other replaces the default. *)
Definition _merge_generation_config
    (overrides : option (gmap string (option Q))) : gmap string Q :=
  match overrides with
  | None => DEFAULT_GENERATION_CONFIG
  | Some o => omap id o ∪ DEFAULT_GENERATION_CONFIG
  end.

(** *** Response objects of the client library *)

Record Content : Type := {
  parts : list string;
  role : string
}.

Record SafetyRating : Type := {
  category : string;
  blocked : bool
}.

(** [finish_reason] is [None] when the attribute is missing or falsy, and
    otherwise holds what [str] gives for it. *)
Record Candidate : Type := {
  content : option Content;
  finish_reason : option string;
  safety_ratings : list SafetyRating
}.

(** The consolidated [text] accessor raises [ValueError], or gives a string
    or [None]. *)
Inductive text_accessor : Type :=
| TextRaises
| TextValue (t : option string).

Record Response : Type := {
  text : text_accessor;
  candidates : list Candidate
}.

(** Truth value of a message of the client library: some field is set. *)
Definition content_truthy (c : Content) : bool :=
  match parts c with
  | [] => truthy (role c)
  | _ :: _ => true
  end.

(** A Python result that is a string or [None]. *)
Definition str_or_none_truthy (r : option string) : bool :=
  match r with
  | Some s => truthy s
  | None => false
  end.

(** The body ends after the guard: with a content present the function
    falls off its end and gives [None]. *)
Definition _extract_text_from_candidate (candidate : Candidate) : option string :=
  match content candidate with
  | None => Some EmptyString
  | Some c => if content_truthy c then None else Some EmptyString
  end.

(** The [for] loop over the candidates, with its early [return]. *)
Fixpoint scan_candidates (cands : list Candidate) : string :=
  match cands with
  | [] => EmptyString
  | candidate :: rest =>
      match _extract_text_from_candidate candidate with
      | Some candidate_text =>
          if truthy candidate_text then candidate_text else scan_candidates rest
      | None => scan_candidates rest
      end
  end.

(** The [try] block: [Some text_value] when it returns, [None] when control
    leaves it without returning (also through [except ValueError]). *)
Definition quick_text_of (response : Response) : option string :=
  match text response with
  | TextRaises => None
  | TextValue None => None
  | TextValue (Some quick_text) =>
      if truthy quick_text then
        let text_value := strip quick_text in
        if truthy text_value then Some text_value else None
      else None
  end.

Definition _extract_text_from_response (response : option Response) : string :=
  match response with
  | None => EmptyString
  | Some response =>
      match quick_text_of response with
      | Some text_value => text_value
      | None => scan_candidates (candidates response)
      end
  end.

(** *** Calls into the client library

    A computation gives the calls it made to the client library, in order,
    and either the exception it raised or its result. *)

Inductive event : Type :=
| EvConfigure (api_key : string)
| EvGenerativeModel (model_name : string) (generation_config : gmap string Q)
    (safety_settings : gmap HarmCategory HarmBlockThreshold)
| EvGenerateContent (prompt : string)
| EvCountTokens (contents : string).

Definition M (A : Type) : Type := list event * (exn + A).

Definition ret {A : Type} (a : A) : M A := ([], inr a).

Definition raise {A : Type} (e : exn) : M A := ([], inl e).

Definition bind {A B : Type} (m : M A) (f : A -> M B) : M B :=
  match m with
  | (t, inl e) => (t, inl e)
  | (t, inr a) => let '(t', r) := f a in (t ++ t', r)
  end.

(** [try: m except Exception as exc: handler exc] *)
Definition try_except {A : Type} (m : M A) (handler : exn -> M A) : M A :=
  match m with
  | (t, inl e) => let '(t', r) := handler e in (t ++ t', r)
  | (t, inr a) => (t, inr a)
  end.

Definition lift {A : Type} (r : exn + A) : M A := ([], r).

Definition call {A : Type} (ev : event) (r : exn + A) : M A := ([ev], r).

Definition raises (o : option exn) : exn + unit :=
  match o with
  | Some e => inl e
  | None => inr tt
  end.

Notation "'let*' x ':=' m 'in' k" := (bind m (fun x => k))
  (at level 10, x binder, m at level 100, k at level 200).

Definition trace {A : Type} (m : M A) : list event := fst m.
Definition outcome {A : Type} (m : M A) : exn + A := snd m.

(** [not api_key] for an [api_key] that is a string or [None]. *)
Definition api_key_truthy (api_key : option string) : bool :=
  str_or_none_truthy api_key.

Definition prefixes_to_remove : list string :=
  [ "**Question:**";
    "**Question**:";
    "Question:";
    "**Q:**";
    "Q:";
    "Interview Question:";
    "**Interview Question:**" ].

(** The [for prefix in prefixes_to_remove] loop with its [break]. *)
Fixpoint remove_prefix_loop (prefixes : list string) (question : string) : string :=
  match prefixes with
  | [] => question
  | prefix :: rest =>
      if startswith question prefix
      then strip (drop_prefix (String.length prefix) question)
      else remove_prefix_loop rest question
  end.

(** The clean-up of a non-empty extracted question (the body of
    [if question:] in [generate_question]). *)
Definition clean_question (question : string) : string :=
  let question := strip question in
  let question := remove_prefix_loop prefixes_to_remove question in
  if negb (endswith question "?") then question +:+ "?" else question.

(** The finish reasons and block marks gathered from the candidates. *)
Definition collect_finish_reasons (cands : list Candidate) : list string :=
  flat_map
    (fun candidate =>
       match finish_reason candidate with
       | Some r => [r]
       | None => []
       end ++
       map (fun rating => "BLOCKED: " +:+ category rating)
         (filter (fun rating => blocked rating = true) (safety_ratings candidate)))
    cands.

(** The error raised when no question could be extracted. *)
Definition empty_response_error (response : Response) : exn :=
  let finish_reasons := collect_finish_reasons (candidates response) in
  let finish_reason_str :=
    match finish_reasons with
    | [] => "No finish reason provided"
    | _ :: _ => join ", " finish_reasons
    end in
  if str_in "MAX_TOKENS" (upper finish_reason_str) || str_in "2" finish_reason_str
  then RuntimeError
         ("Response exceeded token limit. " +:+
          "Try increasing 'Max Tokens' in the LLM Generation Settings (recommended: 1024-2048).")
  else if existsb (fun r => str_in r (upper finish_reason_str)) ["SAFETY"; "BLOCKED"]
  then RuntimeError
         ("Content blocked by Gemini safety filters. " +:+
          "Try adjusting your safety settings to 'Block None' or 'Block Few' in the app settings.")
  else RuntimeError
         ("Gemini returned an empty or invalid response. " +:+
          "Finish reasons: " +:+ finish_reason_str).

Section Client.

(** The environment and the client library: whether a call raises, and what
    the remote model answers. *)
Variable env_GEMINI_MODEL : option string.
Variable configure : string -> option exn.
Variable GenerativeModel :
  string -> gmap string Q -> gmap HarmCategory HarmBlockThreshold -> option exn.
Variable generate_content :
  string -> gmap string Q -> gmap HarmCategory HarmBlockThreshold ->
  string -> exn + Response.
Variable count_tokens : string -> string -> option exn.

(** What the module-level [DEFAULT_SAFETY_SETTINGS] holds at the call. *)
Variable default_safety : gmap HarmCategory HarmBlockThreshold.

(** [safety_settings or DEFAULT_SAFETY_SETTINGS] *)
Definition effective_safety_of
    (safety_settings : option (gmap HarmCategory HarmBlockThreshold))
    : gmap HarmCategory HarmBlockThreshold :=
  match safety_settings with
  | None => default_safety
  | Some d => if decide (d = ∅) then default_safety else d
  end.

Definition validate_google_api_key (api_key : option string)
    (generation_config : option (gmap string (option Q)))
    (safety_settings : option (gmap HarmCategory HarmBlockThreshold)) : M unit :=
  match api_key with
  | None =>
      raise (ValueError "GOOGLE_API_KEY missing. Provide it via .env before generating questions.")
  | Some key =>
      if negb (truthy key) || negb (truthy (strip key))
      then raise (ValueError "GOOGLE_API_KEY missing. Provide it via .env before generating questions.")
      else
        try_except
          (let* _ := call (EvConfigure key) (raises (configure key)) in
           let effective_config := _merge_generation_config generation_config in
           let effective_safety := effective_safety_of safety_settings in
           let model_name := GEMINI_MODEL env_GEMINI_MODEL in
           let* _ := call (EvGenerativeModel model_name effective_config effective_safety)
                       (raises (GenerativeModel model_name effective_config effective_safety)) in
           call (EvCountTokens "ping") (raises (count_tokens key "ping")))
          (fun exc =>
             raise (RuntimeError ("GOOGLE_API_KEY validation failed: " +:+ exn_message exc)))
  end.

Definition generate_question (role company round_type difficulty : string)
    (previous_questions : option (list string))
    (api_key : option string)
    (generation_config : option (gmap string (option Q)))
    (safety_settings : option (gmap HarmCategory HarmBlockThreshold))
    (prompt_strategy : string) : M string :=
  if negb (api_key_truthy api_key)
  then raise (ValueError "GOOGLE_API_KEY missing. Please provide it via the .env file or settings.")
  else
    let key := default EmptyString api_key in
    try_except
      (let* _ := call (EvConfigure key) (raises (configure key)) in
       let effective_config := _merge_generation_config generation_config in
       let effective_safety := effective_safety_of safety_settings in
       let model_name := GEMINI_MODEL env_GEMINI_MODEL in
       let* _ := call (EvGenerativeModel model_name effective_config effective_safety)
                   (raises (GenerativeModel model_name effective_config effective_safety)) in
       let* prompt := lift (get_prompt_by_strategy prompt_strategy role company
                              round_type difficulty previous_questions) in
       let* response := call (EvGenerateContent prompt)
                          (generate_content key effective_config effective_safety prompt) in
       let question := _extract_text_from_response (Some response) in
       if truthy question
       then ret (clean_question question)
       else raise (empty_response_error response))
      (fun exc =>
         raise (RuntimeError ("Gemini question generation failed: " +:+ exn_message exc))).

End Client.

End LlmUtils.

(** ** The session store *)

Module Session.

Import LlmUtils.

(** The Python values the pages keep in [st.session_state].  A safety
    dictionary is held by reference (it is mutated in place and may be
    shared); the other dictionaries are never aliased and are held by
    value. *)
Inductive value : Type :=
| VNone
| VBool (b : bool)
| VInt (n : Z)
| VStr (s : string)
| VStrList (l : list string)
| VAnswers (m : gmap Z string)
| VTimers (m : gmap Z Q)
| VLocked (m : gmap Z bool)
| VGenConfig (m : gmap string Q)
| VDictRef (l : nat).

(** [bool(v)]; a dictionary held by reference is read through the heap, its
    handle counts as true here. *)
Definition py_bool (v : value) : bool :=
  match v with
  | VNone => false
  | VBool b => b
  | VInt n => negb (n =? 0)%Z
  | VStr s => truthy s
  | VStrList l => match l with [] => false | _ :: _ => true end
  | VAnswers m => negb (bool_decide (m = ∅))
  | VTimers m => negb (bool_decide (m = ∅))
  | VLocked m => negb (bool_decide (m = ∅))
  | VGenConfig m => negb (bool_decide (m = ∅))
  | VDictRef _ => true
  end.

(** [st.session_state.get(key, default)] *)
Definition get (store : gmap string value) (key : string) (dflt : value) : value :=
  default dflt (store !! key).

(** [st.session_state.pop(key, None)], the popped value dropped. *)
Definition pop (key : string) (store : gmap string value) : gmap string value :=
  delete key store.

End Session.

(** ** practice_app.py and ui_components.py *)

Module PracticeApp.

Import LlmUtils Session.

(** [f"answer_input_{idx}"], the key the answer text area is bound to
    ([display_response_area] and [practice_session]). *)
Definition widget_key (idx : Z) : string := "answer_input_" +:+ pretty idx.

Definition is_coding_round (round_type : string) : bool :=
  String.eqb (lower round_type) "coding".

(** *** Per-question time budget *)

Definition per_question_seconds_map : gmap string Z :=
  <["professional" := (5 * 60)%Z]> (<["beginner" := (3 * 60)%Z]> ∅).

Definition per_question_seconds (round_type difficulty : string) : Z :=
  let round_key := lower round_type in
  let difficulty_key := lower difficulty in
  if String.eqb round_key "coding" then (15 * 60)%Z
  else default (5 * 60)%Z (per_question_seconds_map !! difficulty_key).

(** [int(x)] on a number: rounding towards zero. *)
Definition py_int (x : Q) : Z :=
  if Qle_bool 0%Q x then Qfloor x else Qceiling x.

Record timer_view : Type := {
  question_timers : gmap Z Q;
  question_locked : gmap Z bool;
  elapsed : Z;
  remaining : Z
}.

(** The timer part of the answering branch of [practice_session].  The clock
    is read twice: [now_start] when the question has no start time yet,
    [now] for the elapsed time. *)
Definition answering_timer (now_start now : Q) (per_question_seconds : Z)
    (current_index : Z) (timers : gmap Z Q) (locked : gmap Z bool) : timer_view :=
  let timers :=
    match timers !! current_index with
    | Some _ => timers
    | None => <[current_index := now_start]> timers
    end in
  let question_start_time := default now_start (timers !! current_index) in
  let elapsed := Z.max 0 (py_int (now - question_start_time)%Q) in
  let elapsed := Z.min elapsed per_question_seconds in
  let remaining := (per_question_seconds - elapsed)%Z in
  {| question_timers := timers;
     question_locked :=
       if (remaining =? 0)%Z then <[current_index := true]> locked else locked;
     elapsed := elapsed;
     remaining := remaining |}.

(** *** Overall feedback of the finished state *)

Definition feedback_completed : string :=
  "‚úÖ You completed all the interview questions!".
Definition feedback_more_detail : string :=
  "üîß Consider providing more detailed answers with specific examples.".

Definition software_engineer_tips : list string :=
  [ "üíª Great job on the technical questions!";
    "üí° Consider discussing your problem-solving process in more detail.";
    "üìö Keep practicing coding challenges to improve your speed and accuracy." ].

Definition data_scientist_tips : list string :=
  [ "üìä Good work on the data analysis questions!";
    "üß† Consider discussing more about your approach to data cleaning and feature engineering.";
    "üìà Practice explaining complex statistical concepts in simple terms." ].

Definition product_manager_tips : list string :=
  [ "üéØ Good job on the product thinking questions!";
    "ü§ù Consider discussing more about stakeholder management.";
    "üìù Practice creating clear and concise product requirements." ].

Definition generic_tips : list string :=
  [ "üòé You're doing great!";
    "üìö Keep practicing to improve your interview skills." ].

Definition role_specific : gmap string (list string) :=
  <["product manager" := product_manager_tips]>
    (<["data scientist" := data_scientist_tips]>
       (<["software engineer" := software_engineer_tips]> ∅)).

(** [sum(response_lengths) / len(response_lengths) if response_lengths else 0] *)
Definition avg_response_length (response_lengths : list nat) : Q :=
  match response_lengths with
  | [] => 0%Q
  | _ :: _ =>
      (inject_Z (Z.of_nat (foldr Nat.add 0%nat response_lengths))
       / inject_Z (Z.of_nat (length response_lengths)))%Q
  end.

(** The [feedback] list of the finished state; [query_role] is the [role]
    query parameter, if any. *)
Definition overall_feedback (query_role : option string)
    (questions : list string) (answers : gmap Z string) : list string :=
  let role := lower (default "Software Engineer" query_role) in
  let response_lengths :=
    map (fun i => String.length (default EmptyString (answers !! Z.of_nat i)))
      (seq 0 (length questions)) in
  let feedback := [feedback_completed] in
  let feedback :=
    if negb (Qle_bool 100%Q (avg_response_length response_lengths))
    then feedback ++ [feedback_more_detail] else feedback in
  feedback ++ default generic_tips (role_specific !! role).

(** The tips [role_specific.get(role, ...)] appends. *)
Definition role_tips (query_role : option string) : list string :=
  default generic_tips
    (role_specific !! lower (default "Software Engineer" query_role)).

(** *** Start New Interview *)

Definition start_new_interview_keys : list string :=
  [ "paused";
    "finished";
    "questions";
    "current_question_index";
    "question_timers";
    "question_locked";
    "audio_mode_enabled";
    "audio_checkbox" ]
  ++ map (fun i : nat => "answer_" +:+ pretty i) (seq 0 10).

(** The handler of the button: every key of the list is popped. *)
Definition start_new_interview (store : gmap string value) : gmap string value :=
  foldl (fun st key => pop key st) store start_new_interview_keys.

(** The handler of "Back to Setup": [st.session_state.clear()]. *)
Definition back_to_setup (store : gmap string value) : gmap string value := ∅.

(** *** Audio mode *)

(** Initialisation of the [audio_checkbox] key at the top of
    [practice_session]. *)
Definition init_audio_checkbox (round_type : string)
    (store : gmap string value) : gmap string value :=
  match store !! "audio_checkbox" with
  | Some _ => store
  | None =>
      let default_audio := get store "audio_mode_enabled" VNone in
      let default_audio :=
        match default_audio with
        | VNone => VBool (if is_coding_round round_type then false else true)
        | v => v
        end in
      <["audio_checkbox" := VBool (py_bool default_audio)]> store
  end.

Inductive audio_panel : Type :=
| PanelRendered
| PanelLockedNotice
| PanelAbsent.

Record audio_view : Type := {
  audio_mode : value;
  audio_enabled : bool;
  audio_only_mode : bool;
  response_hidden : bool;
  panel : audio_panel;
  audio_mode_notice : bool
}.

(** The audio part of the answering branch: the three flags, whether the
    text area is hidden, and what is shown for the capture panel. *)
Definition answering_audio (round_type : string) (current_locked : bool)
    (store : gmap string value) : audio_view :=
  let audio_mode :=
    get store "audio_mode_enabled" (get store "audio_checkbox" (VBool false)) in
  let coding := is_coding_round round_type in
  let audio_mode := if coding then VBool false else audio_mode in
  let audio_enabled :=
    if coding then false
    else py_bool (get store "audio_mode_enabled"
                    (get store "audio_checkbox" (VBool true))) in
  let audio_only_mode := if coding then false else audio_enabled in
  {| audio_mode := audio_mode;
     audio_enabled := audio_enabled;
     audio_only_mode := audio_only_mode;
     response_hidden := py_bool audio_mode && negb current_locked && negb coding;
     panel :=
       if negb coding && audio_enabled && negb current_locked then PanelRendered
       else if negb coding && audio_enabled && current_locked then PanelLockedNotice
       else PanelAbsent;
     audio_mode_notice := negb coding && audio_only_mode && negb current_locked |}.

End PracticeApp.

(** ** streamlit_app.py: the setup page *)

Module StreamlitApp.

Import LlmUtils Session.

(** *** Audio setting *)

(** The "Practice Settings" block.  A checkbox bound to a key gives the value
    the store holds under that key, or its [value] argument when the key is
    new, and leaves that value under the key. *)
Definition setup_audio (store : gmap string value) : gmap string value :=
  let selected_round := get store "round_radio" (VStr "Warm Up") in
  match selected_round with
  | VStr "Coding" =>
      <["audio_mode_enabled" := VBool false]>
        (<["audio_checkbox" := VBool false]> store)
  | _ =>
      let current_audio_pref := get store "audio_checkbox" (VBool true) in
      let audio_pref := py_bool current_audio_pref in
      <["audio_mode_enabled" := VBool audio_pref]>
        (<["audio_checkbox" := VBool audio_pref]> store)
  end.

(** *** Safety settings

    One Python process serves every browser session.  The process holds the
    safety dictionaries in a heap; address [DEFAULT_SAFETY_SETTINGS_loc] is
    the module-level [DEFAULT_SAFETY_SETTINGS] of [llm_utils].  Each session
    has its own [st.session_state]. *)

Definition DEFAULT_SAFETY_SETTINGS_loc : nat := 0.

Record process : Type := {
  heap : gmap nat (gmap HarmCategory HarmBlockThreshold);
  sessions : gmap nat (gmap string value)
}.

(** The process after the modules are loaded, before any session. *)
Definition process_start : process :=
  {| heap := {[ DEFAULT_SAFETY_SETTINGS_loc := DEFAULT_SAFETY_SETTINGS ]};
     sessions := ∅ |}.

Inductive threshold_label : Type :=
| Block_None
| Block_Few
| Block_Some
| Block_Most.

(** The [safety_thresholds] dictionary of the page. *)
Definition safety_thresholds (label : threshold_label) : HarmBlockThreshold :=
  match label with
  | Block_None => BLOCK_NONE
  | Block_Few => BLOCK_ONLY_HIGH
  | Block_Some => BLOCK_MEDIUM_AND_ABOVE
  | Block_Most => BLOCK_LOW_AND_ABOVE
  end.

(** The [safety_categories] dictionary of the page, in its order. *)
Definition safety_categories : list (string * HarmCategory) :=
  [ ("Harassment", HARM_CATEGORY_HARASSMENT);
    ("Hate Speech", HARM_CATEGORY_HATE_SPEECH);
    ("Sexually Explicit", HARM_CATEGORY_SEXUALLY_EXPLICIT);
    ("Dangerous Content", HARM_CATEGORY_DANGEROUS_CONTENT) ].

(** [d[category] = threshold] on the dictionary at address [l]. *)
Definition dict_store (l : nat) (category : HarmCategory)
    (threshold : HarmBlockThreshold)
    (h : gmap nat (gmap HarmCategory HarmBlockThreshold))
    : gmap nat (gmap HarmCategory HarmBlockThreshold) :=
  alter (fun d => <[category := threshold]> d) l h.

(** The "Content Safety Settings" block of the setup page, run for session
    [sid]; [selection] gives what each select box shows.  The session's key
    is bound to the module-level dictionary itself, and the loop then writes
    through that binding.  (The application stores nothing but a dictionary
    under the key; for any other value the heap is left as it is.) *)
Definition setup_safety (sid : nat) (selection : string -> threshold_label)
    (w : process) : process :=
  let store := default ∅ (sessions w !! sid) in
  let store :=
    match store !! "safety_settings" with
    | Some _ => store
    | None => <["safety_settings" := VDictRef DEFAULT_SAFETY_SETTINGS_loc]> store
    end in
  match store !! "safety_settings" with
  | Some (VDictRef l) =>
      {| heap :=
           foldl (fun h '(category_name, category) =>
                    dict_store l category (safety_thresholds (selection category_name)) h)
             (heap w) safety_categories;
         sessions := <[sid := store]> (sessions w) |}
  | _ => {| heap := heap w; sessions := <[sid := store]> (sessions w) |}
  end.

(** The initialisation of the same key by [practice_session]
    ([DEFAULT_SAFETY_SETTINGS.copy()]): a new dictionary is allocated. *)
Definition practice_init_safety (sid : nat) (w : process) : process :=
  let store := default ∅ (sessions w !! sid) in
  match store !! "safety_settings" with
  | Some _ => w
  | None =>
      let l := fresh (dom (heap w)) in
      {| heap :=
           <[l := default ∅ (heap w !! DEFAULT_SAFETY_SETTINGS_loc)]> (heap w);
         sessions := <[sid := <["safety_settings" := VDictRef l]> store]> (sessions w) |}
  end.

(** The module-level default as the process holds it now. *)
Definition module_default (w : process) : gmap HarmCategory HarmBlockThreshold :=
  default ∅ (heap w !! DEFAULT_SAFETY_SETTINGS_loc).

(** [st.session_state.safety_settings] of a session, read through the heap. *)
Definition session_safety (sid : nat) (w : process)
    : option (gmap HarmCategory HarmBlockThreshold) :=
  match default ∅ (sessions w !! sid) !! "safety_settings" with
  | Some (VDictRef l) => heap w !! l
  | _ => None
  end.

(** The safety configuration [generate_question] uses for a session:
    [safety_settings or DEFAULT_SAFETY_SETTINGS]. *)
Definition session_effective_safety (sid : nat) (w : process)
    : gmap HarmCategory HarmBlockThreshold :=
  effective_safety_of (module_default w) (session_safety sid w).

End StreamlitApp.

(** ** Scenarios

    Concrete responses, stores, clients and runs the properties below are
    evaluated on. *)

Module Scenarios.

Import LlmUtils Session PracticeApp StreamlitApp.

(** A response whose accessor raises and whose one candidate holds the text
    "What is X?". *)
Definition response_with_candidate_text : Response :=
  {| text := TextRaises;
     candidates :=
       [ {| content := Some {| parts := ["What is X?"]; role := "model" |};
            finish_reason := Some "STOP";
            safety_ratings := [] |} ] |}.

(** A client whose calls never raise and whose model answers every prompt
    with the text "Question: What is X?". *)
Definition configure_ok : string -> option exn := fun _ => None.

Definition model_ok :
  string -> gmap string Q -> gmap HarmCategory HarmBlockThreshold -> option exn :=
  fun _ _ _ => None.

Definition tokens_ok : string -> string -> option exn := fun _ _ => None.

Definition labelled_answer :
  string -> gmap string Q -> gmap HarmCategory HarmBlockThreshold -> string ->
  exn + Response :=
  fun _ _ _ _ =>
    inr {| text := TextValue (Some "Question: What is X?"); candidates := [] |}.

(** A store at the end of an interview of one question, answered. *)
Definition finished_store : gmap string value :=
  <["answer_input_0" := VStr "I would use a hash map."]>
    (<["answers" := VAnswers {[ 0%Z := "I would use a hash map." ]}]>
       (<["finished" := VBool true]>
          (<["current_question_index" := VInt 0]>
             (<["questions" := VStrList ["How do you find duplicates in a list?"]]> ∅)))).

(** Every select box at its initial "Block Some". *)
Definition initial_selection : string -> threshold_label := fun _ => Block_Some.

(** The user picks "Block None" for Harassment. *)
Definition relaxed_selection : string -> threshold_label :=
  fun category_name =>
    if String.eqb category_name "Harassment" then Block_None else Block_Some.

(** Sessions 1 and 2 open the setup page; then session 1 changes a
    threshold. *)
Definition both_on_setup : process :=
  setup_safety 2 initial_selection (setup_safety 1 initial_selection process_start).

Definition after_change : process :=
  setup_safety 1 relaxed_selection both_on_setup.

End Scenarios.

(** * Further parts of the sources *)

(** ** practice_app.py: loading the questions, navigation, the finished
       state *)

Module PracticeFlow.

Import PromptStrategies LlmUtils Session PracticeApp.

(** [st.session_state.get('google_api_key') or os.getenv('GOOGLE_API_KEY')],
    both given as a string or [None]. *)
Definition resolve_api_key (session_key env_key : option string) : option string :=
  if str_or_none_truthy session_key then session_key else env_key.

(** What the page shows: [st.error] and [st.info]. *)
Inductive ui_message : Type :=
| StError (msg : string)
| StInfo (msg : string).

Section Loading.

(** The client library; the [i]-th call of [generate_question] may meet
    another behaviour of the library and of the remote model than the one
    before. *)
Variable env_GEMINI_MODEL : option string.
Variable configure : nat -> string -> option exn.
Variable GenerativeModel :
  nat -> string -> gmap string Q -> gmap HarmCategory HarmBlockThreshold ->
  option exn.
Variable generate_content :
  nat -> string -> gmap string Q -> gmap HarmCategory HarmBlockThreshold ->
  string -> exn + Response.
Variable default_safety : gmap HarmCategory HarmBlockThreshold.

Variables role company round_type difficulty : string.
Variable api_key : option string.
Variable generation_config : option (gmap string (option Q)).
Variable safety_settings : option (gmap HarmCategory HarmBlockThreshold).
Variable prompt_strategy : string.

(** The loop [for i in range(5)], with its local list [questions]; [n] is
    the number of rounds left and [i] the index of the next one. *)
Fixpoint generate_questions (n i : nat) (questions : list string) : M (list string) :=
  match n with
  | O => ret questions
  | S n' =>
      let* question :=
        generate_question env_GEMINI_MODEL (configure i) (GenerativeModel i)
          (generate_content i) default_safety role company round_type difficulty
          (Some questions) api_key generation_config safety_settings
          prompt_strategy in
      generate_questions n' (S i) (questions ++ [question])
  end.

Record loading_result : Type := {
  loaded_store : gmap string value;
  shown : list ui_message;
  library_calls : list event
}.

(** The body of [if not st.session_state.questions:], up to [st.rerun()] or
    [st.stop()].  The progress notes of the loading placeholder are emptied
    before either and are left out. *)
Definition load_questions (store : gmap string value) : loading_result :=
  let '(calls, result) := generate_questions 5 0 [] in
  match result with
  | inr questions =>
      {| loaded_store := <["questions" := VStrList questions]> store;
         shown := [];
         library_calls := calls |}
  | inl (ValueError e) =>
      {| loaded_store := <["questions" := VStrList []]> store;
         shown :=
           [ StError ("‚ùå Content safety violation: " +:+ e);
             StInfo "Please adjust your safety settings or try again." ];
         library_calls := calls |}
  | inl e =>
      let error_msg := lower (exn_message e) in
      {| loaded_store := <["questions" := VStrList []]> store;
         shown :=
           if str_in "api key" error_msg || str_in "api_key" error_msg
              || str_in "finish reasons: 3" error_msg
           then [ StError "‚ùå API Error: Invalid or missing Google API key";
                  StInfo "Please check your API key in the settings and try again." ]
           else [ StError ("‚ùå An error occurred while generating questions: " +:+ exn_message e) ];
         library_calls := calls |}
  end.

End Loading.

(** [questions[index]]: a negative index counts from the end, and an index
    out of range raises [IndexError] ([None] here). *)
Definition list_index (questions : list string) (index : Z) : option string :=
  let n := Z.of_nat (length questions) in
  if (0 <=? index)%Z then questions !! Z.to_nat index
  else if (- n <=? index)%Z then questions !! Z.to_nat (n + index)
  else None.

(** The snapshot of the finished state: for every question the text of its
    answer widget if the widget key is bound, and otherwise the stored
    answer or the empty string; then [answers.update(snapshot_answers)]. *)
Definition snapshot_answers (store : gmap string value) (total_questions : nat)
    (answers : gmap Z value) : gmap Z value :=
  let snapshot :=
    foldl (fun (snap : gmap Z value) (idx : nat) =>
             <[Z.of_nat idx :=
                 match store !! widget_key (Z.of_nat idx) with
                 | Some v => v
                 | None => default (VStr EmptyString) (answers !! Z.of_nat idx)
                 end]> snap)
      ∅ (seq 0 total_questions) in
  snapshot ∪ answers.

(** The four buttons of [display_navigation_buttons]. *)
Inductive button : Type :=
| Previous
| Next
| New_Question
| Finish_Interview.

(** Whether a button is on the page and enabled for the given position. *)
Definition button_enabled (current_index total_questions : Z) (b : button) : bool :=
  match b with
  | Previous => negb (current_index =? 0)%Z
  | Next => negb (total_questions - 1 <=? current_index)%Z
  | New_Question => (current_index <? total_questions - 1)%Z
  | Finish_Interview => negb (current_index <? total_questions - 1)%Z
  end.

(** [display_navigation_buttons]: the four results, for the button the user
    pressed in this run, if any.  A button that is disabled or not on the
    page gives [False]. *)
Definition display_navigation_buttons (current_index total_questions : Z)
    (pressed : option button) : bool * bool * bool * bool :=
  let clicked b :=
    match pressed with
    | Some b' =>
        match b, b' with
        | Previous, Previous | Next, Next | New_Question, New_Question
        | Finish_Interview, Finish_Interview =>
            button_enabled current_index total_questions b
        | _, _ => false
        end
    | None => false
    end in
  (clicked Previous, clicked Next, clicked New_Question, clicked Finish_Interview).

(** The button actions at the end of [practice_session]; [current_index] is
    what the store holds under [current_question_index]. *)
Definition handle_buttons (current_index total_questions : Z)
    (pressed : option button) (store : gmap string value) : gmap string value :=
  let '(prev_clicked, next_clicked, new_question_clicked, finish_clicked) :=
    display_navigation_buttons current_index total_questions pressed in
  if prev_clicked
  then <["current_question_index" := VInt (current_index - 1)]> store
  else if next_clicked
  then <["current_question_index" := VInt (current_index + 1)]> store
  else if finish_clicked
  then <["audio_checkbox" := VBool false]>
         (<["audio_mode_enabled" := VBool false]>
            (<["finished" := VBool true]> store))
  else store.

(** The index the next run works with. *)
Definition next_index (current_index total_questions : Z)
    (pressed : option button) : Z :=
  let '(prev_clicked, next_clicked, _, _) :=
    display_navigation_buttons current_index total_questions pressed in
  if prev_clicked then (current_index - 1)%Z
  else if next_clicked then (current_index + 1)%Z
  else current_index.

(** The initialisation of the missing keys at the top of [practice_session];
    [copy_loc] is the address of the fresh copy of the default safety
    dictionary. *)
Definition required_state (copy_loc : nat) (store : gmap string value)
    : list (string * value) :=
  [ ("questions", VStrList []);
    ("current_question_index", VInt 0);
    ("answers", VAnswers ∅);
    ("question_timers", VTimers ∅);
    ("question_locked", VLocked ∅);
    ("safety_settings", VDictRef copy_loc);
    ("generation_config", VGenConfig DEFAULT_GENERATION_CONFIG);
    ("initialized", VBool true);
    ("google_api_key", get store "google_api_key" (VStr EmptyString));
    ("prompt_strategy", get store "prompt_strategy" (VStr "chain_of_thought")) ].

Definition init_session_state (copy_loc : nat) (store : gmap string value)
    : gmap string value :=
  foldl (fun st '(key, default_value) =>
           match st !! key with
           | Some _ => st
           | None => <[key := default_value]> st
           end)
    store (required_state copy_loc store).

End PracticeFlow.

(** ** ui_components.py *)

Module UiComponents.

Import Session PracticeApp.

Definition get_response_aria_label (question_index : Z) : string :=
  "Answer for question " +:+ pretty (question_index + 1)%Z.

(** [f"response-area-{index}"] of [practice_session]. *)
Definition response_container_id (question_index : Z) : string :=
  "response-area-" +:+ pretty question_index.

(** The expanders of [display_interview_summary]: label and body. *)
Definition summary_entries (questions : list string) (answers : gmap Z string)
    : list (string * string) :=
  imap (fun i question =>
          let answer := default EmptyString (answers !! Z.of_nat i) in
          ("Question " +:+ pretty (i + 1)%nat +:+ ": " +:+ question,
           if truthy answer then "**Your Answer:**" +:+ nl +:+ answer
           else "**No response provided**"))
    questions.

(** One block of the downloadable transcript. *)
Definition download_block (answers : gmap Z string) (i : nat) (q : string) : string :=
  "Question " +:+ pretty (i + 1)%nat +:+ ": " +:+ q +:+ nl +:+
  "Answer: " +:+ default "No response" (answers !! Z.of_nat i).

(** The [data] of the download button. *)
Definition download_data (questions : list string) (answers : gmap Z string) : string :=
  join (nl +:+ nl) (imap (download_block answers) questions).

End UiComponents.

(** ** interview_flow.py *)

Module InterviewFlow.

Import Session.

(** [str(v)] for the values a query parameter is made of; the text of a list
    or dictionary is not modelled. *)
Definition py_str (v : value) : option string :=
  match v with
  | VNone => Some "None"
  | VBool true => Some "True"
  | VBool false => Some "False"
  | VInt n => Some (pretty n)
  | VStr s => Some s
  | _ => None
  end.

(** [handle_practice_navigation] either reruns the script, with the store
    and the query parameters it leaves, or returns its result. *)
Inductive navigation : Type :=
| Rerun (store : gmap string value) (query : gmap string string)
| Returned (practice_mode_active : bool).

Definition handle_practice_navigation (store : gmap string value)
    (query : gmap string string) : option navigation :=
  if py_bool (get store "start_practice" (VBool false)) then
    selected_round ← py_str (get store "round_radio" (VStr "Coding"));
    selected_difficulty ← py_str (get store "difficulty_radio" (VStr "Professional"));
    role ← py_str (get store "role" (VStr "Software Engineer"));
    company ← py_str (get store "company" (VStr EmptyString));
    Some (Rerun (<["start_practice" := VBool false]> store)
            (<["company" := company]>
               (<["role" := role]>
                  (<["difficulty" := selected_difficulty]>
                     (<["round" := selected_round]>
                        (<["page" := "practice"]> query))))))
  else
    Some (Returned
            (match query !! "page" with
             | Some page => String.eqb page "practice"
             | None => false
             end)).

(** The four parameters [practice_session] reads from the query, with its
    defaults: role, company, round type, difficulty. *)
Definition practice_params (query : gmap string string)
    : string * string * string * string :=
  (default "Software Engineer" (query !! "role"),
   default "a tech company" (query !! "company"),
   default "Coding" (query !! "round"),
   default "Professional" (query !! "difficulty")).

End InterviewFlow.

(** ** streamlit_app.py: the API key, the rounds, the start button *)

Module SetupPage.

Import PromptStrategies LlmUtils Session.










(** [{strategies[key]["name"]: key for key in strategies.keys()}]: a later
    entry of the same name replaces the value of the earlier one. *)
Fixpoint dict_set (k v : string) (d : list (string * string)) : list (string * string) :=
  match d with
  | [] => [(k, v)]
  | (k', v') :: rest =>
      if String.eqb k k' then (k', v) :: rest else (k', v') :: dict_set k v rest
  end.

Definition strategy_options : list (string * string) :=
  foldl (fun d '(key, info) => dict_set (name info) key d) []
    get_available_strategies.

(** [l.index(x)]; [ValueError] when [x] is not in the list. *)
Fixpoint list_index_of (x : string) (l : list string) : exn + nat :=
  match l with
  | [] => inl (ValueError ("'" +:+ x +:+ "' is not in list"))
  | y :: rest =>
      if String.eqb y x then inr 0%nat
      else match list_index_of x rest with
           | inl e => inl e
           | inr i => inr (S i)
           end
  end.

(** The name the strategy select box shows for the stored strategy. *)
Definition strategy_selectbox_default (prompt_strategy : string) : exn + option string :=
  match list_index_of prompt_strategy (map snd strategy_options) with
  | inl e => inl e
  | inr index => inr (map fst strategy_options !! index)
  end.

(** [strategy_options[selected_strategy_name]] *)
Fixpoint strategy_of_name (selected_strategy_name : string)
    (options : list (string * string)) : option string :=
  match options with
  | [] => None
  | (n, key) :: rest =>
      if String.eqb selected_strategy_name n then Some key
      else strategy_of_name selected_strategy_name rest
  end.

Section KeyAndStart.

Variable env_GEMINI_MODEL : option string.
Variable configure : string -> option exn.
Variable GenerativeModel :
  string -> gmap string Q -> gmap HarmCategory HarmBlockThreshold -> option exn.
Variable count_tokens : string -> string -> option exn.
Variable default_safety : gmap HarmCategory HarmBlockThreshold.

Record key_check : Type := {
  checked_store : gmap string value;
  api_key_after : option string;
  api_key_validation_error : option string;
  validation_calls : list event
}.

(** The block after [api_key = get_google_api_key()]: the key is validated
    unless it is the one validated before. *)
Definition check_api_key (api_key : option string)
    (generation_config : option (gmap string (option Q)))
    (safety_settings : option (gmap HarmCategory HarmBlockThreshold))
    (store : gmap string value) : key_check :=
  if str_or_none_truthy api_key then
    let key := default EmptyString api_key in
    let cached_key := get store "validated_api_key" VNone in
    let same := match cached_key with
                | VStr s => String.eqb s key
                | _ => false
                end in
    if same then
      {| checked_store := <["google_api_key" := VStr key]> store;
         api_key_after := Some key;
         api_key_validation_error := None;
         validation_calls := [] |}
    else
      match validate_google_api_key env_GEMINI_MODEL configure GenerativeModel
              count_tokens default_safety (Some key) generation_config
              safety_settings with
      | (calls, inr _) =>
          {| checked_store :=
               <["google_api_key" := VStr key]>
                 (<["validated_api_key" := VStr key]> store);
             api_key_after := Some key;
             api_key_validation_error := None;
             validation_calls := calls |}
      | (calls, inl exc) =>
          {| checked_store := store;
             api_key_after := None;
             api_key_validation_error := Some (exn_message exc);
             validation_calls := calls |}
      end
  else
    {| checked_store := store;
       api_key_after := api_key;
       api_key_validation_error := None;
       validation_calls := [] |}.

(** The handling of the START PRACTICE button on the setup page: the
    warnings, and the store, where [start_practice] is set when the practice
    may start. *)
Definition start_practice_clicked (role : string) (k : key_check)
    : list string * gmap string value :=
  let role_provided := truthy (strip role) in
  let api_key_available := str_or_none_truthy (api_key_after k) in
  let warning_messages :=
    (if negb role_provided
     then ["Enter a position title before starting your practice session."]
     else [])
    ++ (if role_provided && negb api_key_available
        then ["Add a valid GOOGLE_API_KEY to .env and restart before generating questions."]
        else [])
    ++ (if role_provided && str_or_none_truthy (api_key_validation_error k)
        then ["Your Google API key appears invalid. Update it in .env and restart before generating questions."]
        else []) in
  (warning_messages,
   if role_provided && api_key_available
   then <["start_practice" := VBool true]> (checked_store k)
   else checked_store k).

End KeyAndStart.

End SetupPage.

(** ** message_roles_demo.py *)

Module MessageRoles.

(** A message is a dictionary from strings to strings. *)
Definition openai_style_messages (system_prompt user_message : string)
    (conversation_history : option (list (gmap string string)))
    : list (gmap string string) :=
  [ <["content" := system_prompt]> {[ "role" := "system" ]} ]
  ++ default [] conversation_history
  ++ [ <["content" := user_message]> {[ "role" := "user" ]} ].

(** A message of the chat history in the other format: a role and parts. *)
Record gemini_message : Type := {
  gemini_role : string;
  gemini_parts : list string
}.

(** [msg[key]]; [KeyError] when the key is missing. *)
Definition msg_get (msg : gmap string string) (key : string) : exn + string :=
  match msg !! key with
  | Some v => inr v
  | None => inl (OtherError ("'" +:+ key +:+ "'"))
  end.

(** The loop over the conversation history. *)
Fixpoint convert_history (history : list (gmap string string))
    : exn + list gemini_message :=
  match history with
  | [] => inr []
  | msg :: rest =>
      match msg_get msg "role" with
      | inl e => inl e
      | inr r =>
          match msg_get msg "content" with
          | inl e => inl e
          | inr c =>
              match convert_history rest with
              | inl e => inl e
              | inr converted =>
                  inr ({| gemini_role := if String.eqb r "user" then "user" else "model";
                          gemini_parts := [c] |} :: converted)
              end
          end
      end
  end.

Definition gemini_style_conversion (system_prompt user_message : string)
    (conversation_history : option (list (gmap string string)))
    : exn + (string * list gemini_message) :=
  match convert_history (default [] conversation_history) with
  | inl e => inl e
  | inr chat_history =>
      inr (system_prompt,
           chat_history ++ [ {| gemini_role := "user"; gemini_parts := [user_message] |} ])
  end.

End MessageRoles.

(** ** Shapes the statements below speak of *)

(** A text "has no leading blank": it is empty or starts with a character
    that is not white space. *)
Definition no_leading_blank (s : string) : bool :=
  match s with
  | EmptyString => true
  | String c _ => negb (PyStr.isspace c)
  end.

(** A question as the practice page shows it: it ends with a question mark
    and has no white space around it. *)
Definition well_formed_question (q : string) : Prop :=
  PyStr.endswith q "?" = true /\ PyStr.strip q = q.

(** The value a list of (key, default) pairs gives a key: that of its first
    pair with this key, as a sequence of [setdefault]-like steps leaves it. *)
Fixpoint first_binding (key : string) (l : list (string * Session.value)) :
    option Session.value :=
  match l with
  | [] => None
  | (k, v) :: rest => if String.eqb key k then Some v else first_binding key rest
  end.

(** A message of a conversation history that has both keys the conversion
    reads. *)
Definition complete_message (msg : gmap string string) : Prop :=
  is_Some (msg !! "role") /\ is_Some (msg !! "content").

(** * Properties *)

(** ** Strings *)

Section StringFacts.

Lemma append_cons (c : ascii) (s t : string) :
  String c s +:+ t = String c (s +:+ t).
Proof. reflexivity. Qed.

Lemma append_nil_l (t : string) : "" +:+ t = t.
Proof. reflexivity. Qed.

Lemma append_nil_r (s : string) : s +:+ "" = s.
Proof.
  induction s as [|c s IH]; [done |]. by rewrite append_cons, IH.
Qed.

Lemma append_assoc (a b c : string) : (a +:+ b) +:+ c = a +:+ (b +:+ c).
Proof.
  induction a as [|x a IH]; [done |]. by rewrite !append_cons, IH.
Qed.

Lemma startswith_append (p s : string) : startswith (p +:+ s) p = true.
Proof.
  induction p as [|c p IH]; [by destruct s |].
  rewrite append_cons. simpl. by rewrite Ascii.eqb_refl, IH.
Qed.

Lemma startswith_inv (s p : string) :
  startswith s p = true -> exists rest, s = p +:+ rest.
Proof.
  revert s; induction p as [|c p IH]; intros s H.
  - by exists s.
  - destruct s as [|d s]; simpl in H; [done |].
    apply andb_true_iff in H as [Hc Hs].
    apply Ascii.eqb_eq in Hc as ->.
    destruct (IH _ Hs) as [rest ->]. by exists rest.
Qed.

Lemma str_in_unfold (x s : string) :
  str_in x s =
  startswith s x || match s with "" => false | String _ s' => str_in x s' end.
Proof. by destruct s. Qed.

Lemma str_in_here (x rest : string) : str_in x (x +:+ rest) = true.
Proof. by rewrite str_in_unfold, startswith_append. Qed.

Lemma str_in_self (x : string) : str_in x x = true.
Proof. rewrite <- (append_nil_r x) at 2. apply str_in_here. Qed.

Lemma str_in_skip (x a rest : string) :
  str_in x rest = true -> str_in x (a +:+ rest) = true.
Proof.
  intros H; induction a as [|c a IH]; [done |].
  rewrite append_cons, str_in_unfold, IH. apply orb_true_r.
Qed.

(** [str_in] is the substring relation. *)
Lemma str_in_iff (x s : string) :
  str_in x s = true <-> exists pre post, s = pre +:+ x +:+ post.
Proof.
  split.
  - induction s as [|c s IH]; rewrite str_in_unfold; intros H.
    + rewrite orb_false_r in H. apply startswith_inv in H as [rest ->].
      by exists "", rest.
    + apply orb_true_iff in H as [H | H].
      * apply startswith_inv in H as [rest ->]. by exists "", rest.
      * destruct (IH H) as (pre & post & ->). by exists (String c pre), post.
  - intros (pre & post & ->). apply str_in_skip, str_in_here.
Qed.

Lemma endswith_append (s p : string) : endswith (s +:+ p) p = true.
Proof.
  induction s as [|c s IH].
  - rewrite append_nil_l. destruct p; simpl; [done |].
    by rewrite Ascii.eqb_refl, String.eqb_refl.
  - rewrite append_cons. simpl. rewrite IH. apply orb_true_r.
Qed.

End StringFacts.

Example lower_Coding : lower "Coding" = "coding".
Proof. reflexivity. Qed.

Example upper_max_tokens : upper "FinishReason.max_tokens" = "FINISHREASON.MAX_TOKENS".
Proof. reflexivity. Qed.

Example strip_blanks :
  strip (String "009"%char "  What is X?  " +:+ nl) = "What is X?".
Proof. reflexivity. Qed.

Example strip_only_blanks : strip "   " = "".
Proof. reflexivity. Qed.

Example endswith_mark : endswith "What is X?" "?" = true /\ endswith "Explain Y" "?" = false.
Proof. by split. Qed.

Example join_keys : join ", " ["a"; "b"; "c"] = "a, b, c".
Proof. reflexivity. Qed.

(** ** Prompt strategies *)

Section PromptStrategyFacts.

Import PromptStrategies.

(** Finds a given piece in a right-nested concatenation. *)
Ltac find_piece :=
  cbv zeta; repeat first [ apply str_in_here | apply str_in_skip ].

Lemma zero_shot_prompt_mentions role company round_type difficulty previous_questions :
  let p := zero_shot_prompt role company round_type difficulty previous_questions in
  str_in role p = true /\ str_in round_type p = true /\ str_in difficulty p = true.
Proof. unfold zero_shot_prompt; repeat split; find_piece. Qed.

Lemma few_shot_prompt_mentions role company round_type difficulty previous_questions :
  let p := few_shot_prompt role company round_type difficulty previous_questions in
  str_in role p = true /\ str_in round_type p = true /\ str_in difficulty p = true.
Proof. unfold few_shot_prompt; repeat split; find_piece. Qed.

Lemma chain_of_thought_prompt_mentions role company round_type difficulty previous_questions :
  let p := chain_of_thought_prompt role company round_type difficulty previous_questions in
  str_in role p = true /\ str_in round_type p = true /\ str_in difficulty p = true.
Proof. unfold chain_of_thought_prompt; repeat split; find_piece. Qed.

Lemma role_based_prompt_mentions role company round_type difficulty previous_questions :
  let p := role_based_prompt role company round_type difficulty previous_questions in
  str_in role p = true /\ str_in round_type p = true /\ str_in difficulty p = true.
Proof. unfold role_based_prompt; repeat split; find_piece. Qed.

Lemma structured_output_prompt_mentions role company round_type difficulty previous_questions :
  let p := structured_output_prompt role company round_type difficulty previous_questions in
  str_in role p = true /\ str_in round_type p = true /\ str_in difficulty p = true.
Proof. unfold structured_output_prompt; repeat split; find_piece. Qed.

Lemma socratic_prompt_mentions role company round_type difficulty previous_questions :
  let p := socratic_prompt role company round_type difficulty previous_questions in
  str_in role p = true /\ str_in round_type p = true /\ str_in difficulty p = true.
Proof. unfold socratic_prompt; repeat split; find_piece. Qed.

Lemma strategy_keys_eq :
  strategy_keys =
  ["zero_shot"; "few_shot"; "chain_of_thought"; "role_based";
   "structured_output"; "socratic"].
Proof. reflexivity. Qed.

Lemma registry_lookup_None strategy (registry : list (string * strategy_info)) :
  registry_lookup strategy registry = None <-> ~ In strategy (map fst registry).
Proof.
  induction registry as [|[k info] rest IH]; simpl.
  - tauto.
  - destruct (String.eqb_spec strategy k) as [-> | Hne].
    + split; [done | intros H; destruct H; by left].
    + rewrite IH. split; [intros H [E | I]; [by subst | tauto] | tauto].
Qed.

Lemma registry_lookup_Some strategy (registry : list (string * strategy_info)) :
  In strategy (map fst registry) -> exists info, registry_lookup strategy registry = Some info.
Proof.
  intros H. destruct (registry_lookup strategy registry) eqn:E; [by eexists |].
  by apply registry_lookup_None in E.
Qed.

(** C6: an id outside the registry of six gives the "unknown strategy"
    [ValueError], whose message ends with the list of the six valid ids; a
    registered id never gives an error. *)
Theorem get_prompt_by_strategy_unknown
    (strategy role company round_type difficulty : string)
    (previous_questions : option (list string)) :
  let result :=
    get_prompt_by_strategy strategy role company round_type difficulty
      previous_questions in
  length strategy_keys = 6%nat /\
  (~ In strategy strategy_keys ->
   exists valid,
     result =
       inl (ValueError
              ("Unknown strategy '" +:+ strategy +:+ "'. Available strategies: " +:+ valid))
     /\ valid =
          "zero_shot, few_shot, chain_of_thought, role_based, structured_output, socratic"
     /\ Forall (fun key => str_in key valid = true) strategy_keys) /\
  (In strategy strategy_keys -> exists prompt, result = inr prompt).
Proof.
  cbv zeta. split; [reflexivity |]. split.
  - intros Hnot. exists (join ", " strategy_keys). split; [| split].
    + unfold get_prompt_by_strategy.
      apply registry_lookup_None in Hnot. rewrite Hnot. reflexivity.
    + reflexivity.
    + by vm_compute; repeat constructor.
  - intros Hin. unfold get_prompt_by_strategy.
    destruct (registry_lookup_Some _ _ Hin) as [info ->]. by eexists.
Qed.

Lemma get_prompt_by_strategy_unknown_witness :
  exists valid,
    get_prompt_by_strategy "unknown-strategy" "Software Engineer" "" "Coding"
      "Professional" None =
      inl (ValueError
             ("Unknown strategy '" +:+ "unknown-strategy" +:+ "'. Available strategies: " +:+ valid))
    /\ valid =
         "zero_shot, few_shot, chain_of_thought, role_based, structured_output, socratic"
    /\ Forall (fun key => str_in key valid = true) strategy_keys.
Proof.
  apply (get_prompt_by_strategy_unknown "unknown-strategy" "Software Engineer" ""
           "Coding" "Professional" None).
  simpl. intros H. repeat destruct H as [H | H]; try discriminate H. exact H.
Defined.

(** C7: for each of the six registered ids and any role, company, round type,
    difficulty and list of prior questions, the prompt is returned and holds
    the role, the round type and the difficulty verbatim; equal inputs give the
    same prompt. *)
Theorem get_prompt_by_strategy_mentions_inputs
    (strategy role company round_type difficulty : string)
    (previous_questions : option (list string)) :
  In strategy
    ["zero_shot"; "few_shot"; "chain_of_thought"; "role_based";
     "structured_output"; "socratic"] ->
  exists prompt,
    get_prompt_by_strategy strategy role company round_type difficulty
      previous_questions = inr prompt
    /\ str_in role prompt = true
    /\ str_in round_type prompt = true
    /\ str_in difficulty prompt = true
    /\ (forall strategy' role' company' round_type' difficulty' previous_questions',
          strategy' = strategy -> role' = role -> company' = company ->
          round_type' = round_type -> difficulty' = difficulty ->
          previous_questions' = previous_questions ->
          get_prompt_by_strategy strategy' role' company' round_type' difficulty'
            previous_questions' = inr prompt).
Proof.
  intros Hin. simpl in Hin.
  destruct Hin as [<- | [<- | [<- | [<- | [<- | [<- | []]]]]]].
  - exists (zero_shot_prompt role company round_type difficulty previous_questions).
    split; [reflexivity |].
    destruct (zero_shot_prompt_mentions role company round_type difficulty
                previous_questions) as (? & ? & ?).
    repeat split; try assumption. by intros; subst.
  - exists (few_shot_prompt role company round_type difficulty previous_questions).
    split; [reflexivity |].
    destruct (few_shot_prompt_mentions role company round_type difficulty
                previous_questions) as (? & ? & ?).
    repeat split; try assumption. by intros; subst.
  - exists (chain_of_thought_prompt role company round_type difficulty previous_questions).
    split; [reflexivity |].
    destruct (chain_of_thought_prompt_mentions role company round_type difficulty
                previous_questions) as (? & ? & ?).
    repeat split; try assumption. by intros; subst.
  - exists (role_based_prompt role company round_type difficulty previous_questions).
    split; [reflexivity |].
    destruct (role_based_prompt_mentions role company round_type difficulty
                previous_questions) as (? & ? & ?).
    repeat split; try assumption. by intros; subst.
  - exists (structured_output_prompt role company round_type difficulty previous_questions).
    split; [reflexivity |].
    destruct (structured_output_prompt_mentions role company round_type difficulty
                previous_questions) as (? & ? & ?).
    repeat split; try assumption. by intros; subst.
  - exists (socratic_prompt role company round_type difficulty previous_questions).
    split; [reflexivity |].
    destruct (socratic_prompt_mentions role company round_type difficulty
                previous_questions) as (? & ? & ?).
    repeat split; try assumption. by intros; subst.
Qed.

End PromptStrategyFacts.

Lemma get_prompt_by_strategy_mentions_inputs_witness :
  exists prompt,
    PromptStrategies.get_prompt_by_strategy "socratic" "Data Engineer" ""
      "Role Related" "Beginner" (Some ["What is ETL?"]) = inr prompt
    /\ str_in "Data Engineer" prompt = true
    /\ str_in "Role Related" prompt = true
    /\ str_in "Beginner" prompt = true
    /\ (forall strategy' role' company' round_type' difficulty' previous_questions',
          strategy' = "socratic" -> role' = "Data Engineer" -> company' = "" ->
          round_type' = "Role Related" -> difficulty' = "Beginner" ->
          previous_questions' = Some ["What is ETL?"] ->
          PromptStrategies.get_prompt_by_strategy strategy' role' company'
            round_type' difficulty' previous_questions' = inr prompt).
Proof.
  apply (get_prompt_by_strategy_mentions_inputs "socratic" "Data Engineer" ""
           "Role Related" "Beginner" (Some ["What is ETL?"])).
  simpl. tauto.
Defined.

(** ** Response-text extraction *)

Section ExtractionFacts.

Import LlmUtils Scenarios.

Lemma _extract_text_from_candidate_falsy (candidate : Candidate) :
  str_or_none_truthy (_extract_text_from_candidate candidate) = false.
Proof.
  unfold _extract_text_from_candidate.
  destruct (content candidate) as [c|]; [destruct (content_truthy c) |]; done.
Qed.

Lemma scan_candidates_empty (cands : list Candidate) :
  scan_candidates cands = "".
Proof.
  induction cands as [|candidate rest IH]; simpl; [done |].
  pose proof (_extract_text_from_candidate_falsy candidate) as H.
  destruct (_extract_text_from_candidate candidate) as [t|]; simpl in H; by rewrite ?H.
Qed.

(** C1, as the code behaves: when the consolidated accessor raises, gives
    [None], the empty text or blank text, the scan of the candidates gives
    the empty string whatever the candidates hold; so for
    [response_with_candidate_text], whose candidate holds "What is X?". *)
Theorem extract_text_fallback_gives_empty (cands : list Candidate) :
  _extract_text_from_response (Some {| text := TextRaises; candidates := cands |}) = ""
  /\ _extract_text_from_response
       (Some {| text := TextValue None; candidates := cands |}) = ""
  /\ _extract_text_from_response
       (Some {| text := TextValue (Some ""); candidates := cands |}) = ""
  /\ _extract_text_from_response
       (Some {| text := TextValue (Some "  "); candidates := cands |}) = ""
  /\ _extract_text_from_response (Some response_with_candidate_text) = "".
Proof.
  repeat split;
    unfold _extract_text_from_response; simpl; apply scan_candidates_empty.
Qed.

End ExtractionFacts.

(** ** Question generation *)

Section MonadFacts.

Import LlmUtils.

Context {A : Type}.

Lemma outcome_try_except_wrap (m : M A) (f : exn -> string) :
  outcome (try_except m (fun exc => raise (RuntimeError (f exc)))) =
  match outcome m with
  | inl e => inl (RuntimeError (f e))
  | inr a => inr a
  end.
Proof. by destruct m as [t [e | a]]. Qed.

Lemma trace_try_except_wrap (m : M A) (f : exn -> string) :
  trace (try_except m (fun exc => raise (RuntimeError (f exc)))) = trace m.
Proof. destruct m as [t [e | a]]; simpl; [apply app_nil_r | done]. Qed.

Lemma trace_bind_call {B : Type} (ev : event) (r : exn + B) (k : B -> M A) :
  trace (bind (call ev r) k) =
  ev :: match r with inl _ => [] | inr b => trace (k b) end.
Proof. destruct r as [e | b]; simpl; [done |]. by destruct (k b). Qed.

Lemma outcome_bind_call {B : Type} (ev : event) (r : exn + B) (k : B -> M A) :
  outcome (bind (call ev r) k) =
  match r with inl e => inl e | inr b => outcome (k b) end.
Proof. destruct r as [e | b]; simpl; [done |]. by destruct (k b). Qed.

Lemma bind_lift_inr {B : Type} (b : B) (k : B -> M A) :
  bind (lift (inr b)) k = k b.
Proof. unfold bind, lift. by destruct (k b). Qed.

End MonadFacts.

Section CleanQuestionFacts.

Import LlmUtils.

Lemma drop_prefix_append (p rest : string) :
  drop_prefix (String.length p) (p +:+ rest) = rest.
Proof. induction p as [|c p IH]; [by destruct rest | by rewrite append_cons]. Qed.

(** The loop leaves the text alone when no prefix of the list matches, and
    otherwise removes the first matching one, once. *)
Lemma remove_prefix_loop_first_match (prefixes : list string) (s : string) :
  (Forall (fun p => startswith s p = false) prefixes
   /\ remove_prefix_loop prefixes s = s)
  \/ (exists before p after rest,
        prefixes = before ++ p :: after
        /\ Forall (fun p' => startswith s p' = false) before
        /\ s = p +:+ rest
        /\ remove_prefix_loop prefixes s = strip rest).
Proof.
  induction prefixes as [|p prefixes IH]; simpl.
  - left. by split.
  - destruct (startswith s p) eqn:Hp.
    + right. destruct (startswith_inv _ _ Hp) as [rest ->].
      exists [], p, prefixes, rest. rewrite drop_prefix_append. by repeat split.
    + destruct IH as [[Hall ->] | (before & q & after & rest & -> & Hb & -> & ->)].
      * left. split; [by constructor | done].
      * right. exists (p :: before), q, after, rest.
        repeat split; [by constructor].
Qed.

Lemma clean_question_ends_with_mark (question : string) :
  endswith (clean_question question) "?" = true.
Proof.
  unfold clean_question.
  destruct (endswith (remove_prefix_loop _ _) "?") eqn:E; simpl;
    [done | apply endswith_append].
Qed.

End CleanQuestionFacts.

Section GenerateQuestionFacts.

Import PromptStrategies LlmUtils.

#[local] Arguments bind : simpl never.
#[local] Arguments call : simpl never.
#[local] Arguments lift : simpl never.
#[local] Arguments try_except : simpl never.
#[local] Arguments trace : simpl never.
#[local] Arguments outcome : simpl never.
#[local] Arguments _extract_text_from_response : simpl never.
#[local] Arguments clean_question : simpl never.

Variable env_GEMINI_MODEL : option string.
Variable configure : string -> option exn.
Variable GenerativeModel :
  string -> gmap string Q -> gmap HarmCategory HarmBlockThreshold -> option exn.
Variable generate_content :
  string -> gmap string Q -> gmap HarmCategory HarmBlockThreshold ->
  string -> exn + Response.
Variable count_tokens : string -> string -> option exn.
Variable default_safety : gmap HarmCategory HarmBlockThreshold.

Variables role company round_type difficulty : string.
Variable previous_questions : option (list string).
Variable generation_config : option (gmap string (option Q)).
Variable safety_settings : option (gmap HarmCategory HarmBlockThreshold).
Variable prompt_strategy : string.

Let run (api_key : option string) : M string :=
  generate_question env_GEMINI_MODEL configure GenerativeModel generate_content
    default_safety role company round_type difficulty previous_questions api_key
    generation_config safety_settings prompt_strategy.

Let effective_config := _merge_generation_config generation_config.
Let effective_safety := effective_safety_of default_safety safety_settings.
Let model_name := GEMINI_MODEL env_GEMINI_MODEL.

Lemma api_key_truthy_false (api_key : option string) :
  api_key_truthy api_key = false <-> api_key = None \/ api_key = Some "".
Proof.
  destruct api_key as [[|c k]|]; simpl; split; intros H; auto;
    try discriminate; destruct H as [H | H]; discriminate.
Qed.

Lemma run_never_ValueError_inside (key : string) :
  truthy key = true ->
  forall msg, outcome (run (Some key)) <> inl (ValueError msg).
Proof.
  intros Hk msg. unfold run, generate_question. simpl. rewrite Hk. simpl.
  rewrite outcome_try_except_wrap.
  by destruct (outcome _).
Qed.

Lemma run_trace_starts_with_configure (key : string) :
  truthy key = true ->
  exists rest, trace (run (Some key)) = EvConfigure key :: rest.
Proof.
  intros Hk. unfold run, generate_question. simpl. rewrite Hk. simpl.
  rewrite trace_try_except_wrap, trace_bind_call. by eexists.
Qed.

Lemma run_reaches_generate_content (key prompt : string) :
  truthy key = true ->
  configure key = None ->
  GenerativeModel model_name effective_config effective_safety = None ->
  get_prompt_by_strategy prompt_strategy role company round_type difficulty
    previous_questions = inr prompt ->
  In (EvGenerateContent prompt) (trace (run (Some key))).
Proof.
  intros Hk Hc Hm Hp. unfold run, generate_question. simpl. rewrite Hk. simpl.
  rewrite trace_try_except_wrap, trace_bind_call, Hc. simpl.
  fold effective_config effective_safety model_name.
  rewrite trace_bind_call, Hm. simpl.
  rewrite Hp, bind_lift_inr, trace_bind_call. right. right. by left.
Qed.

Lemma run_returns_clean_question (key prompt : string) (response : Response) :
  truthy key = true ->
  configure key = None ->
  GenerativeModel model_name effective_config effective_safety = None ->
  get_prompt_by_strategy prompt_strategy role company round_type difficulty
    previous_questions = inr prompt ->
  generate_content key effective_config effective_safety prompt = inr response ->
  truthy (_extract_text_from_response (Some response)) = true ->
  outcome (run (Some key)) =
  inr (clean_question (_extract_text_from_response (Some response))).
Proof.
  intros Hk Hc Hm Hp Hg Hq. unfold run, generate_question. simpl. rewrite Hk. simpl.
  rewrite outcome_try_except_wrap, outcome_bind_call, Hc. simpl.
  fold effective_config effective_safety model_name.
  rewrite outcome_bind_call, Hm. simpl.
  rewrite Hp, bind_lift_inr, outcome_bind_call, Hg, Hq. reflexivity.
Qed.

Lemma validate_rejects_blank_key (key : string) :
  strip key = "" ->
  validate_google_api_key env_GEMINI_MODEL configure GenerativeModel count_tokens
    default_safety (Some key) generation_config safety_settings =
  ([], inl (ValueError "GOOGLE_API_KEY missing. Provide it via .env before generating questions.")).
Proof.
  intros Hs. unfold validate_google_api_key. rewrite Hs.
  by destruct (truthy key).
Qed.

(** C5: the clean-up in [generate_question] strips the text, removes at most
    one label prefix (the first entry of the list that matches, once), and
    appends "?" exactly when the cleaned text does not end with one, so that
    the result always ends with "?"; the two examples of the specification;
    and a question with two labels loses the first only.  The cleaned question is what [generate_question] returns
    whenever the remote answer holds text. *)
Theorem generate_question_postprocessing (question : string) :
  (exists cleaned,
     ((Forall (fun p => startswith (strip question) p = false) prefixes_to_remove
       /\ cleaned = strip question)
      \/ (exists before p after rest,
            prefixes_to_remove = before ++ p :: after
            /\ Forall (fun p' => startswith (strip question) p' = false) before
            /\ strip question = p +:+ rest
            /\ cleaned = strip rest))
     /\ clean_question question =
          (if endswith cleaned "?" then cleaned else cleaned +:+ "?"))
  /\ endswith (clean_question question) "?" = true
  /\ clean_question "Question: What is X?" = "What is X?"
  /\ clean_question "Explain Y" = "Explain Y?"
  /\ clean_question "Question: Q: What is X?" = "Q: What is X?"
  /\ (forall key prompt response,
        truthy key = true ->
        configure key = None ->
        GenerativeModel model_name effective_config effective_safety = None ->
        get_prompt_by_strategy prompt_strategy role company round_type difficulty
          previous_questions = inr prompt ->
        generate_content key effective_config effective_safety prompt = inr response ->
        _extract_text_from_response (Some response) = question ->
        truthy question = true ->
        outcome (run (Some key)) = inr (clean_question question)).
Proof.
  split; [| split; [apply clean_question_ends_with_mark |];
            repeat split; try reflexivity].
  - unfold clean_question.
    destruct (remove_prefix_loop_first_match prefixes_to_remove (strip question))
      as [[Hall E] | (before & p & after & rest & Hl & Hb & Hs & E)].
    + exists (strip question). split; [by left |].
      rewrite E. by destruct (endswith (strip question) "?").
    + exists (strip rest). split.
      * right. by exists before, p, after, rest.
      * rewrite E. by destruct (endswith (strip rest) "?").
  - intros key prompt response Hk Hc Hm Hp Hg <- Hq.
    by apply (run_returns_clean_question key prompt response).
Qed.

(** C10: [generate_question] raises a [ValueError] exactly when the key is
    [None] or empty, and then it is the missing-key error, raised before any
    call to the client library; a non-empty key made of blanks passes the
    check, the client library is configured with it and, when nothing raises
    before, the prompt is sent to the remote model; and
    [validate_google_api_key] rejects that same key. *)
Theorem generate_question_missing_key (api_key : option string) :
  ((exists msg, outcome (run api_key) = inl (ValueError msg))
   <-> api_key = None \/ api_key = Some "")
  /\ (api_key = None \/ api_key = Some "" ->
      run api_key =
      ([], inl (ValueError
                  "GOOGLE_API_KEY missing. Please provide it via the .env file or settings.")))
  /\ (forall key,
        api_key = Some key -> key <> "" -> strip key = "" ->
        (exists rest, trace (run api_key) = EvConfigure key :: rest)
        /\ (configure key = None ->
            GenerativeModel model_name effective_config effective_safety = None ->
            forall prompt,
              get_prompt_by_strategy prompt_strategy role company round_type
                difficulty previous_questions = inr prompt ->
              In (EvGenerateContent prompt) (trace (run api_key)))
        /\ validate_google_api_key env_GEMINI_MODEL configure GenerativeModel
             count_tokens default_safety (Some key) generation_config
             safety_settings =
           ([], inl (ValueError
                       "GOOGLE_API_KEY missing. Provide it via .env before generating questions."))).
Proof.
  assert (Hmiss : api_key = None \/ api_key = Some "" ->
                  run api_key =
                  ([], inl (ValueError
                              "GOOGLE_API_KEY missing. Please provide it via the .env file or settings."))).
  { intros H. apply api_key_truthy_false in H.
    unfold run, generate_question. by rewrite H. }
  split; [| split; [exact Hmiss |]].
  - split.
    + intros [msg Hmsg]. apply api_key_truthy_false.
      destruct (api_key_truthy api_key) eqn:E; [| done].
      destruct api_key as [key|]; [| done].
      by destruct (run_never_ValueError_inside key E msg).
    + intros H. rewrite (Hmiss H). by eexists.
  - intros key -> Hne Hblank.
    assert (Hk : truthy key = true) by (by destruct key).
    split; [by apply run_trace_starts_with_configure |].
    split; [intros Hc Hm prompt Hp; by apply run_reaches_generate_content |].
    by apply validate_rejects_blank_key.
Qed.

End GenerateQuestionFacts.

Section GenerateQuestionWitnesses.

Import PromptStrategies LlmUtils Scenarios.

Lemma generate_question_postprocessing_witness :
  outcome
    (generate_question None configure_ok model_ok labelled_answer
       DEFAULT_SAFETY_SETTINGS "Software Engineer" "" "Coding" "Professional"
       None (Some "secret-key") None None "zero_shot") =
  inr (clean_question "Question: What is X?").
Proof.
  destruct (generate_question_postprocessing None configure_ok model_ok
              labelled_answer DEFAULT_SAFETY_SETTINGS "Software Engineer" ""
              "Coding" "Professional" None None None "zero_shot"
              "Question: What is X?") as (_ & _ & _ & _ & _ & H).
  apply (H "secret-key"
           (zero_shot_prompt "Software Engineer" "" "Coding" "Professional" None)
           {| text := TextValue (Some "Question: What is X?"); candidates := [] |});
    reflexivity.
Defined.

Lemma generate_question_missing_key_witness :
  In (EvGenerateContent
        (zero_shot_prompt "Software Engineer" "" "Coding" "Professional" None))
    (trace
       (generate_question None configure_ok model_ok labelled_answer
          DEFAULT_SAFETY_SETTINGS "Software Engineer" "" "Coding" "Professional"
          None (Some " ") None None "zero_shot"))
  /\ validate_google_api_key None configure_ok model_ok tokens_ok
       DEFAULT_SAFETY_SETTINGS (Some " ") None None =
     ([], inl (ValueError
                 "GOOGLE_API_KEY missing. Provide it via .env before generating questions.")).
Proof.
  destruct (generate_question_missing_key None configure_ok model_ok
              labelled_answer tokens_ok DEFAULT_SAFETY_SETTINGS
              "Software Engineer" "" "Coding" "Professional" None None None
              "zero_shot" (Some " ")) as (_ & _ & H).
  destruct (H " " eq_refl ltac:(discriminate) eq_refl) as (_ & Hsend & Hval).
  split; [| exact Hval].
  apply Hsend; reflexivity.
Defined.

End GenerateQuestionWitnesses.

(** ** Practice flow *)

Section PracticeFacts.

Import LlmUtils Session PracticeApp.

Lemma role_specific_other (role : string) :
  role <> "software engineer" -> role <> "data scientist" ->
  role <> "product manager" -> role_specific !! role = None.
Proof.
  intros H1 H2 H3. unfold role_specific.
  by rewrite !lookup_insert_ne, lookup_empty.
Qed.

Lemma overall_feedback_shape (query_role : option string)
    (questions : list string) (answers : gmap Z string) :
  exists opening,
    (opening = [feedback_completed]
     \/ opening = [feedback_completed; feedback_more_detail])
    /\ overall_feedback query_role questions answers =
       opening ++ role_tips query_role.
Proof.
  unfold overall_feedback, role_tips.
  destruct (negb (Qle_bool 100 _)).
  - exists [feedback_completed; feedback_more_detail]. split; [by right | done].
  - exists [feedback_completed]. split; [by left | done].
Qed.

(** C4, as the code has it: the tips are chosen by looking the lowercased
    role up in a table of three keys.  A role equal to "software engineer"
    after lowercasing gets the three software-engineer tips, one equal to
    "data scientist" or "product manager" its own three, every other role
    the two generic tips; the feedback is the opening lines followed by
    these tips. *)
Theorem role_tips_by_exact_role (query_role : option string)
    (questions : list string) (answers : gmap Z string) :
  let role := lower (default "Software Engineer" query_role) in
  (role = "software engineer" -> role_tips query_role = software_engineer_tips)
  /\ (role = "data scientist" -> role_tips query_role = data_scientist_tips)
  /\ (role = "product manager" -> role_tips query_role = product_manager_tips)
  /\ (role <> "software engineer" -> role <> "data scientist" ->
      role <> "product manager" -> role_tips query_role = generic_tips)
  /\ (exists opening,
        (opening = [feedback_completed]
         \/ opening = [feedback_completed; feedback_more_detail])
        /\ overall_feedback query_role questions answers =
           opening ++ role_tips query_role).
Proof.
  cbv zeta. unfold role_tips.
  split; [by intros -> |].
  split; [by intros -> |].
  split; [by intros -> |].
  split; [intros H1 H2 H3; by rewrite role_specific_other |].
  apply overall_feedback_shape.
Qed.

Lemma role_tips_by_exact_role_witness :
  role_tips (Some "Software Engineer") = software_engineer_tips
  /\ role_tips (Some "DATA SCIENTIST") = data_scientist_tips
  /\ role_tips (Some "Product manager") = product_manager_tips
  /\ role_tips (Some "Site Reliability Engineer") = generic_tips.
Proof.
  split; [| split; [| split]].
  - apply (role_tips_by_exact_role (Some "Software Engineer") [] ∅). reflexivity.
  - apply (role_tips_by_exact_role (Some "DATA SCIENTIST") [] ∅). reflexivity.
  - apply (role_tips_by_exact_role (Some "Product manager") [] ∅). reflexivity.
  - apply (role_tips_by_exact_role (Some "Site Reliability Engineer") [] ∅);
      discriminate.
Defined.

(** C4 as stated fails: "Site Reliability Engineer" holds the word
    "engineer" after lowercasing, and gets the two generic tips. *)
Lemma role_tips_engineer_word_counterexample :
  str_in "engineer" (lower "Site Reliability Engineer") = true
  /\ role_tips (Some "Site Reliability Engineer") = generic_tips
  /\ role_tips (Some "Site Reliability Engineer") <> software_engineer_tips
  /\ overall_feedback (Some "Site Reliability Engineer") [] ∅ =
     [feedback_completed; feedback_more_detail] ++ generic_tips.
Proof.
  assert (H : role_tips (Some "Site Reliability Engineer") = generic_tips)
    by (by vm_compute).
  split; [by vm_compute |].
  split; [exact H |].
  split; [by rewrite H | by vm_compute].
Qed.

End PracticeFacts.

(** ** Timer *)

Section TimerFacts.

Import PracticeApp.

Lemma per_question_seconds_values (round_type difficulty : string) :
  per_question_seconds round_type difficulty = 900%Z
  \/ per_question_seconds round_type difficulty = 180%Z
  \/ per_question_seconds round_type difficulty = 300%Z.
Proof.
  unfold per_question_seconds, per_question_seconds_map.
  destruct (String.eqb _ "coding"); [by left |].
  destruct (decide (lower difficulty = "professional")) as [-> | Hp];
    [right; right; reflexivity |].
  rewrite lookup_insert_ne by done.
  destruct (decide (lower difficulty = "beginner")) as [-> | Hb];
    [right; left; reflexivity |].
  rewrite lookup_insert_ne, lookup_empty by done. by right; right.
Qed.

Lemma py_int_reaches (x : Q) (n : Z) :
  (0 < n)%Z -> ((n <= py_int x)%Z <-> (inject_Z n <= x)%Q).
Proof.
  intros Hn. unfold py_int.
  destruct (Qle_bool 0 x) eqn:E.
  - split; intros H.
    + apply Qle_trans with (inject_Z (Qfloor x)); [| apply Qfloor_le].
      by rewrite <- Zle_Qle.
    + rewrite <- (Qfloor_Z n). by apply Qfloor_resp_le.
  - assert (Hneg : (x < 0)%Q).
    { apply Qnot_le_lt. intros H. apply Qle_bool_iff in H. congruence. }
    split; intros H.
    + exfalso.
      assert (Hc : (Qceiling x <= 0)%Z).
      { unfold Qceiling.
        assert (0 <= Qfloor (- x))%Z; [| lia].
        rewrite <- (Qfloor_Z 0). apply Qfloor_resp_le.
        apply Qlt_le_weak. rewrite <- (Qopp_involutive 0) in Hneg.
        apply Qopp_lt_compat in Hneg. rewrite !Qopp_involutive in Hneg.
        exact Hneg. }
      lia.
    + exfalso. apply (Qlt_irrefl x).
      apply Qlt_le_trans with 0%Q; [done |].
      apply Qle_trans with (inject_Z n); [| done].
      change 0%Q with (inject_Z 0). rewrite <- Zle_Qle. lia.
Qed.

Lemma answering_timer_remaining (now_start now : Q) (per_q idx : Z)
    (timers : gmap Z Q) (locked : gmap Z bool) :
  (0 < per_q)%Z ->
  let start := default now_start (timers !! idx) in
  let v := answering_timer now_start now per_q idx timers locked in
  ((inject_Z per_q <= now - start)%Q -> remaining v = 0%Z)
  /\ ((now - start < inject_Z per_q)%Q -> (0 < remaining v)%Z).
Proof.
  intros Hpos start v.
  assert (Hstart :
    default now_start
      (match timers !! idx with
       | Some _ => timers
       | None => <[idx := now_start]> timers
       end !! idx) = start).
  { unfold start. destruct (timers !! idx) eqn:E; [by rewrite E |].
    by rewrite lookup_insert_eq. }
  subst v. unfold answering_timer. cbv zeta. simpl remaining.
  rewrite Hstart. split; intros H.
  - apply (py_int_reaches _ _ Hpos) in H. lia.
  - assert (Hlt : ~ (per_q <= py_int (now - start))%Z).
    { intros Hc. apply (py_int_reaches _ _ Hpos) in Hc.
      by apply Qle_not_lt in Hc. }
    lia.
Qed.

(** C8: the allotted time is 900 seconds for a Coding round whatever the
    difficulty, and otherwise 180 seconds for Beginner and 300 for
    Professional; on a pass through the answering state the question is marked
    locked when the time since its start has reached the allotted time, and
    the locks are left as they were when it has not. *)
Theorem per_question_seconds_and_lock (round_type difficulty : string)
    (now_start now : Q) (current_index : Z)
    (timers : gmap Z Q) (locked : gmap Z bool) :
  let allotted := per_question_seconds round_type difficulty in
  let start := default now_start (timers !! current_index) in
  let v := answering_timer now_start now allotted current_index timers locked in
  (lower round_type = "coding" -> allotted = 900%Z)
  /\ (lower round_type <> "coding" -> lower difficulty = "beginner" ->
      allotted = 180%Z)
  /\ (lower round_type <> "coding" -> lower difficulty = "professional" ->
      allotted = 300%Z)
  /\ ((inject_Z allotted <= now - start)%Q ->
      question_locked v !! current_index = Some true /\ remaining v = 0%Z)
  /\ ((now - start < inject_Z allotted)%Q ->
      question_locked v = locked
      /\ remaining v = (allotted - Z.max 0 (py_int (now - start)))%Z
      /\ (0 < remaining v)%Z).
Proof.
  intros allotted start v.
  assert (Hpos : (0 < allotted)%Z).
  { destruct (per_question_seconds_values round_type difficulty) as [H | [H | H]];
      subst allotted; rewrite H; lia. }
  destruct (answering_timer_remaining now_start now allotted current_index
              timers locked Hpos) as [Hreach Hbefore].
  fold start v in Hreach, Hbefore.
  split; [| split; [| split; [| split]]].
  - intros Hc. subst allotted. unfold per_question_seconds. by rewrite Hc.
  - intros Hc Hd. subst allotted. unfold per_question_seconds.
    apply String.eqb_neq in Hc. by rewrite Hc, Hd.
  - intros Hc Hd. subst allotted. unfold per_question_seconds.
    apply String.eqb_neq in Hc. by rewrite Hc, Hd.
  - intros H. specialize (Hreach H). split; [| exact Hreach].
    assert (E : question_locked v =
                if (remaining v =? 0)%Z then <[current_index := true]> locked
                else locked) by reflexivity.
    rewrite E, Hreach. simpl. apply lookup_insert_eq.
  - intros H. specialize (Hbefore H).
    assert (E : question_locked v =
                if (remaining v =? 0)%Z then <[current_index := true]> locked
                else locked) by reflexivity.
    split; [| split; [| exact Hbefore]].
    + rewrite E. destruct (Z.eqb_spec (remaining v) 0); [lia | done].
    + assert (Hs :
        default now_start
          (match timers !! current_index with
           | Some _ => timers
           | None => <[current_index := now_start]> timers
           end !! current_index) = start).
      { unfold start. destruct (timers !! current_index) eqn:E'; [by rewrite E' |].
        by rewrite lookup_insert_eq. }
      assert (Hlt : ~ (allotted <= py_int (now - start))%Z).
      { intros Hc. apply (py_int_reaches _ _ Hpos) in Hc.
        by apply Qle_not_lt in Hc. }
      subst v. unfold answering_timer. cbv zeta. simpl remaining.
      rewrite Hs. lia.
Qed.

End TimerFacts.

Lemma per_question_seconds_and_lock_witness :
  PracticeApp.per_question_seconds "Coding" "Professional" = 900%Z
  /\ PracticeApp.per_question_seconds "Coding" "Beginner" = 900%Z
  /\ PracticeApp.per_question_seconds "Behavioral" "Beginner" = 180%Z
  /\ PracticeApp.per_question_seconds "Warm Up" "Professional" = 300%Z
  /\ PracticeApp.question_locked
       (PracticeApp.answering_timer 1000 1900
          (PracticeApp.per_question_seconds "Coding" "Professional") 0
          {[ 0%Z := 1000%Q ]} ∅) !! 0%Z = Some true
  /\ PracticeApp.question_locked
       (PracticeApp.answering_timer 1000 (3799 # 2)
          (PracticeApp.per_question_seconds "Coding" "Professional") 0
          {[ 0%Z := 1000%Q ]} ∅) = ∅.
Proof.
  split; [| split; [| split; [| split; [| split]]]].
  - apply (per_question_seconds_and_lock "Coding" "Professional" 0 0 0 ∅ ∅).
    reflexivity.
  - apply (per_question_seconds_and_lock "Coding" "Beginner" 0 0 0 ∅ ∅).
    reflexivity.
  - apply (per_question_seconds_and_lock "Behavioral" "Beginner" 0 0 0 ∅ ∅);
      [discriminate | reflexivity].
  - apply (per_question_seconds_and_lock "Warm Up" "Professional" 0 0 0 ∅ ∅);
      [discriminate | reflexivity].
  - apply (per_question_seconds_and_lock "Coding" "Professional" 1000 1900 0
             {[ 0%Z := 1000%Q ]} ∅).
    vm_compute. discriminate.
  - apply (per_question_seconds_and_lock "Coding" "Professional" 1000 (3799 # 2) 0
             {[ 0%Z := 1000%Q ]} ∅).
    reflexivity.
Defined.

(** ** Audio mode *)

Section AudioFacts.

Import Session PracticeApp StreamlitApp.

(** C9: in a Coding round the answering state has audio mode, audio-enabled
    and audio-only all false, whatever the store holds and whether or not the
    question is locked; the text area is not hidden and no capture panel, lock
    notice or audio notice is shown; so also after the initialisation of the
    checkbox key at the top of the page.  On the setup page a selected Coding
    round stores [False] under both audio keys. *)
Theorem coding_round_forces_audio_off (round_type : string)
    (current_locked : bool) (store : gmap string value) :
  (is_coding_round round_type = true ->
   let v := answering_audio round_type current_locked store in
   audio_mode v = VBool false
   /\ audio_enabled v = false
   /\ audio_only_mode v = false
   /\ response_hidden v = false
   /\ panel v = PanelAbsent
   /\ audio_mode_notice v = false
   /\ audio_enabled
        (answering_audio round_type current_locked
           (init_audio_checkbox round_type store)) = false
   /\ panel
        (answering_audio round_type current_locked
           (init_audio_checkbox round_type store)) = PanelAbsent)
  /\ (store !! "round_radio" = Some (VStr "Coding") ->
      setup_audio store !! "audio_mode_enabled" = Some (VBool false)
      /\ setup_audio store !! "audio_checkbox" = Some (VBool false)).
Proof.
  split.
  - intros Hc. unfold answering_audio. cbv zeta. rewrite Hc. simpl.
    by repeat split.
  - intros Hr. unfold setup_audio, get. rewrite Hr. simpl.
    rewrite lookup_insert_eq, lookup_insert_ne, lookup_insert_eq by done.
    by split.
Qed.

Lemma coding_round_forces_audio_off_witness :
  audio_enabled
    (answering_audio "Coding" false
       (<["audio_mode_enabled" := VBool true]>
          (<["audio_checkbox" := VBool true]> ∅))) = false
  /\ panel
       (answering_audio "Coding" false
          (<["audio_mode_enabled" := VBool true]>
             (<["audio_checkbox" := VBool true]> ∅))) = PanelAbsent
  /\ setup_audio
       (<["audio_mode_enabled" := VBool true]>
          (<["round_radio" := VStr "Coding"]> ∅)) !! "audio_mode_enabled" =
     Some (VBool false).
Proof.
  destruct (coding_round_forces_audio_off "Coding" false
              (<["audio_mode_enabled" := VBool true]>
                 (<["audio_checkbox" := VBool true]> ∅))) as [H _].
  destruct (H eq_refl) as (_ & He & _ & _ & Hp & _ & _ & _).
  destruct (coding_round_forces_audio_off "Coding" false
              (<["audio_mode_enabled" := VBool true]>
                 (<["round_radio" := VStr "Coding"]> ∅))) as [_ H'].
  destruct (H' eq_refl) as [Hs _].
  split; [exact He | split; [exact Hp | exact Hs]].
Defined.

End AudioFacts.

(** ** Start New Interview *)

Section RestartFacts.

Import Session PracticeApp Scenarios.

Lemma lookup_pop_all (keys : list string) (store : gmap string value) (k : string) :
  foldl (fun st key => pop key st) store keys !! k =
  if bool_decide (k ∈ keys) then None else store !! k.
Proof.
  revert store. induction keys as [|key keys IH]; intros store.
  - reflexivity.
  - change (foldl (fun st key => pop key st) (pop key store) keys !! k =
            if bool_decide (k ∈ key :: keys) then None else store !! k).
    rewrite IH. unfold pop.
    destruct (decide (k = key)) as [-> | Hne].
    + rewrite lookup_delete_eq.
      rewrite (bool_decide_eq_true_2 (key ∈ key :: keys)) by apply list_elem_of_here.
      by destruct (bool_decide (key ∈ keys)).
    + rewrite lookup_delete_ne by done.
      assert (Hiff : k ∈ key :: keys <-> k ∈ keys).
      { rewrite elem_of_cons. split; [by intros [? | ?] | by right]. }
      by rewrite (bool_decide_ext _ _ Hiff).
Qed.

Lemma start_new_interview_keys_no_widget (k : string) :
  k ∈ start_new_interview_keys -> startswith k "answer_input_" = false.
Proof.
  intros Hin.
  assert (Hall : forallb (fun k => negb (startswith k "answer_input_"))
                   start_new_interview_keys = true) by reflexivity.
  rewrite forallb_forall in Hall.
  apply list_elem_of_In, Hall in Hin. by apply negb_true_iff in Hin.
Qed.

Lemma widget_key_not_popped (idx : Z) :
  widget_key idx ∉ start_new_interview_keys.
Proof.
  intros Hin. apply start_new_interview_keys_no_widget in Hin.
  unfold widget_key in Hin. by rewrite startswith_append in Hin.
Qed.

(** C3, as the code behaves: "Start New Interview" removes the questions, the
    index, the timers, the locks, the finished and audio flags and the keys
    [answer_0] .. [answer_9]; the key an answer text area is bound to,
    [answer_input_<i>], is left as it was for every [i], and so is the
    [answers] dictionary.  In [finished_store] the answer to question 0 is
    still there after the action. *)
Theorem start_new_interview_keeps_answer_bindings
    (store : gmap string value) (idx : Z) :
  Forall (fun key => start_new_interview store !! key = None)
    ["paused"; "finished"; "questions"; "current_question_index";
     "question_timers"; "question_locked"; "audio_mode_enabled";
     "audio_checkbox"; "answer_0"; "answer_9"]
  /\ start_new_interview store !! widget_key idx = store !! widget_key idx
  /\ start_new_interview store !! "answers" = store !! "answers"
  /\ start_new_interview finished_store !! widget_key 0 =
     Some (VStr "I would use a hash map.")
  /\ start_new_interview finished_store !! "answers" =
     Some (VAnswers {[ 0%Z := "I would use a hash map." ]})
  /\ start_new_interview finished_store !! "questions" = None.
Proof.
  assert (Hgone : forall key, key ∈ start_new_interview_keys ->
                              start_new_interview store !! key = None).
  { intros key Hin. unfold start_new_interview.
    by rewrite lookup_pop_all, bool_decide_eq_true_2. }
  assert (Hkept : forall s key, key ∉ start_new_interview_keys ->
                                start_new_interview s !! key = s !! key).
  { intros s key Hnin. unfold start_new_interview.
    by rewrite lookup_pop_all, bool_decide_eq_false_2. }
  split; [| split; [| split; [| split; [| split]]]].
  - repeat constructor; apply Hgone; apply list_elem_of_In; simpl; tauto.
  - apply Hkept, widget_key_not_popped.
  - apply Hkept. intros Hin%list_elem_of_In. simpl in Hin.
    repeat destruct Hin as [Hin | Hin]; try discriminate Hin. exact Hin.
  - rewrite Hkept by apply widget_key_not_popped. reflexivity.
  - rewrite Hkept; [reflexivity |]. intros Hin%list_elem_of_In. simpl in Hin.
    repeat destruct Hin as [Hin | Hin]; try discriminate Hin. exact Hin.
  - unfold start_new_interview.
    rewrite lookup_pop_all, bool_decide_eq_true_2; [done |].
    apply list_elem_of_In; simpl; tauto.
Qed.

End RestartFacts.

(** ** Safety settings across sessions *)

Section SafetyFacts.

Import LlmUtils Session StreamlitApp Scenarios.

(** C2, as the code behaves: both sessions are bound to the module-level
    dictionary, so the threshold session 1 picks shows in what session 2 uses
    (also once session 2 has gone on to practice, whose initialisation finds
    the key bound) and in the module-level default; a session initialised by
    [practice_session] alone, which copies, is not touched. *)
Theorem safety_settings_shared_across_sessions :
  sessions both_on_setup !! 1%nat = sessions both_on_setup !! 2%nat
  /\ session_effective_safety 2 both_on_setup !! HARM_CATEGORY_HARASSMENT =
     Some BLOCK_MEDIUM_AND_ABOVE
  /\ session_effective_safety 2 after_change !! HARM_CATEGORY_HARASSMENT =
     Some BLOCK_NONE
  /\ module_default process_start !! HARM_CATEGORY_HARASSMENT =
     Some BLOCK_MEDIUM_AND_ABOVE
  /\ module_default after_change !! HARM_CATEGORY_HARASSMENT = Some BLOCK_NONE
  /\ practice_init_safety 2 after_change = after_change
  /\ session_effective_safety 3
       (setup_safety 1 relaxed_selection
          (practice_init_safety 3 both_on_setup)) !! HARM_CATEGORY_HARASSMENT =
     Some BLOCK_MEDIUM_AND_ABOVE.
Proof.
  split; [by vm_compute |].
  split; [by vm_compute |].
  split; [by vm_compute |].
  split; [by vm_compute |].
  split; [by vm_compute |].
  split; [reflexivity | by vm_compute].
Qed.

End SafetyFacts.

(** * Further properties *)

(** ** More on strings *)

Section MoreStringFacts.

Lemma lower_append (a b : string) : lower (a +:+ b) = lower a +:+ lower b.
Proof.
  induction a as [|c a IH]; [done |].
  rewrite append_cons. simpl. by rewrite IH, append_cons.
Qed.

Lemma upper_append (a b : string) : upper (a +:+ b) = upper a +:+ upper b.
Proof.
  induction a as [|c a IH]; [done |].
  rewrite append_cons. simpl. by rewrite IH, append_assoc.
Qed.

Lemma str_in_append_l (x a b : string) :
  str_in x a = true -> str_in x (a +:+ b) = true.
Proof.
  intros (pre & post & ->)%str_in_iff. apply str_in_iff.
  exists pre, (post +:+ b). by rewrite !append_assoc.
Qed.

Lemma str_in_trans (x y z : string) :
  str_in x y = true -> str_in y z = true -> str_in x z = true.
Proof.
  intros (p1 & q1 & ->)%str_in_iff (p2 & q2 & ->)%str_in_iff.
  apply str_in_iff. exists (p2 +:+ p1), (q1 +:+ q2). by rewrite !append_assoc.
Qed.

Lemma str_in_lower (x y : string) :
  str_in x y = true -> str_in (lower x) (lower y) = true.
Proof.
  intros (pre & post & ->)%str_in_iff. rewrite !lower_append.
  apply str_in_skip, str_in_here.
Qed.

Lemma str_in_upper (x y : string) :
  str_in x y = true -> str_in (upper x) (upper y) = true.
Proof.
  intros (pre & post & ->)%str_in_iff. rewrite !upper_append.
  apply str_in_skip, str_in_here.
Qed.

Lemma join_cons (sep x : string) (l : list string) :
  join sep (x :: l) = match l with [] => x | _ :: _ => x +:+ sep +:+ join sep l end.
Proof. by destruct l. Qed.

(** Every element of a list is in its [join]. *)
Lemma str_in_join (sep x : string) (l : list string) :
  In x l -> str_in x (join sep l) = true.
Proof.
  induction l as [|y l IH]; [done |]. intros [-> | Hin]; rewrite join_cons.
  - destruct l; [apply str_in_self | apply str_in_here].
  - destruct l as [|z l]; [done |]. by apply str_in_skip, str_in_skip, IH.
Qed.

Lemma truthy_false (s : string) : truthy s = false <-> s = "".
Proof. by destruct s. Qed.

Lemma truthy_true (s : string) : truthy s = true <-> s <> "".
Proof. by destruct s. Qed.

Lemma rstrip_idemp (s : string) : rstrip (rstrip s) = rstrip s.
Proof.
  induction s as [|c s IH]; [done |]. simpl.
  destruct (isspace c && negb (truthy (rstrip s))) eqn:E; [done |].
  simpl. by rewrite IH, E.
Qed.

Lemma lstrip_no_leading_blank (s : string) : no_leading_blank (lstrip s) = true.
Proof.
  induction s as [|c s IH]; [done |]. simpl.
  destruct (isspace c) eqn:E; [done |]. simpl. by rewrite E.
Qed.

Lemma lstrip_fixed (s : string) : no_leading_blank s = true -> lstrip s = s.
Proof. destruct s as [|c s]; [done |]. simpl. by intros ->%negb_true_iff. Qed.

Lemma rstrip_no_leading_blank (s : string) :
  no_leading_blank s = true -> no_leading_blank (rstrip s) = true.
Proof.
  destruct s as [|c s]; [done |]. simpl. intros H.
  apply negb_true_iff in H. by rewrite H; simpl; rewrite H.
Qed.

Lemma strip_idemp (s : string) : strip (strip s) = strip s.
Proof.
  unfold strip.
  rewrite (lstrip_fixed (rstrip (lstrip s)))
    by apply rstrip_no_leading_blank, lstrip_no_leading_blank.
  apply rstrip_idemp.
Qed.

Lemma rstrip_append_mark (s : string) : rstrip (s +:+ "?") = s +:+ "?".
Proof.
  induction s as [|c s IH]; [done |].
  rewrite append_cons. simpl. rewrite IH.
  replace (truthy (s +:+ "?")) with true; [by rewrite andb_false_r |].
  by destruct s.
Qed.

Lemma strip_append_mark (s : string) :
  strip s = s -> strip (s +:+ "?") = s +:+ "?".
Proof.
  intros Hs. unfold strip.
  assert (Hn : no_leading_blank (s +:+ "?") = true).
  { destruct s as [|c s]; [done |].
    assert (H : no_leading_blank (String c s) = true).
    { rewrite <- Hs. apply rstrip_no_leading_blank, lstrip_no_leading_blank. }
    by rewrite append_cons. }
  rewrite (lstrip_fixed _ Hn). apply rstrip_append_mark.
Qed.

End MoreStringFacts.

(** ** More on question generation *)

Section MoreMonadFacts.

Import LlmUtils.

Context {A B : Type}.

Lemma outcome_bind (m : M A) (k : A -> M B) :
  outcome (bind m k) =
  match outcome m with inl e => inl e | inr a => outcome (k a) end.
Proof. destruct m as [t [e | a]]; simpl; [done |]. by destruct (k a). Qed.

Lemma trace_bind (m : M A) (k : A -> M B) :
  trace (bind m k) =
  trace m ++ match outcome m with inl _ => [] | inr a => trace (k a) end.
Proof.
  destruct m as [t [e | a]]; simpl; [by rewrite app_nil_r |]. by destruct (k a).
Qed.

End MoreMonadFacts.

Section MergeFacts.

Import LlmUtils.

(** X1: in the merged generation configuration an override that holds a
    number wins, an override that is [None] and a missing override leave the
    default; the four default parameters are always present. *)
Theorem merge_generation_config_lookup
    (overrides : option (gmap string (option Q))) (key : string) :
  _merge_generation_config overrides !! key =
    match overrides with
    | None => DEFAULT_GENERATION_CONFIG !! key
    | Some o =>
        match o !! key with
        | Some (Some v) => Some v
        | _ => DEFAULT_GENERATION_CONFIG !! key
        end
    end
  /\ Forall (fun k => is_Some (_merge_generation_config overrides !! k))
       ["temperature"; "top_p"; "top_k"; "max_output_tokens"].
Proof.
  assert (H : forall k,
    _merge_generation_config overrides !! k =
      match overrides with
      | None => DEFAULT_GENERATION_CONFIG !! k
      | Some o =>
          match o !! k with
          | Some (Some v) => Some v
          | _ => DEFAULT_GENERATION_CONFIG !! k
          end
      end).
  { intros k. unfold _merge_generation_config. destruct overrides as [o|]; [| done].
    rewrite lookup_union, lookup_omap.
    destruct (o !! k) as [[v|]|]; simpl;
      by destruct (DEFAULT_GENERATION_CONFIG !! k). }
  split; [apply H |].
  repeat constructor; rewrite H;
    (destruct overrides as [o|]; [| by eexists]);
    match goal with
    | |- is_Some (match o !! ?k with _ => _ end) =>
        destruct (o !! k) as [[v|]|]; by eexists
    end.
Qed.

End MergeFacts.

Section CleanQuestionShape.

Import LlmUtils.

Lemma clean_question_stripped (question : string) :
  strip (clean_question question) = clean_question question.
Proof.
  unfold clean_question.
  assert (Hc : strip (remove_prefix_loop prefixes_to_remove (strip question)) =
               remove_prefix_loop prefixes_to_remove (strip question)).
  { destruct (remove_prefix_loop_first_match prefixes_to_remove (strip question))
      as [[_ ->] | (before & p & after & rest & _ & _ & _ & ->)];
      apply strip_idemp. }
  destruct (endswith _ "?"); simpl; [done | by apply strip_append_mark].
Qed.

Lemma endswith_nonempty (s p : string) :
  endswith s p = true -> p <> "" -> s <> "".
Proof. intros H Hp ->. simpl in H. rewrite orb_false_r in H. by destruct p. Qed.

End CleanQuestionShape.

Section MoreGenerateQuestionFacts.

Import PromptStrategies LlmUtils.

#[local] Arguments bind : simpl never.
#[local] Arguments call : simpl never.
#[local] Arguments lift : simpl never.
#[local] Arguments try_except : simpl never.
#[local] Arguments trace : simpl never.
#[local] Arguments outcome : simpl never.
#[local] Arguments _extract_text_from_response : simpl never.
#[local] Arguments clean_question : simpl never.
#[local] Arguments empty_response_error : simpl never.

Variable env_GEMINI_MODEL : option string.
Variable configure : string -> option exn.
Variable GenerativeModel :
  string -> gmap string Q -> gmap HarmCategory HarmBlockThreshold -> option exn.
Variable generate_content :
  string -> gmap string Q -> gmap HarmCategory HarmBlockThreshold ->
  string -> exn + Response.
Variable count_tokens : string -> string -> option exn.
Variable default_safety : gmap HarmCategory HarmBlockThreshold.

Variables role company round_type difficulty : string.
Variable previous_questions : option (list string).
Variable generation_config : option (gmap string (option Q)).
Variable safety_settings : option (gmap HarmCategory HarmBlockThreshold).
Variable prompt_strategy : string.

Let run (api_key : option string) : M string :=
  generate_question env_GEMINI_MODEL configure GenerativeModel generate_content
    default_safety role company round_type difficulty previous_questions api_key
    generation_config safety_settings prompt_strategy.

Let check (api_key : option string) : M unit :=
  validate_google_api_key env_GEMINI_MODEL configure GenerativeModel count_tokens
    default_safety api_key generation_config safety_settings.

Let effective_config := _merge_generation_config generation_config.
Let effective_safety := effective_safety_of default_safety safety_settings.
Let model_name := GEMINI_MODEL env_GEMINI_MODEL.
Let the_prompt :=
  get_prompt_by_strategy prompt_strategy role company round_type difficulty
    previous_questions.

(** The part of [generate_question] inside [try]. *)
Let attempt (key : string) : M string :=
  let* _ := call (EvConfigure key) (raises (configure key)) in
  let* _ := call (EvGenerativeModel model_name effective_config effective_safety)
              (raises (GenerativeModel model_name effective_config effective_safety)) in
  let* prompt := lift the_prompt in
  let* response := call (EvGenerateContent prompt)
                     (generate_content key effective_config effective_safety prompt) in
  let question := _extract_text_from_response (Some response) in
  if truthy question then ret (clean_question question)
  else raise (empty_response_error response).

Lemma run_unfold (key : string) :
  truthy key = true ->
  run (Some key) =
  try_except (attempt key)
    (fun exc => raise (RuntimeError ("Gemini question generation failed: " +:+
                                     exn_message exc))).
Proof. intros Hk. unfold run, generate_question. simpl. by rewrite Hk. Qed.

Lemma run_falsy (api_key : option string) :
  api_key_truthy api_key = false ->
  run api_key =
  ([], inl (ValueError
              "GOOGLE_API_KEY missing. Please provide it via the .env file or settings.")).
Proof. intros H. unfold run, generate_question. by rewrite H. Qed.

(** The calls and the outcome of the part inside [try], case by case. *)
Lemma attempt_cases (key : string) :
  (exists e, configure key = Some e
     /\ attempt key = ([EvConfigure key], inl e))
  \/ (configure key = None /\
      let ev_model := EvGenerativeModel model_name effective_config effective_safety in
      ((exists e, GenerativeModel model_name effective_config effective_safety = Some e
          /\ attempt key = ([EvConfigure key; ev_model], inl e))
       \/ (GenerativeModel model_name effective_config effective_safety = None /\
           ((exists e, the_prompt = inl e
               /\ attempt key = ([EvConfigure key; ev_model], inl e))
            \/ (exists prompt, the_prompt = inr prompt /\
                let ev_send := EvGenerateContent prompt in
                let answer := generate_content key effective_config effective_safety prompt in
                ((exists e, answer = inl e
                    /\ attempt key = ([EvConfigure key; ev_model; ev_send], inl e))
                 \/ (exists response, answer = inr response /\
                     attempt key =
                     ([EvConfigure key; ev_model; ev_send],
                      let question := _extract_text_from_response (Some response) in
                      if truthy question then inr (clean_question question)
                      else inl (empty_response_error response))))))))).
Proof.
  unfold attempt, bind, call, lift, raises.
  destruct (configure key) as [e|] eqn:Hc; [left; by exists e |].
  right. split; [done |]. cbv zeta.
  destruct (GenerativeModel _ _ _) as [e|] eqn:Hm; [left; by exists e |].
  right. split; [done |].
  destruct the_prompt as [e | prompt] eqn:Hp; [left; by exists e |].
  right. exists prompt. split; [done |]. simpl.
  destruct (generate_content _ _ _ _) as [e | response] eqn:Hg;
    [left; by exists e |].
  right. exists response. split; [done |].
  by destruct (truthy (_extract_text_from_response (Some response))).
Qed.

Lemma run_cases (key : string) :
  truthy key = true ->
  trace (run (Some key)) = trace (attempt key)
  /\ outcome (run (Some key)) =
     match outcome (attempt key) with
     | inl e => inl (RuntimeError ("Gemini question generation failed: " +:+
                                   exn_message e))
     | inr q => inr q
     end.
Proof.
  intros Hk. rewrite (run_unfold key Hk).
  by rewrite trace_try_except_wrap, outcome_try_except_wrap.
Qed.

(** X2: [generate_question] calls the client library at most three times
    and in a fixed order: it configures the library with the key, constructs
    the model with the merged configuration, and sends one request, which
    carries the prompt of the selected strategy.  Nothing is called without a
    key, and no request is sent twice. *)
Theorem generate_question_calls (api_key : option string) :
  let t := trace (run api_key) in
  let ev_model := EvGenerativeModel model_name effective_config effective_safety in
  (t = [] <-> api_key = None \/ api_key = Some "")
  /\ (t = []
      \/ exists key,
           api_key = Some key
           /\ (t = [EvConfigure key]
               \/ t = [EvConfigure key; ev_model]
               \/ exists prompt,
                    the_prompt = inr prompt
                    /\ t = [EvConfigure key; ev_model; EvGenerateContent prompt])).
Proof.
  cbv zeta.
  destruct (api_key_truthy api_key) eqn:E.
  - destruct api_key as [key|]; [| done]. simpl in E.
    destruct (run_cases key E) as [Ht _]. rewrite Ht.
    assert (Hshape :
      trace (attempt key) = [EvConfigure key]
      \/ trace (attempt key) =
           [EvConfigure key;
            EvGenerativeModel model_name effective_config effective_safety]
      \/ exists prompt,
           the_prompt = inr prompt
           /\ trace (attempt key) =
               [EvConfigure key;
                EvGenerativeModel model_name effective_config effective_safety;
                EvGenerateContent prompt]).
    { destruct (attempt_cases key)
        as [(e & _ & ->)
           | (_ & [(e & _ & ->)
                  | (_ & [(e & _ & ->)
                         | (prompt & Hp & [(e & _ & ->) | (r & _ & ->)])])])];
        eauto 6. }
    split.
    + split; [| intros [H | H]; [done | injection H as ->; done]].
      intros H0. destruct Hshape as [H | [H | (? & _ & H)]];
        rewrite H in H0; discriminate.
    + right. by exists key.
  - rewrite (run_falsy api_key E). split; [| by left].
    split; [intros _; by apply api_key_truthy_false | done].
Qed.

(** X3: a question [generate_question] returns is never empty, ends with
    "?" and has no white space around it; it is the cleaned text of the
    answer the remote model gave to the one request. *)
Theorem generate_question_result_shape (api_key : option string) (q : string) :
  outcome (run api_key) = inr q ->
  endswith q "?" = true
  /\ strip q = q
  /\ q <> ""
  /\ exists key prompt response,
       api_key = Some key
       /\ the_prompt = inr prompt
       /\ generate_content key effective_config effective_safety prompt = inr response
       /\ q = clean_question (_extract_text_from_response (Some response)).
Proof.
  intros Hq.
  destruct (api_key_truthy api_key) eqn:E;
    [| by rewrite (run_falsy api_key E) in Hq].
  destruct api_key as [key|]; [| done]. simpl in E.
  destruct (run_cases key E) as [_ Ho]. rewrite Ho in Hq.
  destruct (attempt_cases key)
    as [(e & _ & Ha)
       | (_ & [(e & _ & Ha)
              | (_ & [(e & _ & Ha)
                     | (prompt & Hp & [(e & _ & Ha) | (r & Hg & Ha)])])])];
    rewrite Ha in Hq; try discriminate Hq.
  cbv zeta in Hq. unfold outcome in Hq. simpl in Hq.
  destruct (truthy (_extract_text_from_response (Some r))); [| discriminate Hq].
  injection Hq as <-.
  pose proof (clean_question_ends_with_mark (_extract_text_from_response (Some r))) as He.
  split; [exact He |]. split; [apply clean_question_stripped |].
  split; [by apply (endswith_nonempty _ _ He) |].
  by exists key, prompt, r.
Qed.

(** X4: whatever goes wrong after the key check is reported as a
    [RuntimeError] whose message is "Gemini question generation failed: "
    followed by the message of the cause: the exception raised by the
    library at one of its three calls, the unknown-strategy error, or the
    error that classifies an answer without text. *)
Theorem generate_question_failure_cause (key : string) (e : exn) :
  truthy key = true ->
  outcome (run (Some key)) = inl e ->
  exists cause,
    e = RuntimeError ("Gemini question generation failed: " +:+ exn_message cause)
    /\ (configure key = Some cause
        \/ GenerativeModel model_name effective_config effective_safety = Some cause
        \/ the_prompt = inl cause
        \/ exists prompt,
             the_prompt = inr prompt
             /\ (generate_content key effective_config effective_safety prompt =
                 inl cause
                 \/ exists response,
                      generate_content key effective_config effective_safety prompt =
                      inr response
                      /\ _extract_text_from_response (Some response) = ""
                      /\ cause = empty_response_error response)).
Proof.
  intros Hk He. destruct (run_cases key Hk) as [_ Ho]. rewrite Ho in He.
  destruct (attempt_cases key)
    as [(c & Hc & Ha)
       | (_ & [(c & Hm & Ha)
              | (_ & [(c & Hp & Ha)
                     | (prompt & Hp & [(c & Hg & Ha) | (r & Hg & Ha)])])])];
    rewrite Ha in He; cbv zeta in He; unfold outcome in He; simpl in He.
  - injection He as <-. exists c. eauto.
  - injection He as <-. exists c. eauto.
  - injection He as <-. exists c. eauto.
  - injection He as <-. exists c. split; [done |]. do 3 right. exists prompt. eauto.
  - destruct (truthy (_extract_text_from_response (Some r))) eqn:Et;
      [discriminate He |].
    injection He as <-. exists (empty_response_error r). split; [done |].
    do 3 right. exists prompt. split; [done |]. right. exists r.
    by apply truthy_false in Et.
Qed.

(** X5: with a strategy id that is not registered no request reaches the
    remote model and no question is returned; when the library calls before
    do not raise, the error is the wrapped unknown-strategy message. *)
Theorem generate_question_unknown_strategy (key : string) :
  truthy key = true ->
  ~ In prompt_strategy strategy_keys ->
  (forall p, ~ In (EvGenerateContent p) (trace (run (Some key))))
  /\ (exists msg, outcome (run (Some key)) = inl (RuntimeError msg))
  /\ (configure key = None ->
      GenerativeModel model_name effective_config effective_safety = None ->
      outcome (run (Some key)) =
      inl (RuntimeError
             ("Gemini question generation failed: Unknown strategy '" +:+
              prompt_strategy +:+
              "'. Available strategies: zero_shot, few_shot, chain_of_thought, role_based, structured_output, socratic"))).
Proof.
  intros Hk Hnot.
  assert (Hp : the_prompt =
               inl (ValueError
                      ("Unknown strategy '" +:+ prompt_strategy +:+
                       "'. Available strategies: zero_shot, few_shot, chain_of_thought, role_based, structured_output, socratic"))).
  { unfold the_prompt, get_prompt_by_strategy.
    apply registry_lookup_None in Hnot. by rewrite Hnot. }
  destruct (run_cases key Hk) as [Ht Ho]. rewrite Ht, Ho.
  destruct (attempt_cases key)
    as [(c & Hc & Ha)
       | (Hc & [(c & Hm & Ha)
               | (Hm & [(c & Hp' & Ha)
                       | (prompt & Hp' & _)])])];
    [| | | by rewrite Hp in Hp'];
    rewrite Ha; unfold trace, outcome; simpl.
  - split; [intros p [H | []]; discriminate H |].
    split; [by eexists | intros H; by rewrite Hc in H].
  - split; [intros p [H | [H | []]]; discriminate H |].
    split; [by eexists | intros _ H; by rewrite Hm in H].
  - split; [intros p [H | [H | []]]; discriminate H |].
    split; [by eexists |]. intros _ _. rewrite Hp in Hp'. by injection Hp' as <-.
Qed.

(** The part of [validate_google_api_key] inside [try]. *)
Let probe (key : string) : M unit :=
  let* _ := call (EvConfigure key) (raises (configure key)) in
  let* _ := call (EvGenerativeModel model_name effective_config effective_safety)
              (raises (GenerativeModel model_name effective_config effective_safety)) in
  call (EvCountTokens "ping") (raises (count_tokens key "ping")).

Lemma strip_nonblank_truthy (key : string) : strip key <> "" -> truthy key = true.
Proof. by destruct key. Qed.

Lemma check_unfold (key : string) :
  strip key <> "" ->
  check (Some key) =
  try_except (probe key)
    (fun exc => raise (RuntimeError ("GOOGLE_API_KEY validation failed: " +:+
                                     exn_message exc))).
Proof.
  intros Hs. unfold check, validate_google_api_key.
  rewrite (strip_nonblank_truthy key Hs).
  apply truthy_true in Hs. by rewrite Hs.
Qed.

Lemma probe_cases (key : string) :
  let ev_model := EvGenerativeModel model_name effective_config effective_safety in
  (exists e, configure key = Some e /\ probe key = ([EvConfigure key], inl e))
  \/ (configure key = None
      /\ ((exists e, GenerativeModel model_name effective_config effective_safety = Some e
             /\ probe key = ([EvConfigure key; ev_model], inl e))
          \/ (GenerativeModel model_name effective_config effective_safety = None
              /\ ((exists e, count_tokens key "ping" = Some e
                     /\ probe key =
                        ([EvConfigure key; ev_model; EvCountTokens "ping"], inl e))
                  \/ (count_tokens key "ping" = None
                      /\ probe key =
                         ([EvConfigure key; ev_model; EvCountTokens "ping"],
                          inr tt)))))).
Proof using Type.
  clear run attempt the_prompt.
  cbv zeta. unfold probe, bind, call, raises.
  destruct (configure key) as [e|] eqn:Hc; [left; by exists e |].
  right. split; [done |].
  destruct (GenerativeModel _ _ _) as [e|] eqn:Hm; [left; by exists e |].
  right. split; [done |].
  destruct (count_tokens key "ping") as [e|] eqn:Ht; [left; by exists e |].
  by right.
Qed.

(** X7: [validate_google_api_key] raises its [ValueError] exactly for a key
    that is [None], empty or blank, before any call.  For any other key it
    configures the library, constructs the model and counts the tokens of
    "ping", never sending a generation request; it succeeds exactly when none
    of the three calls raises, and a failure is a [RuntimeError] that carries
    the message of the call that raised. *)
Theorem validate_google_api_key_outcomes (api_key : option string) :
  let ev_model := EvGenerativeModel model_name effective_config effective_safety in
  (api_key = None \/ (exists key, api_key = Some key /\ strip key = "") ->
   check api_key =
   ([], inl (ValueError
               "GOOGLE_API_KEY missing. Provide it via .env before generating questions.")))
  /\ (forall key,
        api_key = Some key -> strip key <> "" ->
        (forall msg, outcome (check api_key) <> inl (ValueError msg))
        /\ (forall p, ~ In (EvGenerateContent p) (trace (check api_key)))
        /\ (outcome (check api_key) = inr tt <->
            configure key = None
            /\ GenerativeModel model_name effective_config effective_safety = None
            /\ count_tokens key "ping" = None)
        /\ (outcome (check api_key) = inr tt ->
            trace (check api_key) =
            [EvConfigure key; ev_model; EvCountTokens "ping"])
        /\ (forall e,
              outcome (check api_key) = inl e ->
              exists cause,
                e = RuntimeError ("GOOGLE_API_KEY validation failed: " +:+
                                  exn_message cause)
                /\ (configure key = Some cause
                    \/ GenerativeModel model_name effective_config effective_safety =
                       Some cause
                    \/ count_tokens key "ping" = Some cause))).
Proof using Type.
  clear run attempt the_prompt.
  cbv zeta. split.
  - intros [-> | (key & -> & Hs)]; [done |].
    unfold check, validate_google_api_key. rewrite Hs.
    by destruct (truthy key).
  - intros key -> Hs. rewrite (check_unfold key Hs).
    rewrite trace_try_except_wrap, outcome_try_except_wrap.
    destruct (probe_cases key)
      as [(c & Hc & ->)
         | (Hc & [(c & Hm & ->) | (Hm & [(c & Ht & ->) | (Ht & ->)])])];
      unfold trace, outcome; simpl.
    + split; [done |]. split; [intros p [H | []]; discriminate H |].
      split; [split; [done | intros (H & _); by rewrite Hc in H] |].
      split; [done |]. intros e [= <-]. exists c. eauto.
    + split; [done |]. split; [intros p [H | [H | []]]; discriminate H |].
      split; [split; [done | intros (_ & H & _); by rewrite Hm in H] |].
      split; [done |]. intros e [= <-]. exists c. eauto.
    + split; [done |].
      split; [intros p [H | [H | [H | []]]]; discriminate H |].
      split; [split; [done | intros (_ & _ & H); by rewrite Ht in H] |].
      split; [done |]. intros e [= <-]. exists c. eauto.
    + split; [done |].
      split; [intros p [H | [H | [H | []]]]; discriminate H |].
      split; [by split |]. split; [done |]. intros e H. discriminate H.
Qed.

(** X8: the check of a key and the generation of a question construct the
    model alike: after configuring the library with the key, both make the
    same call, with the model name of the environment, the merged
    generation configuration and the same safety settings; these are the
    caller's dictionary as a whole when it is not empty, and the module-level
    default when it is empty or [None]. *)
Theorem validation_and_generation_construct_alike (key : string) :
  strip key <> "" ->
  configure key = None ->
  let ev_model :=
    EvGenerativeModel (default DEFAULT_GEMINI_MODEL env_GEMINI_MODEL)
      (_merge_generation_config generation_config)
      (match safety_settings with
       | Some d => if decide (d = ∅) then default_safety else d
       | None => default_safety
       end) in
  trace (check (Some key)) !! 1%nat = Some ev_model
  /\ trace (run (Some key)) !! 1%nat = Some ev_model.
Proof.
  intros Hs Hc. cbv zeta.
  change (EvGenerativeModel _ _ _)
    with (EvGenerativeModel model_name effective_config effective_safety).
  split.
  - rewrite (check_unfold key Hs), trace_try_except_wrap.
    destruct (probe_cases key)
      as [(c & Hc' & _)
         | (_ & [(c & _ & ->) | (_ & [(c & _ & ->) | (_ & ->)])])];
      [by rewrite Hc in Hc' | done..].
  - destruct (run_cases key (strip_nonblank_truthy key Hs)) as [-> _].
    destruct (attempt_cases key)
      as [(c & Hc' & _)
         | (_ & [(e & _ & ->)
                | (_ & [(e & _ & ->)
                       | (prompt & _ & [(e & _ & ->) | (r & _ & ->)])])])];
      [by rewrite Hc in Hc' | done..].
Qed.

(** Three facts on one call, for the loop of the practice page. *)
Lemma generate_question_success_inv (api_key : option string) (q : string) :
  outcome (run api_key) = inr q ->
  exists key prompt,
    api_key = Some key
    /\ truthy key = true
    /\ the_prompt = inr prompt
    /\ trace (run api_key) =
       [EvConfigure key;
        EvGenerativeModel model_name effective_config effective_safety;
        EvGenerateContent prompt]
    /\ endswith q "?" = true
    /\ strip q = q.
Proof.
  intros Hq.
  destruct (api_key_truthy api_key) eqn:E;
    [| by rewrite (run_falsy api_key E) in Hq].
  destruct api_key as [key|]; [| done]. simpl in E.
  destruct (run_cases key E) as [Ht Ho]. rewrite Ho in Hq. rewrite Ht.
  destruct (attempt_cases key)
    as [(e & _ & Ha)
       | (_ & [(e & _ & Ha)
              | (_ & [(e & _ & Ha)
                     | (prompt & Hp & [(e & _ & Ha) | (r & Hg & Ha)])])])];
    rewrite Ha in Hq |- *; try discriminate Hq.
  cbv zeta in Hq. unfold outcome in Hq. simpl in Hq.
  destruct (truthy (_extract_text_from_response (Some r))); [| discriminate Hq].
  injection Hq as <-. exists key, prompt.
  repeat split; try done;
    [apply clean_question_ends_with_mark | apply clean_question_stripped].
Qed.

Lemma generate_question_failure_inv (api_key : option string) (e : exn) :
  outcome (run api_key) = inl e ->
  (api_key_truthy api_key = false
   /\ trace (run api_key) = []
   /\ e = ValueError
            "GOOGLE_API_KEY missing. Please provide it via the .env file or settings.")
  \/ (api_key_truthy api_key = true
      /\ exists m,
           e = RuntimeError ("Gemini question generation failed: " +:+ m)).
Proof.
  intros He.
  destruct (api_key_truthy api_key) eqn:E.
  - right. split; [done |].
    destruct api_key as [key|]; [| done]. simpl in E.
    destruct (run_cases key E) as [_ Ho]. rewrite Ho in He.
    destruct (outcome (attempt key)) as [c|]; [| discriminate He].
    injection He as <-. by eexists.
  - left. rewrite (run_falsy api_key E) in He |- *.
    split; [done |]. split; [done |]. by injection He as <-.
Qed.

Lemma generate_question_trace_length (api_key : option string) :
  length (trace (run api_key)) <= 3.
Proof.
  destruct (api_key_truthy api_key) eqn:E;
    [| rewrite (run_falsy api_key E); simpl; lia].
  destruct api_key as [key|]; [| done]. simpl in E.
  destruct (run_cases key E) as [-> _].
  destruct (attempt_cases key)
    as [(e & _ & ->)
       | (_ & [(e & _ & ->)
              | (_ & [(e & _ & ->)
                     | (prompt & Hp & [(e & _ & ->) | (r & Hg & ->)])])])];
    simpl; lia.
Qed.

End MoreGenerateQuestionFacts.

Section MoreGenerateQuestionWitnesses.

Import PyStr PromptStrategies LlmUtils Scenarios.

Lemma generate_question_result_shape_witness :
  outcome
    (generate_question None configure_ok model_ok labelled_answer
       DEFAULT_SAFETY_SETTINGS "Software Engineer" "" "Coding" "Professional"
       None (Some "secret-key") None None "zero_shot") = inr "What is X?"
  /\ endswith "What is X?" "?" = true
  /\ strip "What is X?" = "What is X?"
  /\ "What is X?" <> "".
Proof.
  assert (H : outcome
                (generate_question None configure_ok model_ok labelled_answer
                   DEFAULT_SAFETY_SETTINGS "Software Engineer" "" "Coding"
                   "Professional" None (Some "secret-key") None None "zero_shot") =
              inr "What is X?") by reflexivity.
  split; [exact H |].
  destruct (generate_question_result_shape None configure_ok model_ok
              labelled_answer DEFAULT_SAFETY_SETTINGS "Software Engineer" ""
              "Coding" "Professional" None None None "zero_shot"
              (Some "secret-key") "What is X?" H) as (H1 & H2 & H3 & _).
  split; [exact H1 |]. split; [exact H2 | exact H3].
Defined.

Lemma generate_question_failure_cause_witness :
  outcome
    (generate_question None configure_ok model_ok
       (fun _ _ _ _ => inl (OtherError "quota exceeded"))
       DEFAULT_SAFETY_SETTINGS "Software Engineer" "" "Coding" "Professional"
       None (Some "secret-key") None None "zero_shot") =
  inl (RuntimeError "Gemini question generation failed: quota exceeded")
  /\ exists cause,
       RuntimeError "Gemini question generation failed: quota exceeded" =
       RuntimeError ("Gemini question generation failed: " +:+ exn_message cause).
Proof.
  split; [reflexivity |].
  destruct (generate_question_failure_cause None configure_ok model_ok
              (fun _ _ _ _ => inl (OtherError "quota exceeded"))
              DEFAULT_SAFETY_SETTINGS "Software Engineer" "" "Coding"
              "Professional" None None None "zero_shot" "secret-key"
              (RuntimeError "Gemini question generation failed: quota exceeded"))
    as (cause & H & _); [reflexivity | reflexivity |].
  exists cause. exact H.
Defined.

Lemma generate_question_unknown_strategy_witness :
  outcome
    (generate_question None configure_ok model_ok labelled_answer
       DEFAULT_SAFETY_SETTINGS "Software Engineer" "" "Coding" "Professional"
       None (Some "secret-key") None None "tree_of_thought") =
  inl (RuntimeError
         ("Gemini question generation failed: Unknown strategy '" +:+
          "tree_of_thought" +:+
          "'. Available strategies: zero_shot, few_shot, chain_of_thought, role_based, structured_output, socratic")).
Proof.
  destruct (generate_question_unknown_strategy None configure_ok model_ok
              labelled_answer DEFAULT_SAFETY_SETTINGS "Software Engineer" ""
              "Coding" "Professional" None None None "tree_of_thought"
              "secret-key") as (_ & _ & H).
  - reflexivity.
  - unfold strategy_keys. simpl. intros H.
    repeat (destruct H as [H | H]; [discriminate H |]). exact H.
  - apply H; reflexivity.
Defined.

Lemma validation_and_generation_construct_alike_witness :
  trace (validate_google_api_key None configure_ok model_ok tokens_ok
           DEFAULT_SAFETY_SETTINGS (Some "secret-key") None (Some ∅)) !! 1%nat =
  Some (EvGenerativeModel "gemini-2.5-pro" (_merge_generation_config None)
          DEFAULT_SAFETY_SETTINGS)
  /\ trace (generate_question None configure_ok model_ok labelled_answer
              DEFAULT_SAFETY_SETTINGS "Software Engineer" "" "Coding"
              "Professional" None (Some "secret-key") None (Some ∅)
              "zero_shot") !! 1%nat =
     Some (EvGenerativeModel "gemini-2.5-pro" (_merge_generation_config None)
             DEFAULT_SAFETY_SETTINGS).
Proof.
  destruct (validation_and_generation_construct_alike None configure_ok model_ok
              labelled_answer tokens_ok DEFAULT_SAFETY_SETTINGS
              "Software Engineer" "" "Coding" "Professional" None None (Some ∅)
              "zero_shot" "secret-key") as [H1 H2].
  - discriminate.
  - reflexivity.
  - split; [exact H1 | exact H2].
Defined.

Lemma validate_google_api_key_outcomes_witness :
  validate_google_api_key None configure_ok model_ok tokens_ok
    DEFAULT_SAFETY_SETTINGS (Some "  ") None None =
  ([], inl (ValueError
              "GOOGLE_API_KEY missing. Provide it via .env before generating questions."))
  /\ outcome (validate_google_api_key None configure_ok model_ok tokens_ok
                DEFAULT_SAFETY_SETTINGS (Some "secret-key") None None) = inr tt.
Proof.
  split.
  - destruct (validate_google_api_key_outcomes None configure_ok model_ok
                tokens_ok DEFAULT_SAFETY_SETTINGS None None (Some "  ")) as [H _].
    apply H. right. by exists "  ".
  - destruct (validate_google_api_key_outcomes None configure_ok model_ok
                tokens_ok DEFAULT_SAFETY_SETTINGS None None (Some "secret-key"))
      as [_ H].
    destruct (H "secret-key" eq_refl ltac:(discriminate)) as (_ & _ & [_ Hok] & _).
    apply Hok. split; [reflexivity |]. split; reflexivity.
Defined.

End MoreGenerateQuestionWitnesses.

Section ClassificationFacts.

Import LlmUtils.

Lemma finish_reason_collected (cands : list Candidate) (c : Candidate) (r : string) :
  In c cands -> finish_reason c = Some r -> In r (collect_finish_reasons cands).
Proof.
  intros Hc Hr. unfold collect_finish_reasons. apply in_flat_map.
  exists c. split; [done |]. rewrite Hr. by left.
Qed.

Lemma blocked_collected (cands : list Candidate) (c : Candidate) (rating : SafetyRating) :
  In c cands -> In rating (safety_ratings c) -> blocked rating = true ->
  In ("BLOCKED: " +:+ category rating) (collect_finish_reasons cands).
Proof.
  intros Hc Hr Hb. unfold collect_finish_reasons. apply in_flat_map.
  exists c. split; [done |]. apply in_or_app. right.
  apply (in_map (fun rating => "BLOCKED: " +:+ category rating)).
  apply list_elem_of_In, list_elem_of_filter. split; [done |].
  by apply list_elem_of_In.
Qed.

Lemma summary_holds (reasons : list string) (r x : string) :
  In r reasons -> str_in x r = true ->
  str_in x match reasons with
           | [] => "No finish reason provided"
           | _ :: _ => join ", " reasons
           end = true.
Proof.
  intros Hin Hx. destruct reasons as [|y l]; [done |].
  apply (str_in_trans x r); [done | by apply str_in_join].
Qed.

(** X6: how an answer without text is classified.  A finish reason of any
    candidate that holds MAX_TOKENS in any letter case gives the token-limit
    error, also when a rating is blocked; a blocked safety rating never gives
    the generic error, and gives the safety error when the reasons hold
    neither MAX_TOKENS nor the digit 2; with no reason and no blocked rating
    the generic error says that no finish reason was provided. *)
Theorem empty_response_error_classes (response : Response) :
  let summary := join ", " (collect_finish_reasons (candidates response)) in
  let token_limit :=
    RuntimeError
      ("Response exceeded token limit. " +:+
       "Try increasing 'Max Tokens' in the LLM Generation Settings (recommended: 1024-2048).") in
  let safety :=
    RuntimeError
      ("Content blocked by Gemini safety filters. " +:+
       "Try adjusting your safety settings to 'Block None' or 'Block Few' in the app settings.") in
  (forall c r,
     In c (candidates response) -> finish_reason c = Some r ->
     str_in "MAX_TOKENS" (upper r) = true ->
     empty_response_error response = token_limit)
  /\ (forall c rating,
        In c (candidates response) -> In rating (safety_ratings c) ->
        blocked rating = true ->
        (empty_response_error response = token_limit
         \/ empty_response_error response = safety)
        /\ (str_in "MAX_TOKENS" (upper summary) = false ->
            str_in "2" summary = false ->
            empty_response_error response = safety))
  /\ (collect_finish_reasons (candidates response) = [] ->
      empty_response_error response =
      RuntimeError
        ("Gemini returned an empty or invalid response. " +:+
         "Finish reasons: No finish reason provided")).
Proof.
  cbv zeta. split; [| split].
  - intros c r Hc Hr Hm. unfold empty_response_error. cbv zeta.
    pose proof (finish_reason_collected _ c r Hc Hr) as Hin.
    destruct (collect_finish_reasons (candidates response)) as [|y l] eqn:E;
      [done |].
    assert (H : str_in "MAX_TOKENS" (upper (join ", " (y :: l))) = true).
    { apply (str_in_trans _ (upper r)); [done |].
      apply str_in_upper. by apply str_in_join. }
    by rewrite H.
  - intros c rating Hc Hr Hb.
    pose proof (blocked_collected _ c rating Hc Hr Hb) as Hin.
    unfold empty_response_error. cbv zeta.
    destruct (collect_finish_reasons (candidates response)) as [|y l] eqn:E;
      [done |].
    assert (H : str_in "BLOCKED" (upper (join ", " (y :: l))) = true).
    { apply (str_in_trans _ (upper ("BLOCKED: " +:+ category rating))).
      - rewrite upper_append. apply (str_in_here "BLOCKED" (": " +:+ _)).
      - apply str_in_upper. by apply str_in_join. }
    assert (Hex : existsb (fun r => str_in r (upper (join ", " (y :: l))))
                    ["SAFETY"; "BLOCKED"] = true).
    { cbn [existsb]. by rewrite H, !orb_true_r. }
    rewrite Hex. split.
    + destruct (str_in "MAX_TOKENS" _ || str_in "2" _); [by left | by right].
    + intros H1 H2. by rewrite H1, H2.
  - intros E. unfold empty_response_error. by rewrite E.
Qed.

End ClassificationFacts.

Section ClassificationWitnesses.

Import PyStr LlmUtils.

Lemma empty_response_error_classes_witness :
  empty_response_error
    {| text := TextValue None;
       candidates := [ {| content := None;
                          finish_reason := Some "FinishReason.max_tokens";
                          safety_ratings := [] |} ] |} =
  RuntimeError
    ("Response exceeded token limit. " +:+
     "Try increasing 'Max Tokens' in the LLM Generation Settings (recommended: 1024-2048).").
Proof.
  destruct (empty_response_error_classes
              {| text := TextValue None;
                 candidates := [ {| content := None;
                                    finish_reason := Some "FinishReason.max_tokens";
                                    safety_ratings := [] |} ] |}) as [H _].
  apply (H {| content := None;
              finish_reason := Some "FinishReason.max_tokens";
              safety_ratings := [] |} "FinishReason.max_tokens");
    [by left | reflexivity | reflexivity].
Defined.

End ClassificationWitnesses.

(** ** Loading the questions *)

Section LoadingFacts.

Import PromptStrategies LlmUtils Session PracticeApp PracticeFlow.

#[local] Arguments bind : simpl never.
#[local] Arguments trace : simpl never.
#[local] Arguments outcome : simpl never.
#[local] Arguments generate_question : simpl never.

Variable env_GEMINI_MODEL : option string.
Variable configure : nat -> string -> option exn.
Variable GenerativeModel :
  nat -> string -> gmap string Q -> gmap HarmCategory HarmBlockThreshold ->
  option exn.
Variable generate_content :
  nat -> string -> gmap string Q -> gmap HarmCategory HarmBlockThreshold ->
  string -> exn + Response.
Variable default_safety : gmap HarmCategory HarmBlockThreshold.

Variables role company round_type difficulty : string.
Variable api_key : option string.
Variable generation_config : option (gmap string (option Q)).
Variable safety_settings : option (gmap HarmCategory HarmBlockThreshold).
Variable prompt_strategy : string.

Let loop (n i : nat) (questions : list string) : M (list string) :=
  generate_questions env_GEMINI_MODEL configure GenerativeModel generate_content
    default_safety role company round_type difficulty api_key generation_config
    safety_settings prompt_strategy n i questions.

Let one (i : nat) (questions : list string) : M string :=
  generate_question env_GEMINI_MODEL (configure i) (GenerativeModel i)
    (generate_content i) default_safety role company round_type difficulty
    (Some questions) api_key generation_config safety_settings prompt_strategy.

Let load (store : gmap string value) : loading_result :=
  load_questions env_GEMINI_MODEL configure GenerativeModel generate_content
    default_safety role company round_type difficulty api_key generation_config
    safety_settings prompt_strategy store.

Lemma loop_S (n i : nat) (questions : list string) :
  loop (S n) i questions =
  bind (one i questions) (fun question => loop n (S i) (questions ++ [question])).
Proof. reflexivity. Qed.

Lemma loop_success (n : nat) :
  forall (i : nat) (questions result : list string),
    outcome (loop n i questions) = inr result ->
    exists new,
      result = questions ++ new
      /\ length new = n
      /\ Forall well_formed_question new
      /\ length (trace (loop n i questions)) = 3 * n
      /\ forall j,
           j < n ->
           exists prompt,
             get_prompt_by_strategy prompt_strategy role company round_type
               difficulty (Some (take (length questions + j) result)) = inr prompt
             /\ trace (loop n i questions) !! (3 * j + 2) =
                Some (EvGenerateContent prompt).
Proof.
  induction n as [|n IH]; intros i questions result Hr.
  - injection Hr as <-. exists []. rewrite app_nil_r.
    repeat split; try done. intros j Hj. lia.
  - rewrite loop_S in Hr |- *. rewrite outcome_bind in Hr. rewrite trace_bind.
    destruct (outcome (one i questions)) as [e | q] eqn:Hq; [discriminate Hr |].
    destruct (generate_question_success_inv _ _ _ _ _ _ _ _ _ _ _ _ _ _ _ Hq)
      as (key & prompt & _ & _ & Hp & Ht & Hend & Hstrip).
    cbv beta in Ht. fold (one i questions) in Ht. rewrite Ht.
    destruct (IH _ _ _ Hr) as (new & -> & Hlen & Hwf & Htl & Hreq).
    exists (q :: new). rewrite <- !(List.app_assoc questions [q] new). simpl app.
    split; [done |]. split; [simpl; lia |].
    split; [by constructor |]. split; [simpl; lia |].
    intros [|j] Hj.
    + exists prompt. rewrite Nat.add_0_r, take_app_length. by split.
    + destruct (Hreq j ltac:(lia)) as (p & Hp' & Hev).
      exists p. split.
      * rewrite <- Hp'. rewrite <- (List.app_assoc questions [q] new).
        rewrite length_app. simpl. do 3 f_equal. lia.
      * replace (3 * S j + 2) with (3 + (3 * j + 2)) by lia. exact Hev.
Qed.

Lemma loop_trace_length (n : nat) :
  forall (i : nat) (questions : list string),
    length (trace (loop n i questions)) <= 3 * n.
Proof.
  induction n as [|n IH]; intros i questions; [simpl; lia |].
  rewrite loop_S, trace_bind, length_app.
  pose proof (generate_question_trace_length env_GEMINI_MODEL (configure i)
                (GenerativeModel i) (generate_content i) default_safety role
                company round_type difficulty (Some questions) generation_config
                safety_settings prompt_strategy api_key) as H1.
  cbv beta in H1. fold (one i questions) in H1.
  destruct (outcome (one i questions)) as [e | q].
  - change (length (@nil event)) with 0. lia.
  - specialize (IH (S i) (questions ++ [q])). lia.
Qed.

Lemma loop_failure (n : nat) :
  forall (i : nat) (questions : list string) (e : exn),
    outcome (loop n i questions) = inl e ->
    (api_key_truthy api_key = false
     /\ trace (loop n i questions) = []
     /\ e = ValueError
              "GOOGLE_API_KEY missing. Please provide it via the .env file or settings.")
    \/ (api_key_truthy api_key = true
        /\ exists m,
             e = RuntimeError ("Gemini question generation failed: " +:+ m)).
Proof.
  induction n as [|n IH]; intros i questions e He; [discriminate He |].
  rewrite loop_S in He |- *. rewrite outcome_bind in He. rewrite trace_bind.
  destruct (outcome (one i questions)) as [c | q] eqn:Hq.
  - injection He as <-.
    destruct (generate_question_failure_inv _ _ _ _ _ _ _ _ _ _ _ _ _ _ _ Hq)
      as [(Hk & Ht & ->) | (Hk & m & ->)]; [left | right; eauto].
    cbv beta in Ht. fold (one i questions) in Ht. by rewrite Ht.
  - destruct (IH _ _ _ He) as [(Hk & _ & _) | H]; [| by right].
    destruct (generate_question_success_inv _ _ _ _ _ _ _ _ _ _ _ _ _ _ _ Hq)
      as (key & _ & -> & Hkey & _). simpl in Hk. congruence.
Qed.

(** X9: when the five calls succeed the loop gives exactly five questions,
    each ending with "?" and free of surrounding white space, after fifteen
    calls to the library; the request for the question at position [j] is
    made with the prompt that lists exactly the [j] questions generated
    before it. *)
Theorem generate_questions_five (result : list string) :
  outcome (loop 5 0 []) = inr result ->
  length result = 5
  /\ Forall well_formed_question result
  /\ length (trace (loop 5 0 [])) = 15
  /\ forall j,
       j < 5 ->
       exists prompt,
         get_prompt_by_strategy prompt_strategy role company round_type
           difficulty (Some (take j result)) = inr prompt
         /\ trace (loop 5 0 []) !! (3 * j + 2) = Some (EvGenerateContent prompt).
Proof.
  intros Hr.
  destruct (loop_success 5 0 [] result Hr) as (new & -> & Hlen & Hwf & Ht & Hreq).
  simpl app. split; [done |]. split; [done |]. split; [done |].
  intros j Hj. destruct (Hreq j Hj) as (p & Hp & Hev). by exists p.
Qed.

Lemma load_unfold (store : gmap string value) :
  load store =
  match outcome (loop 5 0 []) with
  | inr questions =>
      {| loaded_store := <["questions" := VStrList questions]> store;
         shown := [];
         library_calls := trace (loop 5 0 []) |}
  | inl (ValueError e) =>
      {| loaded_store := <["questions" := VStrList []]> store;
         shown :=
           [ StError ("‚ùå Content safety violation: " +:+ e);
             StInfo "Please adjust your safety settings or try again." ];
         library_calls := trace (loop 5 0 []) |}
  | inl e =>
      {| loaded_store := <["questions" := VStrList []]> store;
         shown :=
           if str_in "api key" (lower (exn_message e))
              || str_in "api_key" (lower (exn_message e))
              || str_in "finish reasons: 3" (lower (exn_message e))
           then [ StError "‚ùå API Error: Invalid or missing Google API key";
                  StInfo "Please check your API key in the settings and try again." ]
           else [ StError ("‚ùå An error occurred while generating questions: " +:+ exn_message e) ];
         library_calls := trace (loop 5 0 []) |}
  end.
Proof.
  unfold load, load_questions, loop, outcome, trace.
  by destruct (generate_questions _ _ _ _ _ _ _ _ _ _ _ _ _ _ _ _)
    as [calls [[e | e | e] | qs]].
Qed.

(** X10: after the loading step the store holds either five questions, with
    nothing shown, or no question at all, with an error shown first: a
    failure at any of the five calls drops the questions generated before
    it.  No other key of the store is touched, and at most fifteen calls are
    made to the library. *)
Theorem load_questions_all_or_nothing (store : gmap string value) :
  (exists questions,
     loaded_store (load store) !! "questions" = Some (VStrList questions)
     /\ ((length questions = 5
          /\ Forall well_formed_question questions
          /\ shown (load store) = [])
         \/ (questions = []
             /\ exists msg rest, shown (load store) = StError msg :: rest)))
  /\ (forall key, key <> "questions" ->
                  loaded_store (load store) !! key = store !! key)
  /\ length (library_calls (load store)) <= 15.
Proof.
  rewrite load_unfold.
  pose proof (loop_trace_length 5 0 []) as Hlen.
  change (3 * 5) with 15 in Hlen.
  remember (trace (loop 5 0 [])) as calls eqn:Hcalls.
  destruct (outcome (loop 5 0 [])) as [e | qs] eqn:Ho.
  - split; [| split].
    + exists []. split; [destruct e; apply lookup_insert_eq |].
      right. split; [done |].
      destruct e; simpl; try by eauto.
      all: destruct (_ || _); eauto.
    + intros key Hk. destruct e; simpl; by rewrite lookup_insert_ne.
    + by destruct e.
  - destruct (loop_success 5 0 [] qs Ho) as (new & -> & H5 & Hwf & _).
    split; [| split].
    + exists ([] ++ new). split; [apply lookup_insert_eq |]. by left.
    + intros key Hk. simpl. by rewrite lookup_insert_ne.
    + done.
Qed.

(** X11: which error the loading step shows.  Without an API key no call is
    made and the message of the [ValueError] handler is shown, with the
    missing-key text.  With a key every failure is the wrapped
    [RuntimeError]; it is shown as an API key error when its message holds
    "api key" in any letter case, and otherwise with its own message. *)
Theorem load_questions_errors (store : gmap string value) :
  (api_key_truthy api_key = false ->
   library_calls (load store) = []
   /\ shown (load store) =
      [ StError ("‚ùå Content safety violation: " +:+
                 "GOOGLE_API_KEY missing. Please provide it via the .env file or settings.");
        StInfo "Please adjust your safety settings or try again." ])
  /\ (api_key_truthy api_key = true ->
      forall e,
        outcome (loop 5 0 []) = inl e ->
        exists m,
          e = RuntimeError ("Gemini question generation failed: " +:+ m)
          /\ (forall word,
                lower word = "api key" -> str_in word m = true ->
                shown (load store) =
                [ StError "‚ùå API Error: Invalid or missing Google API key";
                  StInfo "Please check your API key in the settings and try again." ])
          /\ (str_in "api key" (lower (exn_message e)) = false ->
              str_in "api_key" (lower (exn_message e)) = false ->
              str_in "finish reasons: 3" (lower (exn_message e)) = false ->
              shown (load store) =
              [ StError ("‚ùå An error occurred while generating questions: " +:+ exn_message e) ])).
Proof.
  split.
  - intros Hk. rewrite load_unfold.
    assert (Ho : outcome (loop 5 0 []) =
                 inl (ValueError
                        "GOOGLE_API_KEY missing. Please provide it via the .env file or settings.")
                 /\ trace (loop 5 0 []) = []).
    { rewrite loop_S, outcome_bind, trace_bind.
      unfold one, generate_question. by rewrite Hk. }
    destruct Ho as [-> Ht]. by rewrite <- Ht.
  - intros Hk e He. rewrite load_unfold, He.
    destruct (loop_failure 5 0 [] e He) as [(Hk' & _) | (_ & m & ->)];
      [congruence |].
    exists m. split; [done |]. split.
    + intros word Hw Hin. simpl exn_message.
      assert (H : str_in "api key"
                    (lower ("Gemini question generation failed: " +:+ m)) = true).
      { rewrite <- Hw. apply str_in_lower. by apply str_in_skip. }
      by rewrite H.
    + intros H1 H2 H3. by rewrite H1, H2, H3.
Qed.

End LoadingFacts.

Section LoadingWitnesses.

Import PyStr PromptStrategies LlmUtils PracticeFlow Scenarios.

Lemma generate_questions_five_witness :
  let result := ["What is X?"; "What is X?"; "What is X?"; "What is X?"; "What is X?"] in
  let calls :=
    trace (generate_questions None (fun _ => configure_ok) (fun _ => model_ok)
             (fun _ => labelled_answer) DEFAULT_SAFETY_SETTINGS
             "Software Engineer" "" "Coding" "Professional" (Some "secret-key")
             None None "zero_shot" 5 0 []) in
  length result = 5
  /\ Forall well_formed_question result
  /\ length calls = 15
  /\ calls !! 14%nat =
     Some (EvGenerateContent
             (zero_shot_prompt "Software Engineer" "" "Coding" "Professional"
                (Some (take 4 result)))).
Proof.
  cbv zeta.
  destruct (generate_questions_five None (fun _ => configure_ok)
              (fun _ => model_ok) (fun _ => labelled_answer)
              DEFAULT_SAFETY_SETTINGS "Software Engineer" "" "Coding"
              "Professional" (Some "secret-key") None None "zero_shot"
              ["What is X?"; "What is X?"; "What is X?"; "What is X?"; "What is X?"])
    as (H1 & H2 & H3 & H4); [reflexivity |].
  split; [exact H1 |]. split; [exact H2 |]. split; [exact H3 |].
  destruct (H4 4%nat ltac:(lia)) as (prompt & Hp & Hev).
  injection Hp as <-. exact Hev.
Defined.

Lemma load_questions_errors_witness :
  library_calls
    (load_questions None (fun _ => configure_ok) (fun _ => model_ok)
       (fun _ => labelled_answer) DEFAULT_SAFETY_SETTINGS "Software Engineer" ""
       "Coding" "Professional" None None None "zero_shot" ∅) = [].
Proof.
  destruct (load_questions_errors None (fun _ => configure_ok)
              (fun _ => model_ok) (fun _ => labelled_answer)
              DEFAULT_SAFETY_SETTINGS "Software Engineer" "" "Coding"
              "Professional" None None None "zero_shot" ∅) as [H _].
  destruct (H eq_refl) as [Hc _]. exact Hc.
Defined.

End LoadingWitnesses.

(** ** Navigation *)

Section NavigationFacts.

Import Session PracticeApp PracticeFlow.

Lemma list_index_in_range (questions : list string) (index : Z) :
  (0 <= index < Z.of_nat (length questions))%Z ->
  is_Some (list_index questions index).
Proof.
  intros [H0 H1]. unfold list_index.
  destruct (Z.leb_spec 0 index); [| lia].
  apply lookup_lt_is_Some. lia.
Qed.

(** X12: from a position inside the list of questions every button leads to
    a position inside the list, at most one step away, where a question is
    found; Previous and Next are the only buttons that move, and a button
    that is disabled or not on the page does nothing at all. *)
Theorem navigation_stays_in_range (questions : list string)
    (current_index : Z) (pressed : option button) (store : gmap string value) :
  let total := Z.of_nat (length questions) in
  let index' := next_index current_index total pressed in
  (0 <= current_index < total)%Z ->
  (0 <= index' < total)%Z
  /\ (Z.abs (index' - current_index) <= 1)%Z
  /\ is_Some (list_index questions index')
  /\ (index' <> current_index ->
      (pressed = Some Previous \/ pressed = Some Next)
      /\ handle_buttons current_index total pressed store =
         <["current_question_index" := VInt index']> store)
  /\ (forall b, pressed = Some b ->
                button_enabled current_index total b = false ->
                handle_buttons current_index total pressed store = store
                /\ index' = current_index).
Proof.
  cbv zeta. intros Hr.
  set (total := Z.of_nat (length questions)) in *.
  assert (Hcases :
    (next_index current_index total pressed = current_index
     /\ (forall b, pressed = Some b ->
                   button_enabled current_index total b = false ->
                   handle_buttons current_index total pressed store = store))
    \/ (pressed = Some Previous /\ current_index <> 0%Z
        /\ next_index current_index total pressed = (current_index - 1)%Z
        /\ handle_buttons current_index total pressed store =
           <["current_question_index" := VInt (current_index - 1)]> store)
    \/ (pressed = Some Next /\ (current_index < total - 1)%Z
        /\ next_index current_index total pressed = (current_index + 1)%Z
        /\ handle_buttons current_index total pressed store =
           <["current_question_index" := VInt (current_index + 1)]> store)).
  { unfold next_index, handle_buttons, display_navigation_buttons, button_enabled.
    destruct pressed as [[| | |]|]; simpl.
    - destruct (Z.eqb_spec current_index 0); simpl.
      + left. split; [done |]. by intros b [= <-].
      + right. left. by repeat split.
    - destruct (Z.leb_spec (total - 1) current_index); simpl.
      + left. split; [done |]. by intros b [= <-].
      + right. right. by repeat split.
    - left. split; [done |]. by intros b [= <-].
    - left. split; [done |]. intros b [= <-].
      by destruct (current_index <? total - 1)%Z.
    - left. split; [done |]. by intros b [=]. }
  destruct Hcases as [[-> Hd] | [(-> & Hn & -> & Hh) | (-> & Hn & -> & Hh)]].
  - split; [done |]. split; [lia |]. split; [by apply list_index_in_range |].
    split; [done |]. intros b Hb He. split; [by apply (Hd b) | done].
  - split; [lia |]. split; [lia |].
    split; [apply list_index_in_range; fold total; lia |].
    split; [intros _; split; [by left | done] |].
    intros b [= <-] He. simpl in He. apply negb_false_iff in He.
    by apply Z.eqb_eq in He.
  - split; [lia |]. split; [lia |].
    split; [apply list_index_in_range; fold total; lia |].
    split; [intros _; split; [by right | done] |].
    intros b [= <-] He. simpl in He. apply negb_false_iff in He.
    apply Z.leb_le in He. lia.
Qed.

Lemma navigation_stays_in_range_witness :
  next_index 1 3 (Some Next) = 2%Z
  /\ is_Some (list_index ["a?"; "b?"; "c?"] (next_index 1 3 (Some Next))).
Proof.
  destruct (navigation_stays_in_range ["a?"; "b?"; "c?"] 1 (Some Next) ∅)
    as (_ & _ & Hq & _); [simpl; lia |].
  split; [reflexivity | exact Hq].
Defined.

(** X13: the interview can be finished from the last question only, where
    the Finish button stands in the place of New Question and Next is
    disabled; finishing sets the finished flag and turns both audio flags
    off without moving; the New Question button changes nothing in the
    store. *)
Theorem finish_and_new_question (current_index total : Z)
    (pressed : option button) (store : gmap string value) :
  let store' := handle_buttons current_index total pressed store in
  (button_enabled current_index total Finish_Interview =
   negb (button_enabled current_index total New_Question))
  /\ (button_enabled current_index total Finish_Interview = true ->
      button_enabled current_index total Next = false)
  /\ (store !! "finished" = None -> is_Some (store' !! "finished") ->
      pressed = Some Finish_Interview
      /\ (total - 1 <= current_index)%Z
      /\ store' !! "finished" = Some (VBool true)
      /\ store' !! "audio_mode_enabled" = Some (VBool false)
      /\ store' !! "audio_checkbox" = Some (VBool false)
      /\ store' !! "current_question_index" = store !! "current_question_index")
  /\ (pressed = Some New_Question -> store' = store).
Proof.
  cbv zeta. split; [done |]. split.
  { simpl. intros H. apply negb_true_iff, Z.ltb_ge in H.
    apply negb_false_iff, Z.leb_le. lia. }
  split.
  - intros Hnone Hsome.
    unfold handle_buttons, display_navigation_buttons, button_enabled in *.
    destruct pressed as [[| | |]|]; simpl in *.
    + destruct (current_index =? 0)%Z; simpl in *;
        rewrite ?lookup_insert_ne, Hnone in Hsome by done; by destruct Hsome.
    + destruct (total - 1 <=? current_index)%Z; simpl in *;
        rewrite ?lookup_insert_ne, Hnone in Hsome by done; by destruct Hsome.
    + rewrite Hnone in Hsome. by destruct Hsome.
    + destruct (Z.ltb_spec current_index (total - 1)); simpl in *.
      * rewrite Hnone in Hsome. by destruct Hsome.
      * split; [done |]. split; [lia |]. clear Hsome.
        split; [by rewrite !lookup_insert_ne, lookup_insert_eq by done |].
        split; [by rewrite lookup_insert_ne, lookup_insert_eq by done |].
        split; [by rewrite lookup_insert_eq |].
        by rewrite !lookup_insert_ne by done.
    + rewrite Hnone in Hsome. by destruct Hsome.
  - intros ->. unfold handle_buttons, display_navigation_buttons, button_enabled.
    simpl. by destruct (current_index <? total - 1)%Z.
Qed.

Lemma finish_and_new_question_witness :
  handle_buttons 4 5 (Some Finish_Interview) ∅ !! "finished" = Some (VBool true)
  /\ handle_buttons 2 5 (Some New_Question) ∅ = ∅.
Proof.
  destruct (finish_and_new_question 4 5 (Some Finish_Interview) ∅)
    as (_ & _ & Hf & _).
  destruct (finish_and_new_question 2 5 (Some New_Question) ∅)
    as (_ & _ & _ & Hn).
  split; [| exact (Hn eq_refl)].
  apply Hf; [reflexivity | by eexists].
Defined.

End NavigationFacts.

(** ** The finished state and the timer *)

Section SnapshotFacts.

Import Session PracticeApp PracticeFlow.

Lemma lookup_foldl_insert (g : Z -> value) (l : list nat) :
  forall (acc : gmap Z value) (k : Z),
    foldl (fun (snap : gmap Z value) (idx : nat) =>
             <[Z.of_nat idx := g (Z.of_nat idx)]> snap) acc l !! k =
    if bool_decide (k ∈ (Z.of_nat <$> l)) then Some (g k) else acc !! k.
Proof.
  induction l as [|i l IH]; intros acc k; [done |].
  simpl foldl. rewrite IH. rewrite fmap_cons.
  destruct (decide (k ∈ Z.of_nat <$> l)) as [Hin | Hnin].
  - rewrite !bool_decide_eq_true_2; [done | by apply list_elem_of_further | done].
  - rewrite (bool_decide_eq_false_2 _ Hnin).
    destruct (decide (k = Z.of_nat i)) as [-> | Hne].
    + rewrite bool_decide_eq_true_2 by apply list_elem_of_here.
      by rewrite lookup_insert_eq.
    + rewrite lookup_insert_ne by done.
      rewrite bool_decide_eq_false_2; [done |].
      rewrite elem_of_cons. by intros [? | ?].
Qed.

Lemma elem_of_seq_Z (k : Z) (n : nat) :
  k ∈ (Z.of_nat <$> seq 0 n) <-> (0 <= k < Z.of_nat n)%Z.
Proof.
  rewrite list_elem_of_fmap. split.
  - intros (i & -> & Hi). apply elem_of_seq in Hi. lia.
  - intros Hk. exists (Z.to_nat k). split; [lia |]. apply elem_of_seq. lia.
Qed.

(** X14: after the snapshot of the finished state every question has an
    answer entry: the text in its answer widget if the widget key is bound,
    and otherwise the answer stored before, or the empty string; entries
    beyond the questions are left alone, and taking the snapshot twice
    changes nothing more. *)
Theorem snapshot_answers_lookup (store : gmap string value)
    (total_questions : nat) (answers : gmap Z value) (idx : Z) :
  snapshot_answers store total_questions answers !! idx =
    (if bool_decide (0 <= idx < Z.of_nat total_questions)%Z
     then Some (match store !! widget_key idx with
                | Some v => v
                | None => default (VStr "") (answers !! idx)
                end)
     else answers !! idx)
  /\ snapshot_answers store total_questions
       (snapshot_answers store total_questions answers) =
     snapshot_answers store total_questions answers.
Proof.
  assert (H : forall a i,
    snapshot_answers store total_questions a !! i =
    if bool_decide (0 <= i < Z.of_nat total_questions)%Z
    then Some (match store !! widget_key i with
               | Some v => v
               | None => default (VStr "") (a !! i)
               end)
    else a !! i).
  { intros a i. unfold snapshot_answers. rewrite lookup_union.
    rewrite (lookup_foldl_insert
               (fun z => match store !! widget_key z with
                         | Some v => v
                         | None => default (VStr "") (a !! z)
                         end)).
    rewrite (bool_decide_ext _ _ (elem_of_seq_Z i total_questions)).
    rewrite lookup_empty.
    destruct (bool_decide _); [by destruct (a !! i) | by destruct (a !! i)]. }
  split; [apply H |].
  apply map_eq. intros i. rewrite !H.
  destruct (bool_decide _); [| done].
  by destruct (store !! widget_key i).
Qed.

End SnapshotFacts.

Section MoreTimerFacts.

Import PracticeApp.

Lemma py_int_mono (x y : Q) : (x <= y)%Q -> (py_int x <= py_int y)%Z.
Proof.
  intros Hxy. unfold py_int.
  destruct (Qle_bool 0 x) eqn:Ex; destruct (Qle_bool 0 y) eqn:Ey.
  - by apply Qfloor_resp_le.
  - apply Qle_bool_iff in Ex.
    assert (Qle_bool 0 y = true) by (apply Qle_bool_iff; by apply Qle_trans with x).
    congruence.
  - assert (Hc : (Qceiling x <= 0)%Z).
    { unfold Qceiling. assert (0 <= Qfloor (- x))%Z; [| lia].
      rewrite <- (Qfloor_Z 0). apply Qfloor_resp_le.
      assert (Hneg : (x < 0)%Q).
      { apply Qnot_le_lt. intros H. apply Qle_bool_iff in H. congruence. }
      apply Qlt_le_weak. rewrite <- (Qopp_involutive 0) in Hneg.
      apply Qopp_lt_compat in Hneg. by rewrite !Qopp_involutive in Hneg. }
    assert (0 <= Qfloor y)%Z; [| lia].
    rewrite <- (Qfloor_Z 0). apply Qfloor_resp_le. by apply Qle_bool_iff.
  - unfold Qceiling. assert (Qfloor (- y) <= Qfloor (- x))%Z; [| lia].
    apply Qfloor_resp_le. by apply Qopp_le_compat.
Qed.

(** X15: on every pass the elapsed and the remaining time lie between zero
    and the allotted time and add up to it, whatever the clock says (also
    when it runs backwards); a later clock reading never shows more time
    left. *)
Theorem answering_timer_bounds (now_start now now' : Q) (allotted current_index : Z)
    (timers : gmap Z Q) (locked : gmap Z bool) :
  (0 <= allotted)%Z ->
  let v := answering_timer now_start now allotted current_index timers locked in
  let v' := answering_timer now_start now' allotted current_index timers locked in
  (0 <= elapsed v <= allotted)%Z
  /\ (0 <= remaining v <= allotted)%Z
  /\ (elapsed v + remaining v = allotted)%Z
  /\ ((now <= now')%Q -> (remaining v' <= remaining v)%Z).
Proof.
  intros Ha. cbv zeta. unfold answering_timer. cbv zeta. simpl.
  repeat split; try lia.
  intros Hle.
  set (start := default now_start (_ !! current_index)).
  assert (H : (py_int (now - start) <= py_int (now' - start))%Z).
  { apply py_int_mono. unfold Qminus. apply Qplus_le_l. exact Hle. }
  lia.
Qed.

Lemma answering_timer_bounds_witness :
  (0 <= remaining (answering_timer 1000 5000 900 0 ∅ ∅) <= 900)%Z
  /\ (0 <= remaining (answering_timer 1000 10 900 0 {[ 0%Z := 1000%Q ]} ∅) <= 900)%Z.
Proof.
  split.
  - apply (answering_timer_bounds 1000 5000 5000 900 0 ∅ ∅). lia.
  - apply (answering_timer_bounds 1000 10 10 900 0 {[ 0%Z := 1000%Q ]} ∅). lia.
Defined.

(** X16: a pass through the timer never unlocks a question and never moves
    a start time: every lock that was set stays set, the locks and start
    times of the other questions are untouched, the start time of the
    current question is the one recorded first, and a second pass leaves the
    start times as the first one left them. *)
Theorem answering_timer_frame (now_start now now_start' now' : Q)
    (allotted current_index other : Z) (timers : gmap Z Q) (locked : gmap Z bool) :
  let v := answering_timer now_start now allotted current_index timers locked in
  let v' :=
    answering_timer now_start' now' allotted current_index
      (question_timers v) (question_locked v) in
  (locked !! other = Some true -> question_locked v !! other = Some true)
  /\ (other <> current_index ->
      question_locked v !! other = locked !! other
      /\ question_timers v !! other = timers !! other)
  /\ question_timers v !! current_index =
     Some (default now_start (timers !! current_index))
  /\ question_timers v' = question_timers v
  /\ (question_locked v !! current_index = Some true ->
      question_locked v' !! current_index = Some true).
Proof.
  cbv zeta. unfold answering_timer. cbv zeta. simpl.
  set (timers1 := match timers !! current_index with
                  | Some _ => timers
                  | None => <[current_index := now_start]> timers
                  end).
  assert (Ht1 : timers1 !! current_index =
                Some (default now_start (timers !! current_index))).
  { unfold timers1. destruct (timers !! current_index) eqn:E; [by rewrite E |].
    by rewrite lookup_insert_eq. }
  split; [| split; [| split; [| split]]].
  - intros Hl. destruct (_ =? 0)%Z; [| done].
    destruct (decide (other = current_index)) as [-> | Hne];
      [by rewrite lookup_insert_eq | by rewrite lookup_insert_ne].
  - intros Hne. split.
    + destruct (_ =? 0)%Z; [by rewrite lookup_insert_ne | done].
    + unfold timers1. destruct (timers !! current_index);
        [done | by rewrite lookup_insert_ne].
  - exact Ht1.
  - by rewrite Ht1.
  - intros Hl. destruct (_ =? 0)%Z in |- *; [by rewrite lookup_insert_eq | done].
Qed.

End MoreTimerFacts.

(** ** Audio outside the Coding round, and the restart *)

Section MoreAudioFacts.

Import Session PracticeApp PracticeFlow.

(** X17: whenever the answer text area is hidden the audio capture panel is
    on the page, so that an answer can always be given; for a locked
    question the text area is not hidden and the panel is never rendered, and
    the lock notice is shown only for a locked question with audio on. *)
Theorem hidden_text_area_has_audio_panel (round_type : string)
    (current_locked : bool) (store : gmap string value) :
  let v := answering_audio round_type current_locked store in
  (response_hidden v = true -> panel v = PanelRendered)
  /\ (current_locked = true ->
      response_hidden v = false /\ panel v <> PanelRendered)
  /\ (panel v = PanelLockedNotice ->
      current_locked = true /\ audio_enabled v = true)
  /\ (panel v = PanelRendered -> audio_mode_notice v = true).
Proof.
  cbv zeta. unfold answering_audio. cbv zeta. simpl.
  destruct (is_coding_round round_type); simpl.
  { repeat split; try done; by destruct current_locked. }
  unfold get.
  destruct (store !! "audio_mode_enabled") as [m|]; simpl.
  - destruct (py_bool m), current_locked; by repeat split.
  - destruct (store !! "audio_checkbox") as [c|]; simpl.
    + destruct (py_bool c), current_locked; by repeat split.
    + destruct current_locked; by repeat split.
Qed.

Lemma hidden_text_area_has_audio_panel_witness :
  panel (answering_audio "Behavioral" false
           (<["audio_mode_enabled" := VBool true]> ∅)) = PanelRendered.
Proof.
  apply (hidden_text_area_has_audio_panel "Behavioral" false
           (<["audio_mode_enabled" := VBool true]> ∅)).
  reflexivity.
Defined.

Lemma lookup_setdefaults (l : list (string * value)) :
  forall (store : gmap string value) (key : string),
    foldl (fun st '(k, default_value) =>
             match st !! k with
             | Some _ => st
             | None => <[k := default_value]> st
             end) store l !! key =
    match store !! key with
    | Some v => Some v
    | None => first_binding key l
    end.
Proof.
  induction l as [|[k v] l IH]; intros store key;
    [simpl; by destruct (store !! key) |].
  simpl foldl. rewrite IH. simpl first_binding.
  destruct (String.eqb_spec key k) as [-> | Hne].
  - destruct (store !! k) eqn:E; [by rewrite E |]. by rewrite lookup_insert_eq.
  - destruct (store !! k); [done |]. by rewrite lookup_insert_ne.
Qed.

Lemma init_session_state_lookup (copy_loc : nat) (store : gmap string value)
    (key : string) :
  init_session_state copy_loc store !! key =
  match store !! key with
  | Some v => Some v
  | None => first_binding key (required_state copy_loc store)
  end.
Proof. apply lookup_setdefaults. Qed.

(** X18: the initialisation at the top of the practice page never changes a
    key that is bound; afterwards the ten keys it cares for are bound, and
    running it again changes nothing. *)
Theorem init_session_state_keeps (copy_loc : nat) (store : gmap string value) :
  (forall key v, store !! key = Some v ->
                 init_session_state copy_loc store !! key = Some v)
  /\ Forall (fun key => is_Some (init_session_state copy_loc store !! key))
       ["questions"; "current_question_index"; "answers"; "question_timers";
        "question_locked"; "safety_settings"; "generation_config";
        "initialized"; "google_api_key"; "prompt_strategy"]
  /\ (forall copy_loc',
        init_session_state copy_loc' (init_session_state copy_loc store) =
        init_session_state copy_loc store).
Proof.
  split; [| split].
  - intros key v H. by rewrite init_session_state_lookup, H.
  - repeat constructor; rewrite init_session_state_lookup;
      match goal with
      | |- is_Some (match store !! ?k with _ => _ end) =>
          destruct (store !! k); by eexists
      end.
  - intros copy_loc'. apply map_eq. intros key.
    rewrite (init_session_state_lookup copy_loc').
    destruct (init_session_state copy_loc store !! key) as [v|] eqn:E; [done |].
    rewrite init_session_state_lookup in E.
    destruct (store !! key); [done |].
    unfold required_state, first_binding in E |- *.
    repeat match type of E with
           | (if ?b then _ else _) = None => destruct b; [discriminate E |]
           end.
    done.
Qed.


End MoreAudioFacts.
(** ** More on the prompts *)

Section MorePromptFacts.

Import PromptStrategies.






End MorePromptFacts.


(** ** Widget keys and the transcript *)

Section UiFacts.

Import Session PracticeApp UiComponents.

(** X21: two questions never share the key of their answer widget, the
    label of their text area or the id of their response container. *)
Theorem widget_names_distinct (i j : Z) :
  (widget_key i = widget_key j -> i = j)
  /\ (get_response_aria_label i = get_response_aria_label j -> i = j)
  /\ (response_container_id i = response_container_id j -> i = j).
Proof.
  unfold widget_key, get_response_aria_label, response_container_id.
  split; [| split]; intros H; apply String.app_inj, pretty_Z_inj in H; lia.
Qed.

Lemma widget_names_distinct_witness : widget_key 3 <> widget_key 4.
Proof.
  intros H. apply (widget_names_distinct 3 4) in H. discriminate H.
Defined.

(** X22: the transcript offered for download holds one block for every
    question, with its number, its text and its answer, and a question
    without an answer entry reads "No response"; the summary has one entry
    for every question, which reads "No response provided" exactly when the
    answer is missing or empty; with no question the transcript is empty. *)
Theorem transcript_holds_every_question (questions : list string)
    (answers : gmap Z string) (i : nat) (q : string) :
  questions !! i = Some q ->
  str_in ("Question " +:+ pretty (i + 1)%nat +:+ ": " +:+ q +:+ nl +:+
          "Answer: " +:+ default "No response" (answers !! Z.of_nat i))
    (download_data questions answers) = true
  /\ length (summary_entries questions answers) = length questions
  /\ (exists body,
        summary_entries questions answers !! i =
        Some ("Question " +:+ pretty (i + 1)%nat +:+ ": " +:+ q, body)
        /\ (body = "**No response provided**" <->
            answers !! Z.of_nat i = None \/ answers !! Z.of_nat i = Some ""))
  /\ download_data [] answers = "".
Proof.
  intros Hq. split; [| split; [| split]].
  - unfold download_data. apply str_in_join.
    apply list_elem_of_In, list_elem_of_lookup. exists i.
    by rewrite list_lookup_imap, Hq.
  - unfold summary_entries. apply length_imap.
  - unfold summary_entries. rewrite list_lookup_imap, Hq. simpl.
    eexists. split; [reflexivity |].
    destruct (answers !! Z.of_nat i) as [[|c a]|]; simpl.
    + split; [by right | done].
    + split; [discriminate | intros [H | H]; discriminate H].
    + split; [by left | done].
  - reflexivity.
Qed.

Lemma transcript_holds_every_question_witness :
  str_in ("Question " +:+ pretty (1 + 1)%nat +:+ ": " +:+ "Why?" +:+ nl +:+
          "Answer: " +:+
          default "No response"
            (({[ 0%Z := "Because." ]} : gmap Z string) !! Z.of_nat 1))
    (download_data ["What?"; "Why?"] {[ 0%Z := "Because." ]}) = true.
Proof.
  exact (proj1 (transcript_holds_every_question ["What?"; "Why?"]
                  {[ 0%Z := "Because." ]} 1 "Why?" eq_refl)).
Defined.

End UiFacts.

(** ** From the setup page to the practice page *)

Section InterviewFlowFacts.

Import Session InterviewFlow.

(** X23: when practice has been started and the four settings of the
    session are strings, [handle_practice_navigation] clears the start flag
    and reruns with [page=practice] and the settings in the query, other
    parameters kept; the practice page reads back exactly these settings (an
    empty company stays empty), and the call of the next run reports practice
    mode without another rerun.  Without the start flag nothing changes and
    the result says whether the query has [page=practice]. *)
Theorem start_practice_round_trip (store : gmap string value)
    (query : gmap string string) (round_type difficulty role company : string) :
  store !! "round_radio" = Some (VStr round_type) ->
  store !! "difficulty_radio" = Some (VStr difficulty) ->
  store !! "role" = Some (VStr role) ->
  store !! "company" = Some (VStr company) ->
  (py_bool (get store "start_practice" (VBool false)) = true ->
   exists store' query',
     handle_practice_navigation store query = Some (Rerun store' query')
     /\ store' = <["start_practice" := VBool false]> store
     /\ query' !! "page" = Some "practice"
     /\ practice_params query' = (role, company, round_type, difficulty)
     /\ (forall key,
           ~ In key ["page"; "round"; "difficulty"; "role"; "company"] ->
           query' !! key = query !! key)
     /\ handle_practice_navigation store' query' = Some (Returned true))
  /\ (py_bool (get store "start_practice" (VBool false)) = false ->
      handle_practice_navigation store query =
      Some (Returned (bool_decide (query !! "page" = Some "practice")))).
Proof.
  intros Hr Hd Hro Hc. split.
  - intros Hs. unfold handle_practice_navigation. rewrite Hs.
    unfold get at 1 2 3 4. rewrite Hr, Hd, Hro, Hc. simpl.
    eexists _, _. split; [reflexivity |]. split; [done |].
    split; [by rewrite !lookup_insert_ne, lookup_insert_eq by done |].
    split.
    { unfold practice_params.
      rewrite (lookup_insert_ne _ "company" "role"), lookup_insert_eq by done.
      rewrite lookup_insert_eq.
      rewrite !(lookup_insert_ne _ _ "round"), lookup_insert_eq by done.
      by rewrite !(lookup_insert_ne _ _ "difficulty"), lookup_insert_eq by done. }
    split.
    { intros key Hk. simpl in Hk.
      rewrite !lookup_insert_ne; [done | intros <-; tauto..]. }
    unfold get. rewrite lookup_insert_eq. simpl.
    by rewrite !lookup_insert_ne, lookup_insert_eq by done.
  - intros Hs. unfold handle_practice_navigation. rewrite Hs. do 2 f_equal.
    destruct (query !! "page") as [page|] eqn:E; [| done].
    destruct (String.eqb_spec page "practice") as [-> | Hne];
      [by rewrite bool_decide_eq_true_2 |].
    rewrite bool_decide_eq_false_2; [done | by intros [= ->]].
Qed.

End InterviewFlowFacts.

Lemma start_practice_round_trip_witness :
  exists store' query',
    InterviewFlow.handle_practice_navigation
      (<["start_practice" := Session.VBool true]>
         (<["company" := Session.VStr ""]>
            (<["role" := Session.VStr "Data Engineer"]>
               (<["difficulty_radio" := Session.VStr "Beginner"]>
                  (<["round_radio" := Session.VStr "Behavioral"]> ∅)))))
      ∅ = Some (InterviewFlow.Rerun store' query')
    /\ InterviewFlow.practice_params query' =
       ("Data Engineer", "", "Behavioral", "Beginner").
Proof.
  destruct (start_practice_round_trip
              (<["start_practice" := Session.VBool true]>
                 (<["company" := Session.VStr ""]>
                    (<["role" := Session.VStr "Data Engineer"]>
                       (<["difficulty_radio" := Session.VStr "Beginner"]>
                          (<["round_radio" := Session.VStr "Behavioral"]> ∅)))))
              ∅ "Behavioral" "Beginner" "Data Engineer" "") as [H _];
    [reflexivity | reflexivity | reflexivity | reflexivity |].
  destruct (H eq_refl) as (store' & query' & H1 & _ & _ & H2 & _).
  by exists store', query'.
Defined.

(** ** The setup page *)

Section SetupPageFacts.

Import PromptStrategies LlmUtils Session SetupPage.

Lemma strip_empty : strip "" = "".
Proof. reflexivity. Qed.





End SetupPageFacts.

Section SetupPageWitnesses.

Import PyStr Session SetupPage.


End SetupPageWitnesses.

Section StartFacts.

Import PromptStrategies LlmUtils Session SetupPage.

Variable env_GEMINI_MODEL : option string.
Variable configure : string -> option exn.
Variable GenerativeModel :
  string -> gmap string Q -> gmap HarmCategory HarmBlockThreshold -> option exn.
Variable count_tokens : string -> string -> option exn.
Variable default_safety : gmap HarmCategory HarmBlockThreshold.

Let check_key (api_key : option string)
    (generation_config : option (gmap string (option Q)))
    (safety_settings : option (gmap HarmCategory HarmBlockThreshold))
    (store : gmap string value) : key_check :=
  check_api_key env_GEMINI_MODEL configure GenerativeModel count_tokens
    default_safety api_key generation_config safety_settings store.

Let validation (key : string)
    (generation_config : option (gmap string (option Q)))
    (safety_settings : option (gmap HarmCategory HarmBlockThreshold)) : M unit :=
  validate_google_api_key env_GEMINI_MODEL configure GenerativeModel count_tokens
    default_safety (Some key) generation_config safety_settings.

Lemma same_key_spec (cached : value) (key : string) :
  match cached with
  | VStr s => String.eqb s key
  | _ => false
  end = true <-> cached = VStr key.
Proof.
  destruct cached; try (split; [discriminate | discriminate]).
  rewrite String.eqb_eq. split; [by intros -> | by intros [= ->]].
Qed.

(** The three ways the key check ends. *)
Lemma check_key_cases (api_key : option string)
    (generation_config : option (gmap string (option Q)))
    (safety_settings : option (gmap HarmCategory HarmBlockThreshold))
    (store : gmap string value) :
  let k := check_key api_key generation_config safety_settings store in
  ((api_key = None \/ api_key = Some "")
   /\ k = {| checked_store := store; api_key_after := api_key;
             api_key_validation_error := None; validation_calls := [] |})
  \/ (exists key,
        api_key = Some key /\ key <> ""
        /\ api_key_after k = Some key
        /\ api_key_validation_error k = None
        /\ checked_store k !! "google_api_key" = Some (VStr key)
        /\ checked_store k !! "validated_api_key" = Some (VStr key)
        /\ (forall name, name <> "google_api_key" -> name <> "validated_api_key" ->
                         checked_store k !! name = store !! name)
        /\ ((store !! "validated_api_key" = Some (VStr key)
             /\ validation_calls k = [])
            \/ (store !! "validated_api_key" <> Some (VStr key)
                /\ outcome (validation key generation_config safety_settings) = inr tt
                /\ validation_calls k =
                   trace (validation key generation_config safety_settings))))
  \/ (exists key exc,
        api_key = Some key /\ key <> ""
        /\ store !! "validated_api_key" <> Some (VStr key)
        /\ outcome (validation key generation_config safety_settings) = inl exc
        /\ k = {| checked_store := store; api_key_after := None;
                  api_key_validation_error := Some (exn_message exc);
                  validation_calls :=
                    trace (validation key generation_config safety_settings) |}).
Proof.
  cbv zeta. unfold check_key, check_api_key.
  destruct (str_or_none_truthy api_key) eqn:Ek.
  2:{ left. split; [by apply api_key_truthy_false | done]. }
  destruct api_key as [key|]; [| done]. simpl in Ek. simpl default.
  assert (Hne : key <> "") by (by apply truthy_true).
  fold (validation key generation_config safety_settings).
  pose proof (same_key_spec (get store "validated_api_key" VNone) key) as Hsame.
  destruct (match get store "validated_api_key" VNone with
            | VStr s => String.eqb s key
            | _ => false
            end).
  - assert (Hc : store !! "validated_api_key" = Some (VStr key)).
    { assert (H : get store "validated_api_key" VNone = VStr key) by by apply Hsame.
      unfold get in H.
      destruct (store !! "validated_api_key") as [v|]; simpl in H;
        [by subst | discriminate H]. }
    right. left. exists key. simpl. split; [done |]. split; [done |].
    split; [done |]. split; [done |].
    split; [by rewrite lookup_insert_eq |].
    split; [by rewrite lookup_insert_ne by done |].
    split; [intros name H1 H2; by rewrite lookup_insert_ne by done |].
    by left.
  - assert (Hc : store !! "validated_api_key" <> Some (VStr key)).
    { intros H. assert (false = true); [| done]. apply Hsame.
      unfold get. by rewrite H. }
    destruct (validation key generation_config safety_settings)
      as [calls [exc | []]] eqn:Ev; simpl.
    + right. right. exists key, exc.
      split; [done |]. split; [done |]. split; [done |].
      rewrite Ev. split; reflexivity.
    + right. left. exists key. simpl. split; [done |]. split; [done |].
      split; [done |]. split; [done |].
      split; [by rewrite lookup_insert_eq |].
      split; [by rewrite lookup_insert_ne, lookup_insert_eq by done |].
      split; [intros name H1 H2; by rewrite !lookup_insert_ne by done |].
      right. rewrite Ev. split; [done |]. split; reflexivity.
Qed.

(** X26: what the START PRACTICE button does.  Practice starts exactly when
    the role is not blank and a key is available after the check; then no
    warning is shown, the key is stored as the session's key and as the
    validated key, and it had been validated before or its validation has
    just succeeded.  Otherwise nothing is started and at least one warning is
    shown; the warning about an invalid key never comes without the warning
    about a missing key. *)
Theorem start_practice_gate (role : string) (api_key : option string)
    (generation_config : option (gmap string (option Q)))
    (safety_settings : option (gmap HarmCategory HarmBlockThreshold))
    (store : gmap string value) :
  let k := check_key api_key generation_config safety_settings store in
  let warnings := fst (start_practice_clicked role k) in
  let store' := snd (start_practice_clicked role k) in
  let starts := truthy (strip role) && str_or_none_truthy (api_key_after k) in
  (starts = true ->
   warnings = []
   /\ store' = <["start_practice" := VBool true]> (checked_store k)
   /\ exists key,
        api_key = Some key /\ key <> ""
        /\ store' !! "google_api_key" = Some (VStr key)
        /\ store' !! "validated_api_key" = Some (VStr key)
        /\ (store !! "validated_api_key" = Some (VStr key)
            \/ outcome (validation key generation_config safety_settings) = inr tt))
  /\ (starts = false -> warnings <> [] /\ store' = checked_store k)
  /\ (In "Your Google API key appears invalid. Update it in .env and restart before generating questions."
        warnings ->
      In "Add a valid GOOGLE_API_KEY to .env and restart before generating questions."
        warnings).
Proof.
  cbv zeta. unfold start_practice_clicked. cbv zeta. simpl fst. simpl snd.
  destruct (check_key_cases api_key generation_config safety_settings store)
    as [(Hk & ->)
       | [(key & -> & Hne & Ha & He & Hg & Hv & Hf & Hval)
         | (key & exc & -> & Hne & Hc & Ho & ->)]];
    cbv zeta; simpl api_key_after; simpl api_key_validation_error;
    simpl checked_store.
  - apply api_key_truthy_false in Hk. unfold api_key_truthy in Hk. rewrite Hk.
    rewrite andb_false_r.
    split; [done |]. split.
    + intros _. destruct (truthy (strip role)); simpl; by split.
    + intros H. destruct (truthy (strip role)); simpl in H |- *; try done;
        repeat (destruct H as [H | H]; try discriminate H); auto.
  - rewrite Ha, He. simpl str_or_none_truthy. apply truthy_true in Hne.
    rewrite Hne. rewrite andb_true_r.
    split; [| split].
    + intros Hr. rewrite Hr. simpl. split; [done |]. split; [done |]. exists key.
      split; [done |]. split; [by apply truthy_true |].
      split; [by rewrite lookup_insert_ne by done |].
      split; [by rewrite lookup_insert_ne by done |].
      destruct Hval as [[H _] | (_ & H & _)]; [by left | by right].
    + intros Hr. rewrite Hr. simpl. by split.
    + intros H. destruct (truthy (strip role)); simpl in H |- *; try done;
        repeat (destruct H as [H | H]; try discriminate H); auto.
  - simpl str_or_none_truthy. rewrite andb_false_r.
    split; [done |]. split.
    + intros _. destruct (truthy (strip role)); simpl; by split.
    + intros H. destruct (truthy (strip role)); simpl in H |- *; try done;
        repeat (destruct H as [H | H]; try discriminate H); auto.
Qed.


(** X27: a key is validated at most once as long as it does not change:
    after a check that left the key available, the next check of the same key
    makes no call to the library and leaves the store as it is, also when the
    generation or safety settings have changed in between. *)
Theorem key_validated_once (key : string)
    (generation_config generation_config' : option (gmap string (option Q)))
    (safety_settings safety_settings' :
       option (gmap HarmCategory HarmBlockThreshold))
    (store : gmap string value) :
  let k := check_key (Some key) generation_config safety_settings store in
  let k' :=
    check_key (Some key) generation_config' safety_settings' (checked_store k) in
  str_or_none_truthy (api_key_after k) = true ->
  validation_calls k' = []
  /\ api_key_after k' = Some key
  /\ api_key_validation_error k' = None
  /\ checked_store k' = checked_store k.
Proof.
  cbv zeta. intros Hav.
  destruct (check_key_cases (Some key) generation_config safety_settings store)
    as [([H | H] & Hk)
       | [(key0 & [= <-] & Hne & Ha & He & Hg & Hv & Hf & Hval)
         | (key0 & exc & _ & _ & _ & _ & Hk)]];
    [discriminate H | injection H as ->; by rewrite Hk in Hav | |
     by rewrite Hk in Hav].
  destruct (check_key_cases (Some key) generation_config' safety_settings'
              (checked_store
                 (check_key (Some key) generation_config safety_settings store)))
    as [([H | H] & _)
       | [(key0 & [= <-] & _ & Ha' & He' & Hg' & Hv' & Hf' & Hval')
         | (key0 & exc & [= <-] & _ & Hc & _)]];
    [discriminate H | by injection H | | done].
  rewrite Ha', He'.
  destruct Hval' as [[_ Hcalls] | (Hc & _)]; [| done].
  split; [done |]. split; [done |]. split; [done |].
  apply map_eq. intros name.
  destruct (decide (name = "google_api_key")) as [-> | H1]; [by rewrite Hg', Hg |].
  destruct (decide (name = "validated_api_key")) as [-> | H2]; [by rewrite Hv', Hv |].
  by apply Hf'.
Qed.


End StartFacts.

Lemma start_practice_gate_witness :
  fst (SetupPage.start_practice_clicked "   "
         (SetupPage.check_api_key None (fun _ => None) (fun _ _ _ => None)
            (fun _ _ => None) LlmUtils.DEFAULT_SAFETY_SETTINGS (Some "secret-key") None
            None ∅)) <> [].
Proof.
  apply (start_practice_gate None (fun _ => None) (fun _ _ _ => None)
           (fun _ _ => None) LlmUtils.DEFAULT_SAFETY_SETTINGS "   "
           (Some "secret-key") None None ∅).
  reflexivity.
Defined.

Lemma key_validated_once_witness :
  SetupPage.validation_calls
    (SetupPage.check_api_key None (fun _ => None) (fun _ _ _ => None) (fun _ _ => None)
       LlmUtils.DEFAULT_SAFETY_SETTINGS (Some "secret-key") None (Some ∅)
       (SetupPage.checked_store
          (SetupPage.check_api_key None (fun _ => None) (fun _ _ _ => None)
             (fun _ _ => None) LlmUtils.DEFAULT_SAFETY_SETTINGS (Some "secret-key") None
             None ∅))) = [].
Proof.
  apply (key_validated_once None (fun _ => None) (fun _ _ _ => None)
           (fun _ _ => None) LlmUtils.DEFAULT_SAFETY_SETTINGS "secret-key" None None None
           (Some ∅) ∅).
  reflexivity.
Defined.

Section StrategyOptionFacts.

Import PromptStrategies SetupPage.

Lemma list_index_of_missing (x : string) (l : list string) :
  ~ In x l -> list_index_of x l = inl (ValueError ("'" +:+ x +:+ "' is not in list")).
Proof.
  induction l as [|y l IH]; [done |]. intros Hnot. simpl.
  destruct (String.eqb_spec y x) as [-> | Hne]; [destruct Hnot; by left |].
  rewrite IH; [done |]. intros H. apply Hnot. by right.
Qed.

(** X28: the strategy select box of the setup page.  For each of the six
    registered strategies the box shows the display name of the stored
    strategy, and that name leads back to the same strategy id, the six names
    being distinct; for a stored strategy that is not registered the page
    fails with a [ValueError]. *)
Theorem strategy_selectbox_round_trip (prompt_strategy : string) :
  (In prompt_strategy strategy_keys ->
   exists shown_name,
     strategy_selectbox_default prompt_strategy = inr (Some shown_name)
     /\ strategy_of_name shown_name strategy_options = Some prompt_strategy)
  /\ (~ In prompt_strategy strategy_keys ->
      strategy_selectbox_default prompt_strategy =
      inl (ValueError ("'" +:+ prompt_strategy +:+ "' is not in list")))
  /\ map snd strategy_options = strategy_keys
  /\ NoDup (map fst strategy_options).
Proof.
  split; [| split; [| split]].
  - intros Hin. simpl in Hin.
    destruct Hin as [<- | [<- | [<- | [<- | [<- | [<- | []]]]]]];
      eexists; split; reflexivity.
  - intros Hnot. unfold strategy_selectbox_default.
    change (map snd strategy_options) with strategy_keys.
    by rewrite (list_index_of_missing _ _ Hnot).
  - reflexivity.
  - apply (bool_decide_unpack (NoDup (map fst strategy_options))). by vm_compute.
Qed.

End StrategyOptionFacts.

Lemma strategy_selectbox_round_trip_witness :
  exists shown_name,
    SetupPage.strategy_selectbox_default "chain_of_thought" = inr (Some shown_name)
    /\ SetupPage.strategy_of_name shown_name SetupPage.strategy_options =
       Some "chain_of_thought".
Proof.
  apply (strategy_selectbox_round_trip "chain_of_thought").
  simpl. tauto.
Defined.

(** ** Where the safety dictionary of a session lives *)

Section MoreSafetyFacts.

Import LlmUtils Session StreamlitApp.

Lemma lookup_dict_stores (l l0 : nat)
    (writes : list (string * HarmCategory)) (selection : string -> threshold_label) :
  l <> l0 ->
  forall h : gmap nat (gmap HarmCategory HarmBlockThreshold),
    foldl (fun h '(category_name, category) =>
             dict_store l0 category (safety_thresholds (selection category_name)) h)
      h writes !! l = h !! l.
Proof.
  intros Hne. induction writes as [|[n c] writes IH]; intros h; [done |].
  simpl foldl. rewrite IH. unfold dict_store. by rewrite lookup_alter_ne.
Qed.

(** X29: a session whose safety key is first bound by the practice page gets
    a dictionary of its own: a new address, a copy of the module-level default
    as it is then, which the setup page of another session does not change.
    A session whose key is first bound by the setup page is bound to the
    address of the module-level default itself. *)
Theorem session_safety_dictionary (sid sid' : nat)
    (selection selection' : string -> threshold_label) (w : process) :
  (default ∅ (sessions w !! sid)) !! "safety_settings" = None ->
  is_Some (heap w !! DEFAULT_SAFETY_SETTINGS_loc) ->
  let w1 := practice_init_safety sid w in
  (exists l,
     (default ∅ (sessions w1 !! sid)) !! "safety_settings" = Some (VDictRef l)
     /\ (l ∉ dom (heap w))
     /\ l <> DEFAULT_SAFETY_SETTINGS_loc
     /\ session_safety sid w1 = Some (module_default w)
     /\ module_default w1 = module_default w
     /\ (sid' <> sid ->
         (forall l', (default ∅ (sessions w !! sid')) !! "safety_settings" =
                     Some (VDictRef l') -> l' ∈ dom (heap w)) ->
         session_safety sid (setup_safety sid' selection' w1) =
         Some (module_default w)))
  /\ (default ∅ (sessions (setup_safety sid selection w) !! sid))
       !! "safety_settings" = Some (VDictRef DEFAULT_SAFETY_SETTINGS_loc).
Proof.
  intros Hnone Hdef. cbv zeta. split.
  - unfold practice_init_safety. rewrite Hnone.
    set (l := fresh (dom (heap w))).
    assert (Hfresh : l ∉ dom (heap w)) by apply is_fresh.
    assert (Hl0 : l <> DEFAULT_SAFETY_SETTINGS_loc).
    { intros E. apply Hfresh. rewrite E. by apply elem_of_dom. }
    exists l. cbn [heap sessions].
    set (store1 := <["safety_settings" := VDictRef l]>
                     (default ∅ (sessions w !! sid))).
    assert (Hs : (default ∅ (<[sid := store1]> (sessions w) !! sid))
                 !! "safety_settings" = Some (VDictRef l)).
    { rewrite lookup_insert_eq. unfold store1. simpl.
      by rewrite lookup_insert_eq. }
    split; [exact Hs |]. split; [done |]. split; [done |].
    split; [| split].
    + unfold session_safety. cbn [heap sessions]. rewrite Hs.
      by rewrite lookup_insert_eq.
    + unfold module_default. cbn [heap]. by rewrite lookup_insert_ne.
    + intros Hsid Hrefs. unfold session_safety, setup_safety.
      cbn [heap sessions].
      rewrite (lookup_insert_ne (sessions w) sid sid') by done.
      set (store' := default ∅ (sessions w !! sid')) in *.
      destruct (store' !! "safety_settings") as [v|] eqn:Ev.
      * rewrite Ev. destruct v as [| | | | | | | | |l']; cbn [heap sessions];
          rewrite (lookup_insert_ne _ sid' sid) by done; rewrite Hs;
          try by rewrite lookup_insert_eq.
        rewrite lookup_dict_stores; [by rewrite lookup_insert_eq |].
        intros ->. by apply Hfresh, Hrefs.
      * rewrite lookup_insert_eq. cbn [heap sessions].
        rewrite (lookup_insert_ne _ sid' sid) by done. rewrite Hs.
        rewrite lookup_dict_stores by done. by rewrite lookup_insert_eq.
  - unfold setup_safety. rewrite Hnone, lookup_insert_eq. cbn [heap sessions].
    rewrite lookup_insert_eq. simpl. by rewrite lookup_insert_eq.
Qed.

Lemma session_safety_dictionary_witness :
  session_safety 3
    (setup_safety 1 Scenarios.relaxed_selection
       (practice_init_safety 3 Scenarios.both_on_setup)) =
  Some (module_default Scenarios.both_on_setup).
Proof.
  destruct (session_safety_dictionary 3 1 Scenarios.initial_selection
              Scenarios.relaxed_selection Scenarios.both_on_setup)
    as [(l & _ & _ & _ & _ & _ & H) _];
    [reflexivity | by eexists |].
  apply H; [done |].
  intros l' Hl'. vm_compute in Hl'. injection Hl' as <-.
  apply elem_of_dom. by eexists.
Defined.

End MoreSafetyFacts.

(** ** The two message formats *)

Section MessageRoleFacts.

Import MessageRoles.

Lemma convert_history_ok (history : list (gmap string string)) :
  Forall complete_message history ->
  exists converted,
    convert_history history = inr converted
    /\ length converted = length history
    /\ forall j msg,
         history !! j = Some msg ->
         exists r c,
           msg !! "role" = Some r /\ msg !! "content" = Some c
           /\ converted !! j =
              Some {| gemini_role := if String.eqb r "user" then "user" else "model";
                      gemini_parts := [c] |}.
Proof.
  induction 1 as [| msg rest [[r Hr] [c Hc]] _ (converted & IH & Hlen & Hget)].
  - exists []. split; [done |]. split; [done |]. intros j msg H. by destruct j.
  - eexists. simpl. unfold msg_get. rewrite Hr, Hc, IH. split; [done |].
    split; [simpl; by rewrite Hlen |].
    intros [|j] m Hm; simpl in Hm.
    + injection Hm as <-. by exists r, c.
    + by apply Hget.
Qed.

Lemma convert_history_error (history : list (gmap string string)) (e : exn) :
  convert_history history = inl e ->
  exists j msg key,
    history !! j = Some msg /\ msg !! key = None
    /\ (key = "role" \/ key = "content")
    /\ e = OtherError ("'" +:+ key +:+ "'")
    /\ Forall complete_message (take j history).
Proof.
  induction history as [| msg rest IH]; [done |]. simpl. unfold msg_get.
  destruct (msg !! "role") as [r|] eqn:Hr.
  - destruct (msg !! "content") as [c|] eqn:Hc.
    + destruct (convert_history rest) as [e' | converted]; [| done].
      intros [= <-]. destruct (IH eq_refl) as (j & m & key & Hj & Hk & Hkey & He & Hpre).
      exists (S j), m, key. split; [done |]. split; [done |]. split; [done |].
      split; [done |]. simpl. constructor; [| done]. split; by eexists.
    + intros [= <-]. exists 0%nat, msg, "content". simpl. eauto 10.
  - intros [= <-]. exists 0%nat, msg, "role". simpl. eauto 10.
Qed.

(** X30: the two message formats.  The Gemini conversion keeps the system
    prompt apart and succeeds exactly when every message of the history has
    a role and a content; then it gives one message for each message of the
    history, with role "user" for a "user" message and "model" for any other
    role, followed by the user's message.  That is one message fewer than
    the OpenAI-style list, where every message of the history stands
    unchanged, one position later.  Otherwise the conversion raises the
    [KeyError] of the first message that lacks a key. *)
Theorem message_formats (system_prompt user_message : string)
    (conversation_history : option (list (gmap string string))) :
  let history := default [] conversation_history in
  let openai := openai_style_messages system_prompt user_message conversation_history in
  let gemini := gemini_style_conversion system_prompt user_message conversation_history in
  (Forall complete_message history <-> exists chat, gemini = inr (system_prompt, chat))
  /\ (forall instruction chat,
        gemini = inr (instruction, chat) ->
        instruction = system_prompt
        /\ length chat = S (length history)
        /\ S (length chat) = length openai
        /\ last chat = Some {| gemini_role := "user"; gemini_parts := [user_message] |}
        /\ Forall (fun m => gemini_role m = "user" \/ gemini_role m = "model") chat
        /\ forall j msg,
             history !! j = Some msg ->
             openai !! S j = Some msg
             /\ exists r c,
                  msg !! "role" = Some r /\ msg !! "content" = Some c
                  /\ chat !! j =
                     Some {| gemini_role := if String.eqb r "user" then "user" else "model";
                             gemini_parts := [c] |})
  /\ (forall e,
        gemini = inl e ->
        exists j msg key,
          history !! j = Some msg /\ msg !! key = None
          /\ (key = "role" \/ key = "content")
          /\ e = OtherError ("'" +:+ key +:+ "'")
          /\ Forall complete_message (take j history)).
Proof.
  cbv zeta. unfold gemini_style_conversion, openai_style_messages.
  set (history := default [] conversation_history).
  destruct (convert_history history) as [e | converted] eqn:E.
  - destruct (convert_history_error history e E)
      as (j & msg & key & Hj & Hk & Hkey & He & Hpre).
    split; [| split; [intros ? ? [=] | intros e' [= <-]; by exists j, msg, key]].
    split; [| intros [chat [=]]].
    intros Hall. rewrite Forall_lookup in Hall.
    destruct (Hall j msg Hj) as [[r Hr] [c Hc]].
    destruct Hkey as [-> | ->]; congruence.
  - assert (Hall : Forall complete_message history).
    { apply Forall_lookup. intros j msg Hj.
      destruct (decide (Forall complete_message history)) as [H | H];
        [by apply (proj1 (Forall_lookup _ _) H j msg) |].
      exfalso. clear Hj. revert converted E.
      induction history as [| m rest IH]; [by destruct H |]. simpl. unfold msg_get.
      intros converted.
      destruct (m !! "role") as [r|] eqn:Hr; [| done].
      destruct (m !! "content") as [c|] eqn:Hc; [| done].
      destruct (convert_history rest) as [e' | conv] eqn:Er; [done |]. intros _.
      apply (IH ltac:(intros Hrest; apply H; constructor;
                      [split; by eexists | done]) conv eq_refl). }
    destruct (convert_history_ok history Hall) as (conv & Hc & Hlen & Hget).
    rewrite E in Hc. injection Hc as <-.
    split; [split; [intros _; by eexists | done] |].
    split; [| intros e [=]].
    intros instruction chat [= <- <-]. split; [done |].
    split; [rewrite length_app; simpl; lia |].
    split; [simpl; rewrite !length_app; simpl; lia |].
    split; [by rewrite last_snoc |].
    split.
    + apply Forall_app. split; [| by constructor; [left | constructor]].
      apply Forall_lookup. intros j m Hm.
      assert (Hj : (j < length history)%nat)
        by (rewrite <- Hlen; by apply lookup_lt_Some in Hm).
      destruct (lookup_lt_is_Some_2 history j Hj) as [msg Hmsg].
      destruct (Hget j msg Hmsg) as (r & c & _ & _ & Hcj).
      rewrite Hm in Hcj. injection Hcj as ->. simpl.
      destruct (String.eqb r "user"); auto.
    + intros j msg Hj. split.
      * simpl. by rewrite lookup_app_l by (by apply lookup_lt_Some in Hj).
      * destruct (Hget j msg Hj) as (r & c & Hr & Hc & Hcj).
        exists r, c. split; [done |]. split; [done |].
        rewrite lookup_app_l; [done |]. rewrite Hlen. by apply lookup_lt_Some in Hj.
Qed.

End MessageRoleFacts.
